(** * Todo-Beads synchronisation: a shallow embedding and its properties

    The module under study (the todo-beads synchronisation module) keeps an
    OpenCode todo list and the issues of the external [bd] tracker in step.
    Everything it does to the outside world goes through three channels:
    the [bd] command line (through Bun's shell), the mapping file
    [.beads/opencode-todo-mapping.json], and the wall clock.

    Modelling choices, fixed once for the whole development:
    - a plain JS object used as a dictionary is an association list in
      own-property order ([JsObject]): array-index keys first, ascending,
      then the other keys in insertion order;
    - a property read with a key taken from a todo ([todo.id],
      [todo.priority], [todo.status]: free strings of the tool's arguments)
      falls through to [Object.prototype] when the object has no such own
      property: [read] gives the inherited member then, which is truthy and
      not nullish, and the shell command gets that member as its operand
      ([Operand]);
    - a session id is the identifier the host gives to a session
      ([ctx.sessionID]), never the name of a member of [Object.prototype]:
      [mapping.sessions] and [mapping.todos] are read by their own
      properties;
    - [async]/[await] is sequential here: every function is a computation in
      a state-and-exception monad [M] that also returns the events it
      emitted ([bd] invocations and file writes);
    - the tracker, the clock and the success of file writes belong to an
      environment that is a parameter of the development;
    - the mapping file is described by what [fs.readFile] and [JSON.parse]
      make of it: absent, unreadable, not JSON, or a mapping document (the
      return type [TodoBeadsMapping] of [loadMapping] is trusted for JSON of
      another shape). *)

From Stdlib Require Import String Ascii List ZArith NArith Bool Lia.
From Stdlib Require Import DecimalString DecimalZ DecimalNat.
Import ListNotations.

Local Open Scope list_scope.
Local Open Scope string_scope.

(* ------------------------------------------------------------------------- *)
(** ** JavaScript values used by the module *)
(* ------------------------------------------------------------------------- *)

(** [a ?? d]: the nullish-coalescing operator on a possibly-[undefined]
    value. *)
Definition nullish {A : Type} (o : option A) (d : A) : A :=
  match o with
  | Some a => a
  | None => d
  end.

Notation "o ?? d" := (nullish o d) (at level 45, left associativity).

(** Truthiness of a string: every string but the empty one. *)
Definition truthy (s : string) : bool := negb (s =? "").

(** Truthiness of [o[k]] when the values are strings: [undefined] and [""]
    are falsy. *)
Definition truthy_value (o : option string) : option string :=
  match o with
  | Some s => if truthy s then Some s else None
  | None => None
  end.

(** The property names every plain object inherits from
    [Object.prototype]. *)
Definition OBJECT_PROTOTYPE : list string :=
  ["constructor"; "__defineGetter__"; "__defineSetter__"; "hasOwnProperty";
   "__lookupGetter__"; "__lookupSetter__"; "isPrototypeOf";
   "propertyIsEnumerable"; "toString"; "valueOf"; "__proto__";
   "toLocaleString"].

Definition inherited (k : string) : bool :=
  existsb (String.eqb k) OBJECT_PROTOTYPE.

(** What a property read can hand to the code, and the code to a template
    literal of the shell: a string, a number, a member of
    [Object.prototype] (one of its functions, or the prototype itself for
    [__proto__]), or [undefined].  What the shell makes of an operand that
    is not a string or a number is up to the environment. *)
Inductive Operand : Type :=
| Text (s : string)
| Number (n : Z)
| Member (name : string)
| Undefined.

Coercion Text : string >-> Operand.
Coercion Number : Z >-> Operand.

(** Truthiness: [undefined], [""] and [0] are falsy; a function or an
    object is truthy. *)
Definition truthyOperand (v : Operand) : bool :=
  match v with
  | Text s => truthy s
  | Number n => negb (n =? 0)%Z
  | Member _ => true
  | Undefined => false
  end.

(** [v === s] for a string literal [s]. *)
Definition isText (s : string) (v : Operand) : bool :=
  match v with
  | Text t => t =? s
  | _ => false
  end.

(** [v ?? d] *)
Definition orElse (v d : Operand) : Operand :=
  match v with
  | Undefined => d
  | _ => v
  end.

(** What a read finds when the object has no own property [k]. *)
Definition member (k : string) : Operand :=
  if inherited k then Member k else Undefined.

(** [String(n)] for a natural number and for an integer. *)
Definition string_of_nat (n : nat) : string :=
  NilEmpty.string_of_uint (Nat.to_uint n).

Definition string_of_Z (z : Z) : string :=
  NilEmpty.string_of_int (Z.to_int z).

(** [s.includes(needle)]. *)
Fixpoint includes (needle s : string) : bool :=
  if String.prefix needle s then true
  else match s with
       | EmptyString => false
       | String _ s' => includes needle s'
       end.

(** [s.slice(0, n)] for [0 <= n]. *)
Definition slice0 (n : nat) (s : string) : string := String.substring 0 n s.

Module JsObject.

(** An array index is a canonical numeric string below [2^32 - 1]; such
    keys are enumerated first, in ascending order. *)
Definition digit_of (c : ascii) : option N :=
  let n := N_of_ascii c in
  if ((48 <=? n) && (n <=? 57))%N then Some (n - 48)%N else None.

Fixpoint digits_value (s : string) (acc : N) : option N :=
  match s with
  | EmptyString => Some acc
  | String c s' =>
      match digit_of c with
      | Some d => digits_value s' (10 * acc + d)%N
      | None => None
      end
  end.

Definition array_index (k : string) : option N :=
  match k with
  | EmptyString => None
  | String c rest =>
      if ((c =? "0")%char && negb (rest =? ""))%bool then None
      else match digits_value k 0 with
           | Some n => if (n <? 4294967295)%N then Some n else None
           | None => None
           end
  end.

Section WithValues.
Context {V : Type}.

Definition t : Type := list (string * V).

Definition empty : t := [].

(** [o[k]] *)
Fixpoint get (k : string) (o : t) : option V :=
  match o with
  | [] => None
  | (k', v) :: o' => if k =? k' then Some v else get k o'
  end.

Fixpoint replace (k : string) (v : V) (o : t) : t :=
  match o with
  | [] => []
  | (k', v') :: o' =>
      if k =? k' then (k', v) :: o' else (k', v') :: replace k v o'
  end.

Fixpoint insert_index (n : N) (k : string) (v : V) (o : t) : t :=
  match o with
  | [] => [(k, v)]
  | (k', v') :: o' =>
      match array_index k' with
      | Some n' =>
          if (n' <? n)%N then (k', v') :: insert_index n k v o'
          else (k, v) :: o
      | None => (k, v) :: o
      end
  end.

(** [o[k] = v] *)
Definition set (k : string) (v : V) (o : t) : t :=
  match get k o with
  | Some _ => replace k v o
  | None =>
      match array_index k with
      | Some n => insert_index n k v o
      | None => (o ++ [(k, v)])%list
      end
  end.

(** [delete o[k]] *)
Fixpoint delete (k : string) (o : t) : t :=
  match o with
  | [] => []
  | (k', v') :: o' =>
      if k =? k' then delete k o' else (k', v') :: delete k o'
  end.

(** [Object.entries(o)] *)
Definition entries (o : t) : list (string * V) := o.

Definition keys (o : t) : list string := map fst o.

End WithValues.

Arguments t : clear implicits.

End JsObject.

(** [o[k]] for an object literal or a parsed JSON object whose own values
    are strings, and for one whose own values are numbers. *)
Definition read (k : string) (o : JsObject.t string) : Operand :=
  match JsObject.get k o with
  | Some s => Text s
  | None => member k
  end.

Definition readNumber (k : string) (o : JsObject.t Z) : Operand :=
  match JsObject.get k o with
  | Some n => Number n
  | None => member k
  end.

(** A [Set<string>] is used through [add] and [has] only. *)
Definition StringSet : Type := list string.

Definition set_has (x : string) (s : StringSet) : bool :=
  existsb (String.eqb x) s.

Definition set_add (x : string) (s : StringSet) : StringSet :=
  if set_has x s then s else (s ++ [x])%list.

(* ------------------------------------------------------------------------- *)
(** ** Types *)
(* ------------------------------------------------------------------------- *)

(** [TodoItem].  The tool schema declares [status] and [priority] as plain
    strings, and the translators have fallbacks for strings outside the
    declared unions, so both are strings here. *)
Record TodoItem : Type := mkTodo {
  todo_id : string;
  todo_content : string;
  todo_status : string;
  todo_priority : string
}.

(** [BeadsIssue], as parsed from [bd --json]. *)
Record BeadsIssue : Type := mkIssue {
  issue_id : string;
  issue_title : string;
  issue_description : option string;
  issue_status : string;
  issue_priority : Z;
  issue_type : string;
  issue_notes : option string
}.

(** [TodoBeadsMapping] *)
Record TodoBeadsMapping : Type := mkMapping {
  sessions : JsObject.t string;
  todos : JsObject.t (JsObject.t string);
  lastSync : Z
}.

Definition TodoMap : Type := JsObject.t string.

(* ------------------------------------------------------------------------- *)
(** ** Constants *)
(* ------------------------------------------------------------------------- *)

Definition PRIORITY_TO_BEADS : JsObject.t Z :=
  [("high", 1%Z); ("medium", 2%Z); ("low", 3%Z)].

(** A [Record<number, _>]: the number used as a key is converted to its
    decimal string. *)
Definition PRIORITY_FROM_BEADS : JsObject.t string :=
  [("0", "high"); ("1", "high"); ("2", "medium"); ("3", "low"); ("4", "low")].

Definition STATUS_TO_BEADS : JsObject.t string :=
  [("pending", "open"); ("in_progress", "in_progress");
   ("completed", "closed"); ("cancelled", "closed")].

(** [PRIORITY_TO_BEADS[p] ?? 2], as [createBeadsIssue] computes it. *)
Definition priorityToBeads (p : string) : Operand :=
  orElse (readNumber p PRIORITY_TO_BEADS) (Number 2).

(** [PRIORITY_FROM_BEADS[n] ?? "medium"], as [beadsIssueToTodo] computes
    it.  The key is the decimal string of a number, which names no member
    of [Object.prototype]: the read is one of own properties. *)
Definition priorityFromBeads (n : Z) : string :=
  JsObject.get (string_of_Z n) PRIORITY_FROM_BEADS ?? "medium".

(** [STATUS_TO_BEADS[s]] *)
Definition statusToBeads (s : string) : Operand :=
  read s STATUS_TO_BEADS.


(* ------------------------------------------------------------------------- *)
(** ** The outside world *)
(* ------------------------------------------------------------------------- *)

(** The [bd] command lines the module builds. *)
Inductive BdCmd : Type :=
| BdShow (id : string)
    (* bd show <id> --json *)
| BdCreate (title type : string) (priority : Operand) (parent : option string)
           (description : string)
    (* bd create <title> -t <type> -p <priority> [--parent <parent>]
       -d <description> --json *)
| BdUpdateStatus (id status : Operand)
    (* bd update <id> --status <status> --json *)
| BdUpdateNotes (id notes : string)
    (* bd update <id> --notes <notes> --json *)
| BdClose (id : Operand) (reason : string).
    (* bd close <id> --reason <reason> --json *)

(** What [.json()] parses out of a reply: an issue object or [null]. *)
Inductive Json : Type :=
| JNull
| JIssue (i : BeadsIssue).

(** The outcome of one shell command: a non-zero exit, or an output that is
    JSON or not. *)
Inductive BdReply : Type :=
| ExitError
| Stdout (parsed : option Json).

(** What the run of a function leaves behind. *)
Inductive Event : Type :=
| EvBd (c : BdCmd)
| EvWriteFile (m : TodoBeadsMapping).

Inductive Exn : Type :=
| ShellError (c : BdCmd)
| JsonSyntaxError
| TypeError
| FsError
| FailedToCreateSessionIssue (cause : Exn)
| FailedToCreateBeadsIssue (todoID : string) (cause : Exn).

(** The mapping file. *)
Inductive FileContent : Type :=
| NotJson (text : string)
| MappingJson (m : TodoBeadsMapping).

Inductive FileState : Type :=
| FileAbsent
| FileUnreadable
| FileHolds (c : FileContent).

(** The environment the module runs in: the tracker behind [bd], the clock
    behind [Date], and the disk behind [fs.mkdir]/[fs.writeFile]. *)
Record Host : Type := mkHost {
  Env : Type;
  bd : BdCmd -> Env -> BdReply * Env;
  date_now : Env -> Z * Env;
  iso_day : Z -> string;  (* new Date(ms).toISOString().split("T")[0] *)
  fs_write : Env -> bool * Env
}.

Inductive Outcome (A : Type) : Type :=
| Return (a : A)
| Throw (e : Exn).

Arguments Return {A} a.
Arguments Throw {A} e.

Definition emptyMapping : TodoBeadsMapping :=
  {| sessions := JsObject.empty; todos := JsObject.empty; lastSync := 0%Z |}.

Definition isTerminal (t : TodoItem) : bool :=
  (todo_status t =? "completed") || (todo_status t =? "cancelled").

Definition closeReason (t : TodoItem) : string :=
  if todo_status t =? "cancelled" then "Cancelled in OpenCode" else "Completed".

(** [beadsIssueToTodo] *)
Definition beadsIssueToTodo (todoID : string) (issue : BeadsIssue) : TodoItem :=
  let status :=
    if issue_status issue =? "in_progress" then "in_progress"
    else if issue_status issue =? "closed" then
      match issue_notes issue with
      | Some notes => if includes "Cancelled" notes then "cancelled" else "completed"
      | None => "completed"
      end
    else "pending" in
  {| todo_id := todoID;
     todo_content := issue_title issue;
     todo_status := status;
     todo_priority := priorityFromBeads (issue_priority issue) |}.

(** The summary [closeSessionIssue] builds. *)
Definition sessionSummary (todoList : list TodoItem) : string :=
  let completed := length (filter (fun t => todo_status t =? "completed") todoList) in
  let cancelled := length (filter (fun t => todo_status t =? "cancelled") todoList) in
  "Session complete: " ++ string_of_nat completed ++ " completed, "
    ++ string_of_nat cancelled ++ " cancelled".

Section Engine.

Variable host : Host.

Record World : Type := mkWorld {
  env : Env host;
  file : FileState
}.

(** Computations: from a world to an outcome, the next world and the
    events emitted on the way. *)
Definition M (A : Type) : Type := World -> Outcome A * World * list Event.

Definition ret {A} (a : A) : M A := fun w => (Return a, w, []).

Definition throw {A} (e : Exn) : M A := fun w => (Throw e, w, []).

Definition bind {A B} (m : M A) (f : A -> M B) : M B :=
  fun w =>
    match m w with
    | (Return a, w1, ev1) =>
        match f a w1 with
        | (r, w2, ev2) => (r, w2, (ev1 ++ ev2)%list)
        end
    | (Throw e, w1, ev1) => (Throw e, w1, ev1)
    end.

(** [try { m } catch (e) { h e }] *)
Definition try_catch {A} (m : M A) (h : Exn -> M A) : M A :=
  fun w =>
    match m w with
    | (Return a, w1, ev1) => (Return a, w1, ev1)
    | (Throw e, w1, ev1) =>
        match h e w1 with
        | (r, w2, ev2) => (r, w2, (ev1 ++ ev2)%list)
        end
    end.

Notation "x <- m ;; k" := (bind m (fun x => k))
  (at level 61, m at next level, right associativity).
Notation "m ;;; k" := (bind m (fun _ => k))
  (at level 61, right associativity).

(** [await $`bd ...`.json()]: throws on a non-zero exit and on an output
    that is not JSON. *)
Definition sh_json (c : BdCmd) : M Json :=
  fun w =>
    match bd host c (env w) with
    | (Stdout (Some j), e) => (Return j, mkWorld e (file w), [EvBd c])
    | (_, e) => (Throw (ShellError c), mkWorld e (file w), [EvBd c])
    end.

(** [await $`bd ...`.quiet()]: throws on a non-zero exit only. *)
Definition sh_quiet (c : BdCmd) : M unit :=
  fun w =>
    match bd host c (env w) with
    | (Stdout _, e) => (Return tt, mkWorld e (file w), [EvBd c])
    | (ExitError, e) => (Throw (ShellError c), mkWorld e (file w), [EvBd c])
    end.

(** [Date.now()] and [new Date()] *)
Definition Date_now : M Z :=
  fun w =>
    match date_now host (env w) with
    | (t, e) => (Return t, mkWorld e (file w), [])
    end.

(** [fs.readFile(MAPPING_FILE, "utf-8")] *)
Definition fs_readFile : M FileContent :=
  fun w =>
    match file w with
    | FileHolds c => (Return c, w, [])
    | FileAbsent | FileUnreadable => (Throw FsError, w, [])
    end.

(** [JSON.parse(content)] *)
Definition JSON_parse (content : FileContent) : M TodoBeadsMapping :=
  match content with
  | MappingJson m => ret m
  | NotJson _ => throw JsonSyntaxError
  end.

(** [fs.mkdir(dir, {recursive: true})] followed by
    [fs.writeFile(MAPPING_FILE, JSON.stringify(mapping, null, 2))] *)
Definition fs_writeFile (mapping : TodoBeadsMapping) : M unit :=
  fun w =>
    match fs_write host (env w) with
    | (true, e) =>
        (Return tt, mkWorld e (FileHolds (MappingJson mapping)),
         [EvWriteFile mapping])
    | (false, e) => (Throw FsError, mkWorld e (file w), [])
    end.

(** [result.id] *)
Definition json_id (result : Json) : M string :=
  match result with
  | JIssue i => ret (issue_id i)
  | JNull => throw TypeError
  end.

(** [result && result.id] as a condition *)
Definition has_id (result : Json) : bool :=
  match result with
  | JIssue i => truthy (issue_id i)
  | JNull => false
  end.

(* ----------------------------------------------------------------------- *)
(** *** Mapping file management *)

Definition loadMapping : M TodoBeadsMapping :=
  try_catch
    (content <- fs_readFile ;; JSON_parse content)
    (fun _ => ret emptyMapping).

(** [saveMapping] mutates [mapping.lastSync]; the mutated document is
    returned to the caller, who goes on with it. *)
Definition saveMapping (mapping : TodoBeadsMapping) : M TodoBeadsMapping :=
  now <- Date_now ;;
  let mapping :=
    {| sessions := sessions mapping; todos := todos mapping; lastSync := now |} in
  fs_writeFile mapping ;;;
  ret mapping.

(* ----------------------------------------------------------------------- *)
(** *** Session issue management *)

Definition sessionIssueCmd (sessionID : string) (now : Z) : BdCmd :=
  let shortSessionID := slice0 8 sessionID in
  let timestamp := iso_day host now in
  let title := "OpenCode Session " ++ shortSessionID ++ " (" ++ timestamp ++ ")" in
  BdCreate title "epic" 2%Z None ("Tracks todos for OpenCode session " ++ sessionID).

(** The first half of [getOrCreateSessionIssue]: the recorded session
    issue, when there is one and [bd show] still finds it ("Check if we
    already have a session issue"). *)
Definition showSessionIssue (sessionID : string) (mapping : TodoBeadsMapping)
  : M (option string) :=
  match truthy_value (JsObject.get sessionID (sessions mapping)) with
  | Some recorded =>
      try_catch
        (result <- sh_json (BdShow recorded) ;;
         ret (if has_id result then Some recorded else None))
        (fun _ => ret None)
  | None => ret None
  end.

(** The second half ("Create new session issue"). *)
Definition createSessionIssue (sessionID : string) (mapping : TodoBeadsMapping)
  : M (string * TodoBeadsMapping) :=
  now <- Date_now ;;
  try_catch
    (result <- sh_json (sessionIssueCmd sessionID now) ;;
     issueID <- json_id result ;;
     let mapping :=
       {| sessions := JsObject.set sessionID issueID (sessions mapping);
          todos := JsObject.set sessionID JsObject.empty (todos mapping);
          lastSync := lastSync mapping |} in
     mapping <- saveMapping mapping ;;
     ret (issueID, mapping))
    (fun error => throw (FailedToCreateSessionIssue error)).

Definition getOrCreateSessionIssue (sessionID : string) (mapping : TodoBeadsMapping)
  : M (string * TodoBeadsMapping) :=
  existing <- showSessionIssue sessionID mapping ;;
  match existing with
  | Some recorded => ret (recorded, mapping)
  | None => createSessionIssue sessionID mapping
  end.

(* ----------------------------------------------------------------------- *)
(** *** Todo synchronisation *)

Definition createBeadsCmd (sessionIssueID : string) (todo : TodoItem) : BdCmd :=
  let priority := priorityToBeads (todo_priority todo) in
  let notes := "OpenCode todo ID: " ++ todo_id todo in
  BdCreate (todo_content todo) "task" priority (Some sessionIssueID) notes.

Definition createBeadsIssue (sessionIssueID : string) (todo : TodoItem) : M string :=
  try_catch
    (result <- sh_json (createBeadsCmd sessionIssueID todo) ;;
     rid <- json_id result ;;
     (if todo_status todo =? "in_progress" then
        sh_quiet (BdUpdateStatus rid "in_progress")
      else if isTerminal todo then
        sh_quiet (BdClose rid (closeReason todo))
      else ret tt) ;;;
     ret rid)
    (fun error => throw (FailedToCreateBeadsIssue (todo_id todo) error)).

Definition updateBeadsCmd (beadsID : Operand) (todo : TodoItem) : BdCmd :=
  let beadsStatus := statusToBeads (todo_status todo) in
  if isText "closed" beadsStatus then BdClose beadsID (closeReason todo)
  else BdUpdateStatus beadsID beadsStatus.

Definition updateBeadsIssue (beadsID : Operand) (todo : TodoItem) : M unit :=
  try_catch (sh_quiet (updateBeadsCmd beadsID todo)) (fun _ => ret tt).

Definition closeSessionIssue (sessionIssueID : string) (todoList : list TodoItem)
  : M unit :=
  let summary := sessionSummary todoList in
  try_catch
    (sh_quiet (BdUpdateNotes sessionIssueID summary) ;;;
     sh_quiet (BdClose sessionIssueID summary))
    (fun _ => ret tt).

(** The loop over the incoming todos.  [todoMap] is the object
    [mapping.todos[sessionID]] itself: what the loop does to it is done to
    the mapping.  [todoMap[todo.id]] is truthy for an own property that
    holds a non-empty string, and also, when there is no own property, for
    an id that names a member of [Object.prototype]. *)
Fixpoint syncLoop (sessionIssueID : string) (todoList : list TodoItem)
         (seenTodoIDs : StringSet) (todoMap : TodoMap)
  : M (StringSet * TodoMap) :=
  match todoList with
  | [] => ret (seenTodoIDs, todoMap)
  | todo :: rest =>
      let seenTodoIDs := set_add (todo_id todo) seenTodoIDs in
      let existingBeadsID := read (todo_id todo) todoMap in
      if truthyOperand existingBeadsID then
        updateBeadsIssue existingBeadsID todo ;;;
        syncLoop sessionIssueID rest seenTodoIDs todoMap
      else
        newBeadsID <- createBeadsIssue sessionIssueID todo ;;
        syncLoop sessionIssueID rest seenTodoIDs
                 (JsObject.set (todo_id todo) newBeadsID todoMap)
  end.

Definition removedCmd (beadsID : string) : BdCmd :=
  BdClose beadsID "Todo removed from OpenCode".

(** The loop over [Object.entries(todoMap)], a snapshot taken before the
    first deletion. *)
Fixpoint removeLoop (entries : list (string * string))
         (seenTodoIDs : StringSet) (todoMap : TodoMap) : M TodoMap :=
  match entries with
  | [] => ret todoMap
  | (todoID, beadsID) :: rest =>
      if set_has todoID seenTodoIDs then removeLoop rest seenTodoIDs todoMap
      else
        try_catch (sh_quiet (removedCmd beadsID)) (fun _ => ret tt) ;;;
        removeLoop rest seenTodoIDs (JsObject.delete todoID todoMap)
  end.

Definition allComplete (todoList : list TodoItem) : bool :=
  forallb isTerminal todoList.

(** [mapping.todos[sessionID]], made [{}] when it is missing. *)
Definition ensureTodoMap (sessionID : string) (mapping : TodoBeadsMapping)
  : TodoBeadsMapping :=
  match JsObject.get sessionID (todos mapping) with
  | Some _ => mapping
  | None =>
      {| sessions := sessions mapping;
         todos := JsObject.set sessionID JsObject.empty (todos mapping);
         lastSync := lastSync mapping |}
  end.

Definition todoMapOf (sessionID : string) (mapping : TodoBeadsMapping) : TodoMap :=
  JsObject.get sessionID (todos mapping) ?? JsObject.empty.

(** The mapping once the aliased [todoMap] has been mutated. *)
Definition withTodoMap (sessionID : string) (todoMap : TodoMap)
           (mapping : TodoBeadsMapping) : TodoBeadsMapping :=
  {| sessions := sessions mapping;
     todos := JsObject.set sessionID todoMap (todos mapping);
     lastSync := lastSync mapping |}.

Definition syncTodosToBeads (sessionID : string) (todoList : list TodoItem)
  : M unit :=
  mapping <- loadMapping ;;
  resolved <- getOrCreateSessionIssue sessionID mapping ;;
  let sessionIssueID := fst resolved in
  let mapping := ensureTodoMap sessionID (snd resolved) in
  let todoMap := todoMapOf sessionID mapping in
  looped <- syncLoop sessionIssueID todoList [] todoMap ;;
  let seenTodoIDs := fst looped in
  todoMap <- removeLoop (JsObject.entries (snd looped)) seenTodoIDs (snd looped) ;;
  (if allComplete todoList && negb (length todoList =? 0)%nat then
     closeSessionIssue sessionIssueID todoList
   else ret tt) ;;;
  saveMapping (withTodoMap sessionID todoMap mapping) ;;;
  ret tt.

(* ----------------------------------------------------------------------- *)
(** *** Reading todos back *)

Fixpoint readLoop (entries : list (string * string)) (todoList : list TodoItem)
  : M (list TodoItem) :=
  match entries with
  | [] => ret todoList
  | (todoID, beadsID) :: rest =>
      todoList <-
        try_catch
          (result <- sh_json (BdShow beadsID) ;;
           ret (match result with
                | JIssue issue =>
                    if truthy (issue_id issue)
                    then (todoList ++ [beadsIssueToTodo todoID issue])%list
                    else todoList
                | JNull => todoList
                end))
          (fun _ => ret todoList) ;;
      readLoop rest todoList
  end.

Definition readTodosFromBeads (sessionID : string) : M (list TodoItem) :=
  mapping <- loadMapping ;;
  match truthy_value (JsObject.get sessionID (sessions mapping)) with
  | None => ret []
  | Some _ =>
      let todoMap := todoMapOf sessionID mapping in
      readLoop (JsObject.entries todoMap) []
  end.

End Engine.

Arguments mkWorld {host} env file.
Arguments env {host} w.
Arguments file {host} w.

(* ------------------------------------------------------------------------- *)
(** ** A reference environment *)
(* ------------------------------------------------------------------------- *)

(** An in-memory tracker with fault injection, a ticking clock and a disk
    that works or not (a command whose priority is not a number, or whose
    issue or status is not a string, exits non-zero): a concrete [Host] on which the embedding runs, for
    the examples and the concrete runs below.  The theorems about the
    engine hold for every [Host]. *)
Module Ref.

Record State : Type := mkState {
  issues : list BeadsIssue;
  next_id : nat;
  fault : BdCmd -> bool;   (* the commands that exit non-zero *)
  clock : Z;
  disk_ok : bool
}.

Fixpoint find_issue (id : string) (l : list BeadsIssue) : option BeadsIssue :=
  match l with
  | [] => None
  | i :: l' => if issue_id i =? id then Some i else find_issue id l'
  end.

Fixpoint change_issue (id : string) (f : BeadsIssue -> BeadsIssue)
         (l : list BeadsIssue) : list BeadsIssue :=
  match l with
  | [] => []
  | i :: l' =>
      if issue_id i =? id then f i :: l' else i :: change_issue id f l'
  end.

Definition with_issues (s : State) (l : list BeadsIssue) : State :=
  mkState l (next_id s) (fault s) (clock s) (disk_ok s).

Definition set_status (st : string) (i : BeadsIssue) : BeadsIssue :=
  mkIssue (issue_id i) (issue_title i) (issue_description i) st
          (issue_priority i) (issue_type i) (issue_notes i).

Definition set_notes (n : string) (i : BeadsIssue) : BeadsIssue :=
  mkIssue (issue_id i) (issue_title i) (issue_description i) (issue_status i)
          (issue_priority i) (issue_type i) (Some n).

Definition on_issue (id : string) (f : BeadsIssue -> BeadsIssue) (s : State)
  : BdReply * State :=
  match find_issue id (issues s) with
  | Some i => (Stdout (Some (JIssue (f i))), with_issues s (change_issue id f (issues s)))
  | None => (ExitError, s)
  end.

Definition run (c : BdCmd) (s : State) : BdReply * State :=
  if fault s c then (ExitError, s)
  else
    match c with
    | BdShow id => on_issue id (fun i => i) s
    | BdCreate title type (Number priority) parent description =>
        let i := mkIssue ("bd-" ++ string_of_nat (next_id s)) title
                         (Some description) "open" priority type None in
        (Stdout (Some (JIssue i)),
         mkState (issues s ++ [i])%list (S (next_id s)) (fault s) (clock s) (disk_ok s))
    | BdCreate _ _ _ _ _ => (ExitError, s)
    | BdUpdateStatus (Text id) (Text st) => on_issue id (set_status st) s
    | BdUpdateStatus _ _ => (ExitError, s)
    | BdUpdateNotes id notes => on_issue id (set_notes notes) s
    | BdClose (Text id) reason =>
        match find_issue id (issues s) with
        | Some i =>
            if issue_status i =? "closed" then (ExitError, s)
            else on_issue id (set_status "closed") s
        | None => (ExitError, s)
        end
    | BdClose _ _ => (ExitError, s)
    end.

Definition tick (s : State) : Z * State :=
  (clock s, mkState (issues s) (next_id s) (fault s) (clock s + 1)%Z (disk_ok s)).

Definition write (s : State) : bool * State := (disk_ok s, s).

Definition host : Host := mkHost State run tick (fun _ => "2025-01-01") write.

Definition no_fault : BdCmd -> bool := fun _ => false.

(** A fresh tracker at time 1000. *)
Definition fresh : State := mkState [] 1 no_fault 1000 true.

Definition world (s : State) (f : FileState) : World host := mkWorld (host := host) s f.

End Ref.


(* ------------------------------------------------------------------------- *)
(** ** Reading event lists and files *)
(* ------------------------------------------------------------------------- *)

(** The documents written, in order. *)
Definition writes (ev : list Event) : list TodoBeadsMapping :=
  flat_map (fun e => match e with EvWriteFile m => [m] | EvBd _ => [] end) ev.

(** The [bd] commands run, in order. *)
Definition commands (ev : list Event) : list BdCmd :=
  flat_map (fun e => match e with EvBd c => [c] | EvWriteFile _ => [] end) ev.

Definition is_create (c : BdCmd) : bool :=
  match c with
  | BdCreate _ _ _ _ _ => true
  | _ => false
  end.

(** The [bd create] commands run, in order. *)
Definition creates (ev : list Event) : list BdCmd :=
  filter is_create (commands ev).

(** The document [loadMapping] makes of a file. *)
Definition loaded (f : FileState) : TodoBeadsMapping :=
  match f with
  | FileHolds (MappingJson m) => m
  | FileHolds (NotJson _) | FileAbsent | FileUnreadable => emptyMapping
  end.

(** The correlation recorded for a task of a session. *)
Definition correlation (sessionID todoID : string) (m : TodoBeadsMapping)
  : option string :=
  JsObject.get todoID (JsObject.get sessionID (todos m) ?? JsObject.empty).

(** A shell command awaited with [.quiet()] succeeds on any zero exit. *)
Definition quiet_ok (r : BdReply) : bool :=
  match r with
  | Stdout _ => true
  | ExitError => false
  end.

(** The issue a [bd show] reply holds for [result && result.id]. *)
Definition shown (r : BdReply) : option BeadsIssue :=
  match r with
  | Stdout (Some (JIssue i)) => if truthy (issue_id i) then Some i else None
  | _ => None
  end.

(** The id a [bd create] reply holds, when the command has worked: a zero
    exit and an issue object on the output. *)
Definition created (r : BdReply) : option string :=
  match r with
  | Stdout (Some (JIssue i)) => Some (issue_id i)
  | _ => None
  end.

Definition ids (todoList : list TodoItem) : list string := map todo_id todoList.

(** The anchor [getOrCreateSessionIssue] returns without creating one: the
    recorded one, when [bd show] finds it. *)
Definition recordedAnchor (host : Host) (sessionID : string)
           (mapping : TodoBeadsMapping) (w : World host) : option string :=
  match truthy_value (JsObject.get sessionID (sessions mapping)) with
  | Some recorded =>
      match shown (fst (bd host (BdShow recorded) (env w))) with
      | Some _ => Some recorded
      | None => None
      end
  | None => None
  end.

(** The entries the deletion loop removes. *)
Definition removedEntries (entries : list (string * string)) (seen : StringSet)
  : list (string * string) :=
  filter (fun kv => negb (set_has (fst kv) seen)) entries.

(** The map once those entries are deleted. *)
Definition prune (removed : list (string * string)) (todoMap : TodoMap) : TodoMap :=
  fold_left (fun acc kv => JsObject.delete (fst kv) acc) removed todoMap.

(** The environment after a series of commands whose failures are
    swallowed. *)
Fixpoint run_tolerated (host : Host) (cs : list BdCmd) (e : Env host) : Env host :=
  match cs with
  | [] => e
  | c :: cs' => run_tolerated host cs' (snd (bd host c e))
  end.

(** The last step before the final save. *)
Definition closeIfAllComplete (host : Host) (sessionIssueID : string)
           (todoList : list TodoItem) : M host unit :=
  if allComplete todoList && negb (length todoList =? 0)%nat then
    closeSessionIssue host sessionIssueID todoList
  else ret host tt.

(** The command the loop runs for a todo that has a correlation. *)
Definition updateCmdFor (todoMap : TodoMap) (todo : TodoItem) : BdCmd :=
  updateBeadsCmd (read (todo_id todo) todoMap) todo.

(* ------------------------------------------------------------------------- *)
(** ** The backward sync as the specification words it *)
(* ------------------------------------------------------------------------- *)

(** The status of the reconstructed task: closed gives cancelled if the
    notes mention "Cancelled", else completed; in_progress gives
    in_progress; anything else gives pending. *)
Definition spec_status_back (issue : BeadsIssue) : string :=
  if issue_status issue =? "closed" then
    match issue_notes issue with
    | Some notes => if includes "Cancelled" notes then "cancelled" else "completed"
    | None => "completed"
    end
  else if issue_status issue =? "in_progress" then "in_progress"
  else "pending".

(** The priority translated back: 0,1 -> high; 2 -> medium; 3,4 -> low;
    unmapped falls back to medium. *)
Definition spec_priority_back (p : Z) : string :=
  if ((p =? 0) || (p =? 1))%Z then "high"
  else if (p =? 2)%Z then "medium"
  else if ((p =? 3) || (p =? 4))%Z then "low"
  else "medium".

Definition spec_task (taskId : string) (issue : BeadsIssue) : TodoItem :=
  {| todo_id := taskId;
     todo_content := issue_title issue;
     todo_status := spec_status_back issue;
     todo_priority := spec_priority_back (issue_priority issue) |}.

(** For each correlation, fetch the issue; skip it if not found, else
    reconstruct a task. *)
Fixpoint spec_readBack (host : Host) (correlations : list (string * string))
         (e : Env host) : list TodoItem :=
  match correlations with
  | [] => []
  | (taskId, issueId) :: rest =>
      let reply := bd host (BdShow issueId) e in
      match shown (fst reply) with
      | Some issue => spec_task taskId issue :: spec_readBack host rest (snd reply)
      | None => spec_readBack host rest (snd reply)
      end
  end.

(* ------------------------------------------------------------------------- *)
(** ** Concrete worlds *)
(* ------------------------------------------------------------------------- *)

Module Scenario.

Definition session : string := "ses_12345678xyz".

Definition t_a : TodoItem := mkTodo "a" "write tests" "pending" "high".
Definition t_b : TodoItem := mkTodo "b" "ship" "completed" "low".
Definition t_c : TodoItem := mkTodo "c" "deploy" "in_progress" "medium".
Definition t_x : TodoItem := mkTodo "x" "flaky" "pending" "medium".

(** The session has its anchor [bd-1] and task [a] is correlated to
    [bd-2]. *)
Definition anchor : BeadsIssue :=
  mkIssue "bd-1" "OpenCode Session ses_1234 (2025-01-01)"
          (Some "Tracks todos for OpenCode session ses_12345678xyz")
          "open" 2 "epic" None.

Definition issue_a : BeadsIssue :=
  mkIssue "bd-2" "write tests" (Some "OpenCode todo ID: a") "open" 1 "task" None.

Definition doc : TodoBeadsMapping :=
  mkMapping [(session, "bd-1")] [(session, [("a", "bd-2")])] 1002.

Definition fails_on_title (title : string) (c : BdCmd) : bool :=
  match c with
  | BdCreate t _ _ _ _ => t =? title
  | _ => false
  end.

Definition fails_on_notes (c : BdCmd) : bool :=
  match c with
  | BdUpdateNotes _ _ => true
  | _ => false
  end.

Definition fails_on_show (c : BdCmd) : bool :=
  match c with
  | BdShow _ => true
  | _ => false
  end.

Definition tracker (fault : BdCmd -> bool) : Ref.State :=
  Ref.mkState [anchor; issue_a] 3 fault 2000 true.

(** Nothing synced yet. *)
Definition w_fresh : World Ref.host := Ref.world Ref.fresh FileAbsent.

(** A healthy tracker. *)
Definition w_ok : World Ref.host :=
  Ref.world (tracker Ref.no_fault) (FileHolds (MappingJson doc)).

(** The tracker refuses to create the issue titled "flaky". *)
Definition w_flaky : World Ref.host :=
  Ref.world (tracker (fails_on_title "flaky")) (FileHolds (MappingJson doc)).

(** The tracker refuses to update notes. *)
Definition w_no_notes : World Ref.host :=
  Ref.world (tracker fails_on_notes) (FileHolds (MappingJson doc)).

(** The anchor [bd-1] has been deleted from the tracker. *)
Definition w_lost_anchor : World Ref.host :=
  Ref.world (Ref.mkState [issue_a] 3 Ref.no_fault 2000 true)
            (FileHolds (MappingJson doc)).

(** Nothing synced yet, and [bd show] never works. *)
Definition w_no_show : World Ref.host :=
  Ref.world (Ref.mkState [] 1 fails_on_show 1000 true) FileAbsent.

End Scenario.

(** A tracker that answers every command and hands out the id [E-1] to an
    epic and an empty id to a task. *)
Module Blank.

Definition run (c : BdCmd) (u : unit) : BdReply * unit :=
  match c with
  | BdShow id =>
      (Stdout (Some (JIssue (mkIssue id "" None "open" 2 "epic" None))), u)
  | BdCreate title type priority parent description =>
      (Stdout (Some (JIssue (mkIssue (if type =? "epic" then "E-1" else "")
                                     title (Some description) "open"
                                     (match priority with Number n => n | _ => 2%Z end)
                                     type None))), u)
  | _ => (Stdout None, u)
  end.

Definition host : Host :=
  mkHost unit run (fun u => (0%Z, u)) (fun _ => "2025-01-01") (fun u => (true, u)).

Definition w_fresh : World host := mkWorld (host := host) tt FileAbsent.

End Blank.

Definition is_notes (c : BdCmd) : bool :=
  match c with
  | BdUpdateNotes _ _ => true
  | _ => false
  end.

(** The [bd update --notes] commands run, in order. *)
Definition notes (ev : list Event) : list BdCmd := filter is_notes (commands ev).

(** What a title, a description and a priority look like from outside the
    reference tracker. *)
Definition refContents (st : Ref.State) : list (string * string * option string * Z) :=
  map (fun i => (issue_id i, issue_title i, issue_description i, issue_priority i))
      (Ref.issues st).

(* ------------------------------------------------------------------------- *)
(** ** More vocabulary for the properties *)
(* ------------------------------------------------------------------------- *)

(** [l1] is [l2] with some elements left out. *)
Inductive subseq {A : Type} : list A -> list A -> Prop :=
| subseq_nil : subseq [] []
| subseq_skip x l1 l2 : subseq l1 l2 -> subseq l1 (x :: l2)
| subseq_keep x l1 l2 : subseq l1 l2 -> subseq (x :: l1) (x :: l2).

(** The reference tracker on a disk that refuses every write. *)
Module ReadOnly.

Definition host : Host :=
  mkHost Ref.State Ref.run Ref.tick (fun _ => "2025-01-01") (fun s => (false, s)).

Definition w_ok : World host :=
  mkWorld (host := host) (Scenario.tracker Ref.no_fault)
          (FileHolds (MappingJson Scenario.doc)).

Definition w_fresh : World host := mkWorld (host := host) Ref.fresh FileAbsent.

End ReadOnly.

(** The tracker refuses to create epics. *)
Definition fails_on_epic (c : BdCmd) : bool :=
  match c with
  | BdCreate _ type _ _ _ => type =? "epic"
  | _ => false
  end.

Definition w_no_epic : World Ref.host :=
  Ref.world (Ref.mkState [Scenario.issue_a] 3 fails_on_epic 2000 true)
            (FileHolds (MappingJson Scenario.doc)).

(** The tracker refuses every close. *)
Definition fails_on_close (c : BdCmd) : bool :=
  match c with
  | BdClose _ _ => true
  | _ => false
  end.

Definition w_no_close : World Ref.host :=
  Ref.world (Scenario.tracker fails_on_close) (FileHolds (MappingJson Scenario.doc)).

(** Whether the loop finds nothing usable for a todo id in a todo map. *)
Definition uncorrelated (tm : TodoMap) (k : string) : bool :=
  negb (truthyOperand (read k tm)).

(** The todos of a list whose id the loop finds nothing usable for in the
    map [tm], each id at its first occurrence only ([met] holds the ids
    already taken). *)
Fixpoint newTodos (tm : TodoMap) (met : StringSet) (todoList : list TodoItem)
  : list TodoItem :=
  match todoList with
  | [] => []
  | t :: rest =>
      if (uncorrelated tm (todo_id t) && negb (set_has (todo_id t) met))%bool
      then t :: newTodos tm (todo_id t :: met) rest
      else newTodos tm met rest
  end.

(* ------------------------------------------------------------------------- *)
(** ** The vendor file loaders *)
(* ------------------------------------------------------------------------- *)

(** The loaders of command definitions and agent prompts.  A string is the
    sequence of its UTF-16 code units, each below 256 (Latin-1 text); the
    vendor directory is described by what [fs.readFile] and [fs.readdir]
    answer for a path relative to it. *)
Module Vendor.

Definition nl : ascii := Ascii.ascii_of_nat 10.
Definition cr : ascii := Ascii.ascii_of_nat 13.
Definition dquote : string := String (Ascii.ascii_of_nat 34) "".
Definition squote : string := "'".

(** The code units [String.prototype.trim] removes: tab, line feed, vertical
    tab, form feed, carriage return, space, no-break space. *)
Definition isWhiteSpace (c : ascii) : bool :=
  let n := N_of_ascii c in
  (((9 <=? n) && (n <=? 13)) || (n =? 32) || (n =? 160))%N.

Fixpoint trimStart (s : string) : string :=
  match s with
  | EmptyString => EmptyString
  | String c s' => if isWhiteSpace c then trimStart s' else s
  end.

Fixpoint trimEnd (s : string) : string :=
  match s with
  | EmptyString => EmptyString
  | String c s' =>
      match trimEnd s' with
      | EmptyString => if isWhiteSpace c then EmptyString else String c EmptyString
      | r => String c r
      end
  end.

(** [s.trim()] *)
Definition trim (s : string) : string := trimEnd (trimStart s).

(** [s.startsWith(p)] *)
Definition startsWith (p s : string) : bool := String.prefix p s.

(** [s.endsWith(p)] *)
Fixpoint endsWith (p s : string) : bool :=
  if s =? p then true
  else match s with
       | EmptyString => false
       | String _ s' => endsWith p s'
       end.

(** [s.indexOf(needle)], [None] for -1 *)
Fixpoint indexOf (needle s : string) : option nat :=
  if String.prefix needle s then Some 0
  else match s with
       | EmptyString => None
       | String _ s' => option_map S (indexOf needle s')
       end.

(** [s.slice(n)] for [0 <= n] *)
Fixpoint sliceFrom (n : nat) (s : string) : string :=
  match n, s with
  | O, _ => s
  | S n', String _ s' => sliceFrom n' s'
  | S _, EmptyString => EmptyString
  end.

(** [s.slice(0, n)] for [0 <= n] *)
Definition sliceTo (n : nat) (s : string) : string := String.substring 0 n s.

(** [s.slice(1, -1)] *)
Definition sliceInner (s : string) : string :=
  String.substring 1 (String.length s - 2) s.

(** [s.split("\n")] *)
Fixpoint splitLines (s : string) : list string :=
  match s with
  | EmptyString => [EmptyString]
  | String c s' =>
      if Ascii.eqb c nl then EmptyString :: splitLines s'
      else match splitLines s' with
           | line :: lines => String c line :: lines
           | [] => [String c EmptyString]
           end
  end.

(** [s.replace(pattern, "")] for a string pattern: the first occurrence
    goes. *)
Fixpoint removeFirst (pattern s : string) : string :=
  if String.prefix pattern s then sliceFrom (String.length pattern) s
  else match s with
       | EmptyString => EmptyString
       | String c s' => String c (removeFirst pattern s')
       end.

(** *** The regular expression [frontmatterRegex]: an opening line of three
    dashes, a first group as short as can be, a closing line of three dashes
    (each line ending in LF or CR LF), and a second group that takes the
    rest. *)

(** [\r?\n] at the head of [s]: what follows it. *)
Definition eol (s : string) : option string :=
  match s with
  | String c s' =>
      if Ascii.eqb c nl then Some s'
      else if Ascii.eqb c cr then
             match s' with
             | String c' s'' => if Ascii.eqb c' nl then Some s'' else None
             | EmptyString => None
             end
           else None
  | EmptyString => None
  end.

(** The two texts [\r?\n] accepts: LF and CR LF. *)
Definition isLineEnd (e : string) : bool :=
  ((e =? String nl "") || (e =? String cr (String nl "")))%bool.

Definition dashes (s : string) : option string :=
  if String.prefix "---" s then Some (sliceFrom 3 s) else None.

(** [\r?\n---\r?\n] at the head of [s]: what follows it. *)
Definition closeHere (s : string) : option string :=
  match eol s with
  | Some s1 =>
      match dashes s1 with
      | Some s2 => eol s2
      | None => None
      end
  | None => None
  end.

(** The lazy first group followed by the closing line: the shortest prefix
    after which the closing line stands, and what follows that line. *)
Fixpoint findClose (s : string) : option (string * string) :=
  match closeHere s with
  | Some rest => Some (EmptyString, rest)
  | None =>
      match s with
      | EmptyString => None
      | String c s' =>
          match findClose s' with
          | Some (group1, group2) => Some (String c group1, group2)
          | None => None
          end
      end
  end.

(** [content.match(frontmatterRegex)]: the two groups. *)
Definition matchFrontmatter (content : string) : option (string * string) :=
  match dashes content with
  | Some s1 =>
      match eol s1 with
      | Some s2 => findClose s2
      | None => None
      end
  | None => None
  end.

(** *** [parseMarkdownWithFrontmatter] *)

Record ParsedMarkdown : Type := mkParsed {
  frontmatter : JsObject.t string;
  body : string
}.

(** The value of a line, once quotes and [[]] are dealt with. *)
Definition frontmatterValue (value : string) : string :=
  let value :=
    if ((startsWith dquote value && endsWith dquote value)
        || (startsWith squote value && endsWith squote value))%bool
    then sliceInner value else value in
  if value =? "[]" then "" else value.

(** What one line of the front matter says: nothing for a blank line, a
    comment, or a line without a colon. *)
Definition frontmatterEntry (line : string) : option (string * string) :=
  let trimmed := trim line in
  if ((trimmed =? "") || startsWith "#" trimmed)%bool then None
  else
    match indexOf ":" trimmed with
    | None => None
    | Some colonIndex =>
        let key := trim (sliceTo colonIndex trimmed) in
        let value := trim (sliceFrom (colonIndex + 1) trimmed) in
        Some (key, frontmatterValue value)
    end.

(** [frontmatter[key] = value] on an object literal: assigning a string to
    [__proto__] creates no property. *)
Definition assign (key value : string) (o : JsObject.t string) : JsObject.t string :=
  if key =? "__proto__" then o else JsObject.set key value o.

(** The loop over the lines. *)
Fixpoint frontmatterLoop (lines : list string) (fm : JsObject.t string)
  : JsObject.t string :=
  match lines with
  | [] => fm
  | line :: rest =>
      match frontmatterEntry line with
      | None => frontmatterLoop rest fm
      | Some (key, value) => frontmatterLoop rest (assign key value fm)
      end
  end.

Definition parseMarkdownWithFrontmatter (content : string) : option ParsedMarkdown :=
  match matchFrontmatter content with
  | None => None
  | Some (frontmatterStr, body) =>
      Some {| frontmatter := frontmatterLoop (splitLines frontmatterStr) JsObject.empty;
              body := trim body |}
  end.

(** *** Reading the vendor directory *)

Record VendorDir : Type := mkVendorDir {
  readFile : string -> option string;       (* [None]: [fs.readFile] throws *)
  readdir : string -> option (list string)  (* [None]: [fs.readdir] throws *)
}.

Definition readVendorFile (dir : VendorDir) (relativePath : string) : option string :=
  readFile dir relativePath.

Definition listVendorFiles (dir : VendorDir) (relativePath : string) : list string :=
  readdir dir relativePath ?? [].

Record Command : Type := mkCommand {
  cmd_description : string;
  cmd_template : string
}.

(** [bd-${file.replace(".md", "")}] *)
Definition commandName (file : string) : string := "bd-" ++ removeFirst ".md" file.

(** The command a file gives, if any. *)
Definition commandOf (dir : VendorDir) (file : string) : option (string * Command) :=
  if negb (endsWith ".md" file) then None
  else
    match readVendorFile dir ("commands/" ++ file) with
    | None => None
    | Some content =>
        if content =? "" then None
        else
          match parseMarkdownWithFrontmatter content with
          | None => None
          | Some parsed =>
              let name := commandName file in
              let argHint := JsObject.get "argument-hint" (frontmatter parsed) in
              let baseDescription :=
                JsObject.get "description" (frontmatter parsed) ?? name in
              let description :=
                match truthy_value argHint with
                | Some hint => baseDescription ++ " (" ++ hint ++ ")"
                | None => baseDescription
                end in
              Some (name, {| cmd_description := description;
                             cmd_template := body parsed |})
          end
    end.

Fixpoint commandsLoop (dir : VendorDir) (files : list string)
         (commands : JsObject.t Command) : JsObject.t Command :=
  match files with
  | [] => commands
  | file :: rest =>
      match commandOf dir file with
      | None => commandsLoop dir rest commands
      | Some (name, command) =>
          commandsLoop dir rest (JsObject.set name command commands)
      end
  end.

Definition loadCommands (dir : VendorDir) : JsObject.t Command :=
  commandsLoop dir (listVendorFiles dir "commands") JsObject.empty.

Record Agent : Type := mkAgent {
  agent_description : string;
  agent_prompt : string;
  agent_mode : string
}.

(** [loadAgent]; the constant text that goes before the body of the agent
    file is a parameter: [CLI_GUIDANCE] and a line feed in one version of
    the file, [BEADS_CLI_USAGE], [BEADS_SUBAGENT_CONTEXT] and blank lines in
    the other. *)
Definition loadAgent (guidance : string) (dir : VendorDir) : JsObject.t Agent :=
  match readVendorFile dir "agents/task-agent.md" with
  | None => JsObject.empty
  | Some content =>
      if content =? "" then JsObject.empty
      else
        match parseMarkdownWithFrontmatter content with
        | None => JsObject.empty
        | Some parsed =>
            let description :=
              JsObject.get "description" (frontmatter parsed)
              ?? "Beads task completion agent" in
            [("beads-task-agent",
              {| agent_description := description;
                 agent_prompt := guidance ++ body parsed;
                 agent_mode := "subagent" |})]
        end
  end.

(** A vendor directory with an agent file, two command files and a text
    file. *)
Definition exampleDir : VendorDir :=
  {| readFile := fun path =>
       if path =? "agents/task-agent.md" then
         Some ("---" ++ String nl ("model: x"
               ++ String nl ("---" ++ String nl " Do the task. ")))
       else if path =? "commands/ready.md" then
         Some ("---" ++ String nl ("description: Show ready work"
               ++ String nl ("argument-hint: [limit]"
               ++ String nl ("---" ++ String nl ("Run bd ready." ++ String nl "")))))
       else if path =? "commands/notes.md" then Some "no front matter here"
       else None;
     readdir := fun path =>
       if path =? "commands" then Some ["ready.md"; "notes.md"; "README.txt"]
       else None |}.

(** The agent that directory gives after the guidance [Use bd.]. *)
Definition exampleAgent : Agent :=
  {| agent_description := "Beads task completion agent";
     agent_prompt := "Use bd. Do the task.";
     agent_mode := "subagent" |}.

End Vendor.

(* ------------------------------------------------------------------------- *)
(** ** Facts about objects, sets and strings *)
(* ------------------------------------------------------------------------- *)

Module JsObjectFacts.
Import JsObject.

Section Facts.
Context {V : Type}.
Implicit Types (o : t V) (k : string) (v : V).

Lemma get_replace_same k v o :
  get k (replace k v o) = match get k o with Some _ => Some v | None => None end.
Proof.
  induction o as [|[k' v'] o IH]; simpl; [reflexivity|].
  destruct (k =? k') eqn:E; simpl; rewrite E; auto.
Qed.

Lemma get_replace_other k k' v o :
  k' <> k -> get k' (replace k v o) = get k' o.
Proof.
  intros Hne. induction o as [|[k0 v0] o IH]; simpl; [reflexivity|].
  destruct (k =? k0) eqn:E; simpl.
  - apply String.eqb_eq in E. subst k0.
    apply String.eqb_neq in Hne. rewrite Hne. reflexivity.
  - rewrite IH. reflexivity.
Qed.

Lemma get_insert_index_same n k v o :
  get k o = None -> get k (insert_index n k v o) = Some v.
Proof.
  induction o as [|[k0 v0] o IH]; simpl; intros H.
  - rewrite String.eqb_refl. reflexivity.
  - destruct (k =? k0) eqn:E; [discriminate|].
    destruct (array_index k0) as [n'|]; simpl.
    + destruct (n' <? n)%N; simpl.
      * rewrite E. auto.
      * rewrite String.eqb_refl. reflexivity.
    + rewrite String.eqb_refl. reflexivity.
Qed.

Lemma get_insert_index_other n k k' v o :
  k' <> k -> get k' (insert_index n k v o) = get k' o.
Proof.
  intros Hne. apply String.eqb_neq in Hne.
  induction o as [|[k0 v0] o IH]; simpl.
  - rewrite Hne. reflexivity.
  - destruct (array_index k0) as [n'|]; simpl.
    + destruct (n' <? n)%N; simpl.
      * rewrite IH. reflexivity.
      * rewrite Hne. reflexivity.
    + rewrite Hne. reflexivity.
Qed.

Lemma get_app k o o' :
  get k (o ++ o')%list = match get k o with Some x => Some x | None => get k o' end.
Proof.
  induction o as [|[k0 v0] o IH]; simpl; [reflexivity|].
  destruct (k =? k0); auto.
Qed.

Lemma get_set_same k v o : get k (set k v o) = Some v.
Proof.
  unfold set. destruct (get k o) eqn:E.
  - rewrite get_replace_same, E. reflexivity.
  - destruct (array_index k).
    + apply get_insert_index_same; assumption.
    + rewrite get_app, E. simpl. rewrite String.eqb_refl. reflexivity.
Qed.

Lemma get_set_other k k' v o : k' <> k -> get k' (set k v o) = get k' o.
Proof.
  intros Hne. unfold set. destruct (get k o) eqn:E.
  - apply get_replace_other; assumption.
  - destruct (array_index k).
    + apply get_insert_index_other; assumption.
    + rewrite get_app. destruct (get k' o); [reflexivity|].
      simpl. apply String.eqb_neq in Hne. rewrite Hne. reflexivity.
Qed.

Lemma replace_get_id k v o : get k o = Some v -> replace k v o = o.
Proof.
  induction o as [|[k0 v0] o IH]; simpl; [reflexivity|].
  destruct (k =? k0) eqn:E; intros H.
  - injection H as ->. reflexivity.
  - rewrite IH; auto.
Qed.

(** Writing back the value an object already holds changes nothing. *)
Lemma set_get_id k v o : get k o = Some v -> set k v o = o.
Proof.
  intros H. unfold set. rewrite H. apply replace_get_id; assumption.
Qed.

Lemma get_delete_same k o : get k (delete k o) = None.
Proof.
  induction o as [|[k0 v0] o IH]; simpl; [reflexivity|].
  destruct (k =? k0) eqn:E; simpl; [assumption|].
  rewrite E. assumption.
Qed.

Lemma get_delete_other k k' o : k' <> k -> get k' (delete k o) = get k' o.
Proof.
  intros Hne. induction o as [|[k0 v0] o IH]; simpl; [reflexivity|].
  destruct (k =? k0) eqn:E; simpl.
  - apply String.eqb_eq in E. subst k0.
    apply String.eqb_neq in Hne. rewrite Hne. assumption.
  - rewrite IH. reflexivity.
Qed.

Lemma get_In k v o : get k o = Some v -> In (k, v) (entries o).
Proof.
  unfold entries. induction o as [|[k0 v0] o IH]; simpl; [discriminate|].
  destruct (k =? k0) eqn:E; intros H.
  - apply String.eqb_eq in E. injection H as ->. subst. left. reflexivity.
  - right. auto.
Qed.

Lemma In_get k v o : In (k, v) (entries o) -> get k o <> None.
Proof.
  unfold entries. induction o as [|[k0 v0] o IH]; simpl; [tauto|].
  intros [H|H].
  - injection H as -> ->. rewrite String.eqb_refl. discriminate.
  - destruct (k =? k0); [discriminate|auto].
Qed.

Lemma keys_get k o : In k (keys o) <-> get k o <> None.
Proof.
  unfold keys. induction o as [|[k0 v0] o IH]; simpl; [tauto|].
  destruct (k =? k0) eqn:E.
  - apply String.eqb_eq in E. subst. split; [discriminate|auto].
  - apply String.eqb_neq in E. rewrite <- IH. split.
    + intros [H|H]; [congruence|assumption].
    + auto.
Qed.

End Facts.
End JsObjectFacts.

Lemma set_has_In x s : set_has x s = true <-> In x s.
Proof.
  unfold set_has. rewrite existsb_exists. split.
  - intros [y [Hy E]]. apply String.eqb_eq in E. subst. assumption.
  - intros H. exists x. split; [assumption|apply String.eqb_refl].
Qed.

Lemma set_has_add x y s :
  set_has x (set_add y s) = (set_has x s || (x =? y))%bool.
Proof.
  unfold set_add. destruct (set_has y s) eqn:E.
  - destruct (x =? y) eqn:Exy.
    + apply String.eqb_eq in Exy. subst. rewrite E. reflexivity.
    + rewrite orb_false_r. reflexivity.
  - unfold set_has. rewrite existsb_app. simpl. rewrite orb_false_r. reflexivity.
Qed.

Lemma truthy_value_Some o s : truthy_value o = Some s -> o = Some s /\ s <> "".
Proof.
  destruct o as [s'|]; simpl; [|discriminate].
  unfold truthy. destruct (s' =? "") eqn:E; simpl; [discriminate|].
  intros H. injection H as ->. apply String.eqb_neq in E. auto.
Qed.

Lemma truthy_value_intro s : s <> "" -> truthy_value (Some s) = Some s.
Proof.
  intros H. simpl. unfold truthy. apply String.eqb_neq in H. rewrite H. reflexivity.
Qed.

(** What the loop finds for a todo id. *)
Lemma read_usable k (tm : JsObject.t string) v :
  truthy_value (JsObject.get k tm) = Some v ->
  read k tm = Text v /\ truthyOperand (read k tm) = true.
Proof.
  intros H. apply truthy_value_Some in H. destruct H as [H Hne].
  unfold read. rewrite H. split; [reflexivity|].
  cbn [truthyOperand]. unfold truthy. apply String.eqb_neq in Hne.
  rewrite Hne. reflexivity.
Qed.

Lemma read_truthy k (tm : JsObject.t string) :
  truthyOperand (read k tm) = true ->
  (exists v, JsObject.get k tm = Some v /\ v <> "" /\ read k tm = Text v)
  \/ (JsObject.get k tm = None /\ inherited k = true /\ read k tm = Member k).
Proof.
  unfold read, member. destruct (JsObject.get k tm) as [v|].
  - cbn [truthyOperand]. unfold truthy. intros H. left. exists v.
    apply negb_true_iff, String.eqb_neq in H. auto.
  - destruct (inherited k); [auto|discriminate].
Qed.

Lemma read_falsy k (tm : JsObject.t string) :
  truthyOperand (read k tm) = false ->
  truthy_value (JsObject.get k tm) = None
  /\ (JsObject.get k tm = None -> inherited k = false).
Proof.
  unfold read, member, truthy_value. destruct (JsObject.get k tm) as [v|].
  - cbn [truthyOperand]. intros ->. split; [reflexivity|discriminate].
  - destruct (inherited k); [discriminate|auto].
Qed.

Lemma read_set_same k v (tm : JsObject.t string) :
  read k (JsObject.set k v tm) = Text v.
Proof. unfold read. rewrite JsObjectFacts.get_set_same. reflexivity. Qed.

Lemma read_set_other k k' v (tm : JsObject.t string) :
  k' <> k -> read k' (JsObject.set k v tm) = read k' tm.
Proof.
  intros H. unfold read. rewrite JsObjectFacts.get_set_other by assumption.
  reflexivity.
Qed.

(** The decimal string of a number names no member of [Object.prototype]. *)
Lemma string_of_Z_not_inherited n : inherited (string_of_Z n) = false.
Proof.
  unfold string_of_Z.
  destruct (Z.to_int n) as [[|u|u|u|u|u|u|u|u|u|u]|[|u|u|u|u|u|u|u|u|u|u]];
    reflexivity.
Qed.

(** [includes] finds exactly the strings that contain the needle. *)
Lemma prefix_split needle s :
  String.prefix needle s = true -> exists post, s = needle ++ post.
Proof.
  revert s. induction needle as [|c needle IH]; intros s H.
  - exists s. reflexivity.
  - destruct s as [|c' s]; simpl in H; [discriminate|].
    destruct (Ascii.ascii_dec c c') as [->|]; [|discriminate].
    destruct (IH _ H) as [post ->]. exists post. reflexivity.
Qed.

Lemma prefix_append needle post : String.prefix needle (needle ++ post) = true.
Proof.
  induction needle as [|c needle IH]; simpl.
  - destruct post; reflexivity.
  - destruct (Ascii.ascii_dec c c); [assumption|congruence].
Qed.

Lemma includes_spec needle s :
  includes needle s = true <-> exists pre post, s = pre ++ needle ++ post.
Proof.
  split.
  - induction s as [|c s IH]; cbn [includes].
    + destruct (String.prefix needle "") eqn:E; [|intros H; discriminate H].
      intros _. apply prefix_split in E. destruct E as [post E].
      exists "", post. exact E.
    + destruct (String.prefix needle (String c s)) eqn:E.
      * intros _. apply prefix_split in E. destruct E as [post E].
        exists "", post. exact E.
      * intros H. destruct (IH H) as [pre [post ->]].
        exists (String c pre), post. reflexivity.
  - intros [pre [post ->]]. induction pre as [|c pre IH].
    + change ("" ++ needle ++ post) with (needle ++ post).
      destruct (needle ++ post) eqn:E; cbn [includes];
        rewrite <- E, prefix_append; reflexivity.
    + change (String c pre ++ needle ++ post) with (String c (pre ++ needle ++ post)).
      cbn [includes]. rewrite IH.
      destruct (String.prefix needle (String c (pre ++ needle ++ post))); reflexivity.
Qed.

(* ------------------------------------------------------------------------- *)
(** ** Facts about the primitives *)
(* ------------------------------------------------------------------------- *)

Lemma writes_app ev1 ev2 : writes (ev1 ++ ev2) = (writes ev1 ++ writes ev2)%list.
Proof. unfold writes. apply flat_map_app. Qed.

Lemma commands_app ev1 ev2 :
  commands (ev1 ++ ev2) = (commands ev1 ++ commands ev2)%list.
Proof. unfold commands. apply flat_map_app. Qed.

Lemma creates_app ev1 ev2 : creates (ev1 ++ ev2) = (creates ev1 ++ creates ev2)%list.
Proof. unfold creates. rewrite commands_app. apply filter_app. Qed.

Section PrimitiveFacts.

Variable host : Host.
Implicit Types (w : World host) (c : BdCmd).

Lemma loadMapping_eq w : loadMapping host w = (Return (loaded (file w)), w, []).
Proof.
  unfold loadMapping, try_catch, bind, fs_readFile.
  destruct (file w) as [| |[txt|m]]; reflexivity.
Qed.

(** A shell command whose failure is swallowed. *)
Lemma tolerated_eq c w :
  try_catch host (sh_quiet host c) (fun _ => ret host tt) w
  = (Return tt, mkWorld (snd (bd host c (env w))) (file w), [EvBd c]).
Proof.
  unfold try_catch, sh_quiet, ret.
  destruct (bd host c (env w)) as [[|out] e]; reflexivity.
Qed.

Lemma updateBeadsIssue_eq beadsID todo w :
  updateBeadsIssue host beadsID todo w
  = (Return tt,
     mkWorld (snd (bd host (updateBeadsCmd beadsID todo) (env w))) (file w),
     [EvBd (updateBeadsCmd beadsID todo)]).
Proof. unfold updateBeadsIssue. apply tolerated_eq. Qed.

Lemma closeSessionIssue_eq sessionIssueID todoList w :
  let summary := sessionSummary todoList in
  let r1 := bd host (BdUpdateNotes sessionIssueID summary) (env w) in
  closeSessionIssue host sessionIssueID todoList w
  = if quiet_ok (fst r1) then
      (Return tt,
       mkWorld (snd (bd host (BdClose sessionIssueID summary) (snd r1))) (file w),
       [EvBd (BdUpdateNotes sessionIssueID summary);
        EvBd (BdClose sessionIssueID summary)])
    else
      (Return tt, mkWorld (snd r1) (file w),
       [EvBd (BdUpdateNotes sessionIssueID summary)]).
Proof.
  cbv zeta. unfold closeSessionIssue, try_catch, bind, sh_quiet, ret.
  destruct (bd host (BdUpdateNotes _ _) (env w)) as [[|out] e]; simpl.
  - reflexivity.
  - destruct (bd host (BdClose _ _) e) as [[|out'] e']; reflexivity.
Qed.

Lemma saveMapping_cases mapping w :
  let t := fst (date_now host (env w)) in
  let e := snd (date_now host (env w)) in
  let stamped := mkMapping (sessions mapping) (todos mapping) t in
  saveMapping host mapping w
  = if fst (fs_write host e) then
      (Return stamped,
       mkWorld (snd (fs_write host e)) (FileHolds (MappingJson stamped)),
       [EvWriteFile stamped])
    else (Throw FsError, mkWorld (snd (fs_write host e)) (file w), []).
Proof.
  cbv zeta. unfold saveMapping, bind, Date_now, fs_writeFile, ret.
  destruct (date_now host (env w)) as [t e]; simpl.
  destruct (fs_write host e) as [[|] e']; reflexivity.
Qed.

(** Whatever [createBeadsIssue] does, it starts with the [bd create] of the
    task, leaves the mapping file alone, and fails only with its own
    error. *)
Lemma createBeadsIssue_spec sessionIssueID todo w :
  match createBeadsIssue host sessionIssueID todo w with
  | (r, w', ev) =>
      file w' = file w /\ writes ev = [] /\
      creates ev = [createBeadsCmd sessionIssueID todo] /\
      match r with
      | Return _ =>
          quiet_ok (fst (bd host (createBeadsCmd sessionIssueID todo) (env w))) = true
      | Throw e => exists cause, e = FailedToCreateBeadsIssue (todo_id todo) cause
      end
  end.
Proof.
  unfold createBeadsIssue, try_catch, bind, sh_json, json_id, throw, ret.
  destruct (bd host (createBeadsCmd _ _) (env w)) as [[|[[|i]|]] e]; simpl;
    try (repeat split; eauto; fail).
  destruct (todo_status todo =? "in_progress").
  - unfold sh_quiet; simpl.
    destruct (bd host (BdUpdateStatus _ _) e) as [[|out] e']; simpl;
      repeat split; eauto.
  - destruct (isTerminal todo); simpl.
    + unfold sh_quiet; simpl.
      destruct (bd host (BdClose _ _) e) as [[|out] e']; simpl;
        repeat split; eauto.
    + repeat split; eauto.
Qed.

(** A failing [bd create] makes [createBeadsIssue] throw at once. *)
Lemma createBeadsIssue_fails sessionIssueID todo w :
  let c := createBeadsCmd sessionIssueID todo in
  created (fst (bd host c (env w))) = None ->
  exists cause,
    createBeadsIssue host sessionIssueID todo w
    = (Throw (FailedToCreateBeadsIssue (todo_id todo) cause),
       mkWorld (snd (bd host c (env w))) (file w), [EvBd c]).
Proof.
  cbv zeta. unfold createBeadsIssue, try_catch, bind, sh_json, json_id, throw.
  destruct (bd host (createBeadsCmd _ _) (env w)) as [[|[[|i]|]] e]; simpl;
    try discriminate; intros _; eexists; reflexivity.
Qed.

End PrimitiveFacts.

(* ------------------------------------------------------------------------- *)
(** ** Facts about the phases of a sync *)
(* ------------------------------------------------------------------------- *)

Section PhaseFacts.

Variable host : Host.
Implicit Types (w : World host) (c : BdCmd) (tm : TodoMap).

Lemma showSessionIssue_eq sessionID mapping w :
  match showSessionIssue host sessionID mapping w with
  | (r, w', ev) =>
      r = Return (recordedAnchor host sessionID mapping w) /\
      file w' = file w /\ writes ev = [] /\ creates ev = [] /\
      match recordedAnchor host sessionID mapping w with
      | Some a =>
          w' = mkWorld (snd (bd host (BdShow a) (env w))) (file w) /\
          ev = [EvBd (BdShow a)]
      | None => True
      end
  end.
Proof.
  unfold showSessionIssue, recordedAnchor.
  destruct (truthy_value _) as [recorded|]; [|simpl; auto].
  unfold try_catch, bind, sh_json, shown, has_id, ret.
  destruct (bd host (BdShow recorded) (env w)) as [[|[[|i]|]] e] eqn:E;
    simpl; auto.
  destruct (truthy (issue_id i)); simpl; rewrite ?E; simpl; auto 6.
Qed.

Lemma createSessionIssue_spec sessionID mapping w :
  match createSessionIssue host sessionID mapping w with
  | (Return (a, m'), w', ev) =>
      sessions m' = JsObject.set sessionID a (sessions mapping) /\
      todos m' = JsObject.set sessionID JsObject.empty (todos mapping) /\
      file w' = FileHolds (MappingJson m') /\
      exists now, ev = [EvBd (sessionIssueCmd host sessionID now); EvWriteFile m']
  | (Throw e, w', ev) =>
      (exists cause, e = FailedToCreateSessionIssue cause) /\
      file w' = file w /\ writes ev = []
  end.
Proof.
  unfold createSessionIssue, bind, Date_now.
  destruct (date_now host (env w)) as [now e0]; simpl.
  unfold try_catch, bind, sh_json, json_id, throw, ret.
  destruct (bd host (sessionIssueCmd host sessionID now) _) as [[|[[|i]|]] e];
    simpl; try (repeat split; eauto; fail).
  rewrite saveMapping_cases; simpl.
  destruct (fst (fs_write host _)); simpl; repeat split; eauto.
Qed.

Lemma resolve_found sessionID mapping w a :
  recordedAnchor host sessionID mapping w = Some a ->
  getOrCreateSessionIssue host sessionID mapping w
  = (Return (a, mapping),
     mkWorld (snd (bd host (BdShow a) (env w))) (file w),
     [EvBd (BdShow a)]).
Proof.
  intros H. unfold getOrCreateSessionIssue, bind.
  pose proof (showSessionIssue_eq sessionID mapping w) as S.
  destruct (showSessionIssue host sessionID mapping w) as [[r w'] ev].
  rewrite H in S. destruct S as (-> & _ & _ & _ & -> & ->).
  reflexivity.
Qed.

(** When the recorded anchor is not found, an anchor is created and the
    document is saved at once, or the call fails. *)
Lemma resolve_missing sessionID mapping w :
  recordedAnchor host sessionID mapping w = None ->
  match getOrCreateSessionIssue host sessionID mapping w with
  | (Return (a, m'), w', ev) =>
      sessions m' = JsObject.set sessionID a (sessions mapping) /\
      todos m' = JsObject.set sessionID JsObject.empty (todos mapping) /\
      file w' = FileHolds (MappingJson m') /\
      exists shows now,
        ev = (shows ++ [EvBd (sessionIssueCmd host sessionID now); EvWriteFile m'])%list
        /\ writes shows = [] /\ creates shows = []
  | (Throw e, w', ev) =>
      (exists cause, e = FailedToCreateSessionIssue cause) /\
      file w' = file w /\ writes ev = []
  end.
Proof.
  intros H. unfold getOrCreateSessionIssue, bind.
  pose proof (showSessionIssue_eq sessionID mapping w) as S.
  destruct (showSessionIssue host sessionID mapping w) as [[r w1] ev1].
  rewrite H in S. destruct S as (-> & Hf & Hw & Hc & _).
  pose proof (createSessionIssue_spec sessionID mapping w1) as C.
  destruct (createSessionIssue host sessionID mapping w1) as [[[[a m']|ex] w'] ev].
  - destruct C as (H1 & H2 & H3 & now & ->).
    repeat split; auto. exists ev1, now. auto.
  - destruct C as (H1 & H2 & H3). rewrite writes_app, Hw, H3, H2, Hf. auto.
Qed.

End PhaseFacts.

Section LoopFacts.

Variable host : Host.
Implicit Types (w : World host) (c : BdCmd) (tm : TodoMap).

Import JsObject JsObjectFacts.

Lemma set_has_cons x y s : set_has x (y :: s) = ((x =? y) || set_has x s)%bool.
Proof. reflexivity. Qed.

(** The loop over the todos: it never touches the file; when it returns,
    the todos it met are in the set of seen ids and, unless their id names
    a member of [Object.prototype], have an entry, the entries with a
    usable issue id are as before, and so are the entries of the other ids;
    it throws only the error of a failed creation. *)
Lemma syncLoop_spec a tl : forall seen tm w,
  match syncLoop host a tl seen tm w with
  | (r, w', ev) =>
      file w' = file w /\ writes ev = [] /\
      match r with
      | Return (seen', tm') =>
          (forall x, set_has x seen' = (set_has x seen || set_has x (ids tl))%bool) /\
          (forall k v, truthy_value (get k tm) = Some v -> get k tm' = Some v) /\
          (forall k, ~ In k (ids tl) -> get k tm' = get k tm) /\
          (forall k, get k tm <> None -> get k tm' <> None) /\
          (forall k, In k (ids tl) -> inherited k = false -> get k tm' <> None)
      | Throw e =>
          exists id cause, e = FailedToCreateBeadsIssue id cause /\ In id (ids tl)
      end
  end.
Proof.
  induction tl as [|t rest IH]; intros seen tm w.
  - simpl. split; [reflexivity|]. split; [reflexivity|].
    split; [intros x; rewrite orb_false_r; reflexivity|].
    split; [intros k v H; apply truthy_value_Some in H; tauto|].
    split; [reflexivity|]. split; [auto|intros k []].
  - cbn [syncLoop].
    destruct (truthyOperand (read (todo_id t) tm)) eqn:Hb.
    + unfold bind. rewrite updateBeadsIssue_eq.
      match goal with |- context [syncLoop host a rest ?s ?m ?x] =>
        specialize (IH s m x); destruct (syncLoop host a rest s m x) as [[r w'] ev]
      end.
      destruct IH as (Hf & Hw & Hr). split; [exact Hf|]. split; [exact Hw|].
      destruct r as [[seen' tm']|e].
      * destruct Hr as (H1 & H2 & H3 & H4 & H5).
        split; [|split; [exact H2|split; [|split; [exact H4|]]]].
        -- intros x. rewrite H1, set_has_add. cbn [ids map].
           rewrite set_has_cons, orb_assoc. reflexivity.
        -- intros k Hk. apply H3. cbn [ids map] in Hk. simpl in Hk. tauto.
        -- intros k [<-|Hk] Hinh; [|apply H5; assumption].
           apply H4.
           destruct (read_truthy _ _ Hb) as [(v & -> & _)|(_ & Hi & _)];
             [discriminate|congruence].
      * destruct Hr as (id & cause & -> & Hin).
        exists id, cause. split; [reflexivity|right; assumption].
    + unfold bind. pose proof (createBeadsIssue_spec host a t w) as C.
      destruct (createBeadsIssue host a t w) as [[[newid|e] w1] ev1].
      * destruct C as (Cf & Cw & _).
        match goal with |- context [syncLoop host a rest ?s ?m ?x] =>
          specialize (IH s m x); destruct (syncLoop host a rest s m x) as [[r w'] ev]
        end.
        destruct IH as (Hf & Hw & Hr).
        split; [rewrite Hf; exact Cf|].
        split; [rewrite writes_app, Cw, Hw; reflexivity|].
        destruct r as [[seen' tm']|e].
        -- destruct Hr as (H1 & H2 & H3 & H4 & H5).
           assert (Hother : forall k, k <> todo_id t ->
                     get k (set (todo_id t) newid tm) = get k tm)
             by (intros; apply get_set_other; assumption).
           split; [|split; [|split; [|split]]].
           ++ intros x. rewrite H1, set_has_add. cbn [ids map].
              rewrite set_has_cons, orb_assoc. reflexivity.
           ++ intros k v Hk. apply H2. rewrite Hother; [assumption|].
              intros ->. apply read_falsy in Hb. destruct Hb as [Hb _].
              rewrite Hb in Hk. discriminate.
           ++ intros k Hk. cbn [ids map] in Hk. simpl in Hk.
              rewrite H3 by tauto. apply Hother. intros ->. tauto.
           ++ intros k Hk. apply H4.
              destruct (String.eqb_spec k (todo_id t)) as [->|Hne].
              ** rewrite get_set_same. discriminate.
              ** rewrite Hother; assumption.
           ++ intros k [<-|Hk] Hinh; [|apply H5; assumption].
              apply H4. rewrite get_set_same. discriminate.
        -- destruct Hr as (id & cause & -> & Hin).
           exists id, cause. split; [reflexivity|right; assumption].
      * destruct C as (Cf & Cw & _ & cause & ->).
        split; [exact Cf|]. split; [exact Cw|].
        exists (todo_id t), cause. split; [reflexivity|left; reflexivity].
Qed.

(** When every todo has a correlation, the loop is a series of tolerated
    updates and changes nothing in the map. *)
Lemma syncLoop_correlated a tl : forall seen tm w,
  (forall t, In t tl -> truthyOperand (read (todo_id t) tm) = true) ->
  exists seen',
    syncLoop host a tl seen tm w
    = (Return (seen', tm),
       mkWorld (run_tolerated host (map (updateCmdFor tm) tl) (env w)) (file w),
       map EvBd (map (updateCmdFor tm) tl)).
Proof.
  induction tl as [|t rest IH]; intros seen tm w Hall.
  - exists seen. destruct w. reflexivity.
  - cbn [syncLoop]. rewrite (Hall t) by (left; reflexivity).
    unfold bind. rewrite updateBeadsIssue_eq. fold (updateCmdFor tm t).
    destruct (IH (set_add (todo_id t) seen) tm
                 (mkWorld (snd (bd host (updateCmdFor tm t) (env w))) (file w)))
      as [seen' ->].
    { intros t' Ht'. apply Hall. right. assumption. }
    exists seen'. reflexivity.
Qed.

Lemma removeLoop_eq es seen : forall tm w,
  let removed := removedEntries es seen in
  let cs := map (fun kv => removedCmd (snd kv)) removed in
  removeLoop host es seen tm w
  = (Return (prune removed tm),
     mkWorld (run_tolerated host cs (env w)) (file w), map EvBd cs).
Proof.
  cbv zeta. induction es as [|[k b] es IH]; intros tm w.
  - destruct w. reflexivity.
  - cbn [removeLoop removedEntries filter fst].
    destruct (set_has k seen); cbn [negb].
    + apply IH.
    + unfold bind. rewrite tolerated_eq.
      fold (removedEntries es seen). rewrite IH. reflexivity.
Qed.

Lemma get_prune k removed : forall tm,
  get k (prune removed tm)
  = if set_has k (map fst removed) then None else get k tm.
Proof.
  induction removed as [|[k0 b] removed IH]; intros tm; [reflexivity|].
  cbn [prune fold_left map fst]. fold (prune removed (delete k0 tm)).
  rewrite IH, set_has_cons.
  destruct (String.eqb_spec k k0) as [->|Hne]; cbn [orb].
  - rewrite get_delete_same. destruct (set_has k0 _); reflexivity.
  - rewrite get_delete_other by assumption. reflexivity.
Qed.

Lemma removedEntries_In k b es seen :
  In (k, b) (removedEntries es seen) <-> In (k, b) es /\ set_has k seen = false.
Proof.
  unfold removedEntries. rewrite filter_In. cbn [fst].
  rewrite negb_true_iff. reflexivity.
Qed.

Lemma set_has_removed k es seen :
  set_has k (map fst (removedEntries es seen))
  = (set_has k (map fst es) && negb (set_has k seen))%bool.
Proof.
  induction es as [|[k0 b] es IH]; [reflexivity|].
  cbn [removedEntries filter fst map].
  fold (removedEntries es seen).
  destruct (set_has k0 seen) eqn:Hs; cbn [negb map fst];
    rewrite ?set_has_cons, IH;
    (destruct (String.eqb_spec k k0) as [->|Hne]; cbn [orb]; [rewrite Hs|]);
    repeat match goal with
           | |- context [set_has ?x ?y] => destruct (set_has x y)
           end; reflexivity.
Qed.

(** Nothing is removed when every key has been seen. *)
Lemma removedEntries_none es seen :
  (forall k, In k (map fst es) -> set_has k seen = true) ->
  removedEntries es seen = [].
Proof.
  intros H. induction es as [|[k b] es IH]; [reflexivity|].
  cbn [removedEntries filter fst]. rewrite (H k) by (left; reflexivity).
  cbn [negb]. apply IH. intros k' Hk'. apply H. right. assumption.
Qed.

Lemma closeIfAllComplete_spec a tl w :
  match closeIfAllComplete host a tl w with
  | (r, w', ev) =>
      r = Return tt /\ file w' = file w /\ writes ev = [] /\ creates ev = []
  end.
Proof.
  unfold closeIfAllComplete.
  destruct (allComplete tl && negb (length tl =? 0)%nat)%bool.
  - rewrite closeSessionIssue_eq.
    destruct (quiet_ok _); simpl; auto.
  - simpl. auto.
Qed.

(** A sync, phase by phase. *)
Lemma sync_unfold s tl w :
  syncTodosToBeads host s tl w =
  match getOrCreateSessionIssue host s (loaded (file w)) w with
  | (Throw e, w1, ev1) => (Throw e, w1, ev1)
  | (Return (a, m0), w1, ev1) =>
      let m := ensureTodoMap s m0 in
      match syncLoop host a tl [] (todoMapOf s m) w1 with
      | (Throw e, w2, ev2) => (Throw e, w2, (ev1 ++ ev2)%list)
      | (Return (seen, tm), w2, ev2) =>
          let removed := removedEntries (entries tm) seen in
          let cs := map (fun kv => removedCmd (snd kv)) removed in
          let w3 := mkWorld (run_tolerated host cs (env w2)) (file w2) in
          match closeIfAllComplete host a tl w3 with
          | (Throw e, w4, ev4) =>
              (Throw e, w4, (ev1 ++ ev2 ++ map EvBd cs ++ ev4)%list)
          | (Return _, w4, ev4) =>
              match saveMapping host (withTodoMap s (prune removed tm) m) w4 with
              | (Return _, w5, ev5) =>
                  (Return tt, w5, (ev1 ++ ev2 ++ map EvBd cs ++ ev4 ++ ev5)%list)
              | (Throw e, w5, ev5) =>
                  (Throw e, w5, (ev1 ++ ev2 ++ map EvBd cs ++ ev4 ++ ev5)%list)
              end
          end
      end
  end.
Proof.
  unfold syncTodosToBeads. unfold bind at 1. rewrite loadMapping_eq.
  unfold bind at 1.
  destruct (getOrCreateSessionIssue host s (loaded (file w)) w)
    as [[[[a m0]|e] w1] ev1]; [|reflexivity].
  cbn [fst snd app]. unfold bind at 1.
  destruct (syncLoop host a tl [] _ w1) as [[[[seen tm]|e] w2] ev2];
    [|reflexivity].
  cbn [fst snd]. unfold bind at 1. rewrite removeLoop_eq. cbv zeta.
  unfold bind at 1. fold (closeIfAllComplete host a tl).
  destruct (closeIfAllComplete host a tl _) as [[[u|e] w4] ev4]; [|reflexivity].
  unfold bind at 1.
  destruct (saveMapping host _ w4) as [[[m5|e] w5] ev5]; [|reflexivity].
  unfold ret. rewrite app_nil_r. reflexivity.
Qed.

End LoopFacts.

(* ------------------------------------------------------------------------- *)
(** ** The translators *)
(* ------------------------------------------------------------------------- *)

Lemma string_of_Z_inj n m : string_of_Z n = string_of_Z m -> n = m.
Proof.
  unfold string_of_Z. intros H.
  apply (f_equal NilEmpty.int_of_string) in H.
  rewrite !NilEmpty.isi in H. injection H as H.
  apply (f_equal Z.of_int) in H. rewrite !DecimalZ.of_to in H. exact H.
Qed.

Lemma priorityFromBeads_table p : priorityFromBeads p = spec_priority_back p.
Proof.
  unfold spec_priority_back.
  destruct (Z.eqb_spec p 0) as [->|H0]; [reflexivity|].
  destruct (Z.eqb_spec p 1) as [->|H1]; [reflexivity|].
  destruct (Z.eqb_spec p 2) as [->|H2]; [reflexivity|].
  destruct (Z.eqb_spec p 3) as [->|H3]; [reflexivity|].
  destruct (Z.eqb_spec p 4) as [->|H4]; [reflexivity|].
  cbn [orb]. unfold priorityFromBeads, PRIORITY_FROM_BEADS. cbn [JsObject.get].
  repeat match goal with
         | |- context [string_of_Z p =? ?s] =>
             destruct (String.eqb_spec (string_of_Z p) s) as [E|_];
             [exfalso|]
         end;
    try reflexivity.
  - apply H0. apply string_of_Z_inj. exact E.
  - apply H1. apply string_of_Z_inj. exact E.
  - apply H2. apply string_of_Z_inj. exact E.
  - apply H3. apply string_of_Z_inj. exact E.
  - apply H4. apply string_of_Z_inj. exact E.
Qed.

Lemma inherited_not_in_table p :
  inherited p = true -> JsObject.get p PRIORITY_TO_BEADS = None.
Proof.
  intros H. unfold PRIORITY_TO_BEADS. cbn [JsObject.get].
  destruct (String.eqb_spec p "high") as [->|_]; [discriminate H|].
  destruct (String.eqb_spec p "medium") as [->|_]; [discriminate H|].
  destruct (String.eqb_spec p "low") as [->|_]; [discriminate H|].
  reflexivity.
Qed.

Lemma priorityToBeads_other p :
  p <> "high" -> p <> "medium" -> p <> "low" -> inherited p = false ->
  priorityToBeads p = Number 2.
Proof.
  intros H1 H2 H3 Hi.
  unfold priorityToBeads, readNumber, PRIORITY_TO_BEADS, member.
  cbn [JsObject.get].
  apply String.eqb_neq in H1, H2, H3. rewrite H1, H2, H3, Hi. reflexivity.
Qed.

Lemma priorityToBeads_inherited p :
  inherited p = true -> priorityToBeads p = Member p.
Proof.
  intros Hi. unfold priorityToBeads, readNumber, member.
  rewrite (inherited_not_in_table _ Hi), Hi. reflexivity.
Qed.

(** C5 (what the code does, and where it departs from the claim).  The
    translators are total functions.  Task priority high, medium, low goes
    to 1, 2, 3, and any other string that does not name a member of
    [Object.prototype] goes to 2; a string that names one ([constructor],
    [toString], [__proto__], ...) does not fall back to 2: the inherited
    member itself is what the [bd create] command gets as its priority.
    Tracker priority 0 and 1 goes to high, 2 to medium, 3 and 4 to low and
    any other number to medium; task status pending, in_progress, completed,
    cancelled goes to open, in_progress, closed, closed. *)
Theorem translators_match_tables :
  (priorityToBeads "high" = Number 1 /\ priorityToBeads "medium" = Number 2 /\
   priorityToBeads "low" = Number 3 /\
   (forall p, p <> "high" -> p <> "medium" -> p <> "low" -> inherited p = false ->
              priorityToBeads p = Number 2) /\
   (forall p, inherited p = true -> priorityToBeads p = Member p))
  /\
  (priorityFromBeads 0 = "high" /\ priorityFromBeads 1 = "high" /\
   priorityFromBeads 2 = "medium" /\
   priorityFromBeads 3 = "low" /\ priorityFromBeads 4 = "low" /\
   forall n, (n < 0 \/ 4 < n)%Z -> priorityFromBeads n = "medium")
  /\
  (statusToBeads "pending" = Text "open" /\
   statusToBeads "in_progress" = Text "in_progress" /\
   statusToBeads "completed" = Text "closed" /\
   statusToBeads "cancelled" = Text "closed").
Proof.
  split; [|split].
  - split; [reflexivity|]. split; [reflexivity|]. split; [reflexivity|].
    split; [exact priorityToBeads_other|exact priorityToBeads_inherited].
  - do 5 (split; [reflexivity|]).
    intros n Hn. rewrite priorityFromBeads_table. unfold spec_priority_back.
    destruct (Z.eqb_spec n 0); [lia|]. destruct (Z.eqb_spec n 1); [lia|].
    destruct (Z.eqb_spec n 2); [lia|]. destruct (Z.eqb_spec n 3); [lia|].
    destruct (Z.eqb_spec n 4); [lia|]. reflexivity.
  - repeat split.
Qed.

Lemma translators_match_tables_witness :
  priorityToBeads "urgent" = Number 2
  /\ priorityToBeads "constructor" = Member "constructor"
  /\ priorityFromBeads 7 = "medium".
Proof.
  destruct translators_match_tables
    as [[_ [_ [_ [Hto Hmember]]]] [[_ [_ [_ [_ [_ Hfrom]]]]] _]].
  split; [|split].
  - apply Hto; solve [discriminate | reflexivity].
  - apply Hmember. reflexivity.
  - apply Hfrom. right. reflexivity.
Defined.

(** The failing input of C5: a todo of priority [constructor].  The
    priority of its [bd create] is the inherited member, where the claim
    has 2; the reference tracker refuses the command, and the sync of that
    todo throws. *)
Lemma priority_fallback_failing_input :
  let todo := mkTodo "t" "review" "pending" "constructor" in
  createBeadsCmd "bd-1" todo
  = BdCreate "review" "task" (Member "constructor") (Some "bd-1") "OpenCode todo ID: t"
  /\ priorityToBeads (todo_priority todo) <> Number 2
  /\ fst (fst (syncTodosToBeads Ref.host Scenario.session [todo] Scenario.w_ok))
     = Throw (FailedToCreateBeadsIssue "t" (ShellError (createBeadsCmd "bd-1" todo))).
Proof. vm_compute. repeat split. discriminate. Qed.

(* ------------------------------------------------------------------------- *)
(** ** Loading the mapping *)
(* ------------------------------------------------------------------------- *)

(** C9.  [loadMapping] returns normally in every state of the backing file,
    without touching the world: the empty document when the file is absent,
    unreadable or not JSON, the parsed document otherwise. *)
Theorem loadMapping_never_raises (host : Host) (w : World host) :
  match file w with
  | FileAbsent | FileUnreadable | FileHolds (NotJson _) =>
      loadMapping host w
      = (Return {| sessions := []; todos := []; lastSync := 0 |}, w, [])
  | FileHolds (MappingJson m) => loadMapping host w = (Return m, w, [])
  end.
Proof.
  rewrite loadMapping_eq. destruct (file w) as [| |[txt|m]]; reflexivity.
Qed.

(* ------------------------------------------------------------------------- *)
(** ** Reading todos back *)
(* ------------------------------------------------------------------------- *)

Lemma beadsIssueToTodo_spec todoID issue :
  beadsIssueToTodo todoID issue = spec_task todoID issue.
Proof.
  unfold beadsIssueToTodo, spec_task, spec_status_back.
  rewrite priorityFromBeads_table. f_equal.
  destruct (String.eqb_spec (issue_status issue) "in_progress") as [E|_].
  - rewrite E. reflexivity.
  - reflexivity.
Qed.

Section ReadFacts.

Variable host : Host.

Lemma readLoop_spec es : forall acc (w : World host),
  exists w' ev,
    readLoop host es acc w
    = (Return (acc ++ spec_readBack host es (env w))%list, w', ev)
    /\ file w' = file w /\ writes ev = [] /\ creates ev = [].
Proof.
  induction es as [|[todoID beadsID] es IH]; intros acc w.
  - exists w, []. simpl. rewrite app_nil_r. auto.
  - cbn [readLoop spec_readBack]. unfold bind at 1.
    unfold try_catch, bind, sh_json, ret, shown.
    destruct (bd host (BdShow beadsID) (env w)) as [[|[[|i]|]] e]; cbn [fst snd];
      try (destruct (IH acc (mkWorld e (file w))) as (w' & ev & -> & Hf & Hw & Hc);
           exists w', (EvBd (BdShow beadsID) :: ev); simpl; auto; fail).
    rewrite app_nil_r.
    destruct (truthy (issue_id i)).
    + destruct (IH (acc ++ [beadsIssueToTodo todoID i])%list (mkWorld e (file w)))
        as (w' & ev & -> & Hf & Hw & Hc).
      exists w', (EvBd (BdShow beadsID) :: ev).
      rewrite beadsIssueToTodo_spec, <- app_assoc. simpl. auto.
    + destruct (IH acc (mkWorld e (file w))) as (w' & ev & -> & Hf & Hw & Hc).
      exists w', (EvBd (BdShow beadsID) :: ev). simpl. auto.
Qed.

End ReadFacts.

(** C6.  [readTodosFromBeads] never throws and never writes the file.
    It returns the empty list when no anchor is recorded for the session.
    With an anchor, it returns, for the correlations in order, the task
    rebuilt from each issue that [bd show] finds (the original task id, the
    title as content, the status and priority translated back), skipping the
    others. *)
Theorem readTodosFromBeads_reads_back (host : Host) (sessionID : string)
        (w : World host) :
  (JsObject.get sessionID (sessions (loaded (file w))) = None ->
   readTodosFromBeads host sessionID w = (Return [], w, []))
  /\
  (forall anchor,
     JsObject.get sessionID (sessions (loaded (file w))) = Some anchor ->
     anchor <> "" ->
     exists w' ev,
       readTodosFromBeads host sessionID w
       = (Return (spec_readBack host
                    (JsObject.entries (todoMapOf sessionID (loaded (file w))))
                    (env w)), w', ev)
       /\ file w' = file w /\ writes ev = [])
  /\
  (exists l w' ev,
     readTodosFromBeads host sessionID w = (Return l, w', ev)
     /\ file w' = file w).
Proof.
  unfold readTodosFromBeads, bind. rewrite loadMapping_eq.
  split; [|split].
  - intros ->. reflexivity.
  - intros anchor -> Hne. rewrite (truthy_value_intro _ Hne).
    destruct (readLoop_spec host (JsObject.entries (todoMapOf sessionID (loaded (file w))))
                [] w) as (w' & ev & -> & Hf & Hw & _).
    exists w', ev. auto.
  - destruct (truthy_value _).
    + destruct (readLoop_spec host
                  (JsObject.entries (todoMapOf sessionID (loaded (file w)))) [] w)
        as (w' & ev & -> & Hf & _).
      eexists _, w', ev. split; [reflexivity|assumption].
    + exists [], w, []. auto.
Qed.

(* ------------------------------------------------------------------------- *)
(** ** A sync as a whole *)
(* ------------------------------------------------------------------------- *)

Section SyncFacts.

Variable host : Host.
Implicit Types (w : World host) (c : BdCmd) (tm : TodoMap).

Import JsObject JsObjectFacts.

(** The loop over a list in two parts. *)
Lemma syncLoop_app a pre rest : forall seen tm w,
  syncLoop host a (pre ++ rest) seen tm w
  = match syncLoop host a pre seen tm w with
    | (Return (seen', tm'), w', ev) =>
        match syncLoop host a rest seen' tm' w' with
        | (r, w'', ev') => (r, w'', (ev ++ ev')%list)
        end
    | (Throw e, w', ev) => (Throw e, w', ev)
    end.
Proof.
  induction pre as [|t pre IH]; intros seen tm w.
  - cbn [app syncLoop]. unfold ret.
    destruct (syncLoop host a rest seen tm w) as [[r w''] ev']. reflexivity.
  - cbn [app syncLoop].
    destruct (truthyOperand (read (todo_id t) tm)).
    + unfold bind. rewrite updateBeadsIssue_eq, IH.
      destruct (syncLoop host a pre _ tm _) as [[[[seen' tm']|e] w'] ev];
        [|reflexivity].
      destruct (syncLoop host a rest seen' tm' w') as [[r w''] ev'].
      reflexivity.
    + unfold bind.
      destruct (createBeadsIssue host a t w) as [[[newid|e] w1] ev1];
        [|reflexivity].
      rewrite IH.
      destruct (syncLoop host a pre _ _ w1) as [[[[seen' tm']|e] w'] ev];
        [|reflexivity].
      destruct (syncLoop host a rest seen' tm' w') as [[r w''] ev'].
      rewrite app_assoc. reflexivity.
Qed.

(** What a sync that returns has gone through. *)
Lemma sync_returns s tl w w' ev :
  syncTodosToBeads host s tl w = (Return tt, w', ev) ->
  exists a m0 w1 ev1 seen tm w2 ev2 w4 ev4 t,
    getOrCreateSessionIssue host s (loaded (file w)) w = (Return (a, m0), w1, ev1)
    /\ syncLoop host a tl [] (todoMapOf s (ensureTodoMap s m0)) w1
       = (Return (seen, tm), w2, ev2)
    /\ let removed := removedEntries (entries tm) seen in
       let cs := map (fun kv => removedCmd (snd kv)) removed in
       let m' := mkMapping (sessions (ensureTodoMap s m0))
                   (set s (prune removed tm) (todos (ensureTodoMap s m0))) t in
       closeIfAllComplete host a tl
         (mkWorld (run_tolerated host cs (env w2)) (file w2)) = (Return tt, w4, ev4)
       /\ file w' = FileHolds (MappingJson m')
       /\ ev = (ev1 ++ ev2 ++ map EvBd cs ++ ev4 ++ [EvWriteFile m'])%list.
Proof.
  rewrite sync_unfold.
  destruct (getOrCreateSessionIssue host s (loaded (file w)) w)
    as [[[[a m0]|e] w1] ev1] eqn:Hres; [|discriminate].
  cbv zeta.
  destruct (syncLoop host a tl [] _ w1) as [[[[seen tm]|e] w2] ev2] eqn:Hloop;
    [|discriminate].
  destruct (closeIfAllComplete host a tl _) as [[[[]|e] w4] ev4] eqn:Hclose;
    [|discriminate].
  rewrite saveMapping_cases. cbv zeta.
  destruct (fst (fs_write host _)); [|discriminate].
  intros H. injection H as <- <-.
  eexists a, m0, w1, ev1, seen, tm, w2, ev2, w4, ev4, _.
  cbv zeta. repeat split; reflexivity || eassumption.
Qed.

End SyncFacts.

(* ------------------------------------------------------------------------- *)
(** ** Failure of a task creation *)
(* ------------------------------------------------------------------------- *)

(** C1 (as the code has it).  When the [bd create] of a task's issue fails
    (a non-zero exit, or an output that holds no issue), the sync stops
    there: it throws the error naming that task, the failed command is the
    last thing it did, the todos after it are not looked at, no removed todo
    is closed, and the mapping file stays as the session resolution left
    it. *)
Theorem create_failure_aborts_sync (host : Host) (s : string)
        (pre : list TodoItem) (todo : TodoItem) (post : list TodoItem)
        (w : World host) a m0 w1 ev1 seen tm w2 ev2 :
  getOrCreateSessionIssue host s (loaded (file w)) w = (Return (a, m0), w1, ev1) ->
  syncLoop host a pre [] (todoMapOf s (ensureTodoMap s m0)) w1
  = (Return (seen, tm), w2, ev2) ->
  truthyOperand (read (todo_id todo) tm) = false ->
  created (fst (bd host (createBeadsCmd a todo) (env w2))) = None ->
  exists cause,
    syncTodosToBeads host s (pre ++ todo :: post) w
    = (Throw (FailedToCreateBeadsIssue (todo_id todo) cause),
       mkWorld (snd (bd host (createBeadsCmd a todo) (env w2))) (file w1),
       (ev1 ++ ev2 ++ [EvBd (createBeadsCmd a todo)])%list).
Proof.
  intros Hres Hloop Hnone Hfail.
  destruct (createBeadsIssue_fails host a todo w2 Hfail) as [cause Hthrow].
  exists cause.
  rewrite sync_unfold, Hres. cbv zeta.
  rewrite syncLoop_app, Hloop. cbn [syncLoop]. rewrite Hnone.
  unfold bind at 1. rewrite Hthrow.
  pose proof (syncLoop_spec host a pre [] (todoMapOf s (ensureTodoMap s m0)) w1) as L.
  rewrite Hloop in L. destruct L as (Hf & _). rewrite Hf. reflexivity.
Qed.

Lemma create_failure_aborts_sync_witness :
  exists cause w' ev,
    syncTodosToBeads Ref.host Scenario.session
      ([Scenario.t_a] ++ Scenario.t_x :: [Scenario.t_c]) Scenario.w_flaky
    = (Throw (FailedToCreateBeadsIssue "x" cause), w', ev).
Proof.
  destruct (create_failure_aborts_sync Ref.host Scenario.session
              [Scenario.t_a] Scenario.t_x [Scenario.t_c] Scenario.w_flaky
              "bd-1" Scenario.doc
              (snd (fst (getOrCreateSessionIssue Ref.host Scenario.session
                           Scenario.doc Scenario.w_flaky)))
              [EvBd (BdShow "bd-1")]
              ["a"] [("a", "bd-2")]
              (snd (fst (syncLoop Ref.host "bd-1" [Scenario.t_a] []
                           [("a", "bd-2")]
                           (snd (fst (getOrCreateSessionIssue Ref.host
                                        Scenario.session Scenario.doc
                                        Scenario.w_flaky))))))
              [EvBd (BdUpdateStatus "bd-2" "open")]
              eq_refl eq_refl eq_refl eq_refl) as [cause H].
  eexists cause, _, _. exact H.
Defined.

(** C1 as the specification states it fails: with the tracker of
    [Scenario.w_flaky], the creation for task [x] fails, and the sync of
    [x; c] throws without creating an issue for [c], without closing the
    issue of the removed task [a], and without saving the document. *)
Lemma create_failure_counterexample :
  match syncTodosToBeads Ref.host Scenario.session
          [Scenario.t_x; Scenario.t_c] Scenario.w_flaky with
  | (r, w', ev) =>
      r = Throw (FailedToCreateBeadsIssue "x"
                   (ShellError (createBeadsCmd "bd-1" Scenario.t_x)))
      /\ commands ev = [BdShow "bd-1"; createBeadsCmd "bd-1" Scenario.t_x]
      /\ writes ev = []
      /\ file w' = FileHolds (MappingJson Scenario.doc)
  end.
Proof. vm_compute. repeat split. Qed.

(* ------------------------------------------------------------------------- *)
(** ** When the document is persisted *)
(* ------------------------------------------------------------------------- *)

Lemma writes_bd cs : writes (map EvBd cs) = [].
Proof. induction cs; [reflexivity|assumption]. Qed.

Lemma commands_bd cs : commands (map EvBd cs) = cs.
Proof. induction cs as [|c cs IH]; [reflexivity|]. simpl. rewrite IH. reflexivity. Qed.

(** The events of the session resolution when no recorded anchor is found
    and it returns: the failed [bd show] if there was one, the [bd create]
    of the anchor, and the write of the document. *)
Lemma resolve_missing_events (host : Host) s m (w : World host) :
  recordedAnchor host s m w = None ->
  match getOrCreateSessionIssue host s m w with
  | (Return (a, m'), _, ev) =>
      exists shows now,
        ev = (shows ++ [EvBd (sessionIssueCmd host s now); EvWriteFile m'])%list
        /\ (shows = [] \/ exists recorded, shows = [EvBd (BdShow recorded)])
        /\ JsObject.get s (todos m') = Some JsObject.empty
  | (Throw _, _, ev) => writes ev = []
  end.
Proof.
  intros Ha.
  assert (Hshow :
    match showSessionIssue host s m w with
    | (_, _, ev) => ev = [] \/ exists recorded, ev = [EvBd (BdShow recorded)]
    end).
  { unfold showSessionIssue.
    destruct (truthy_value _) as [recorded|]; [|left; reflexivity].
    unfold try_catch, bind, sh_json, ret.
    destruct (bd host (BdShow recorded) (env w)) as [[|[[|i]|]] e];
      right; exists recorded; reflexivity. }
  pose proof (showSessionIssue_eq host s m w) as S.
  unfold getOrCreateSessionIssue, bind.
  destruct (showSessionIssue host s m w) as [[r w1] ev1].
  rewrite Ha in S. destruct S as (-> & _ & Hw & _).
  pose proof (createSessionIssue_spec host s m w1) as C.
  destruct (createSessionIssue host s m w1) as [[[[a m']|ex] w'] ev].
  - destruct C as (_ & Ht & _ & now & ->).
    exists ev1, now. split; [reflexivity|]. split; [exact Hshow|].
    rewrite Ht. apply JsObjectFacts.get_set_same.
  - destruct C as (_ & _ & Hw'). rewrite writes_app, Hw, Hw'. reflexivity.
Qed.

(** C2 (as the code has it).  A sync is its session resolution followed by
    the rest.  When the resolution throws, so does the sync, and nothing
    has been written.  When it returns after finding the recorded anchor,
    it has written nothing.  When it returns after finding no recorded
    anchor, its events end with the [bd create] of the new anchor and the
    write of the document, with an empty todo map for the session, and
    before them there is at most the [bd show] that did not find the
    recorded anchor.  The rest writes the document exactly once, as the
    very last event, when the sync returns, and not at all when it
    throws. *)
Theorem sync_persist_points (host : Host) (s : string) (tl : list TodoItem)
        (w : World host) :
  match getOrCreateSessionIssue host s (loaded (file w)) w with
  | (Throw e, w1, ev1) =>
      syncTodosToBeads host s tl w = (Throw e, w1, ev1) /\ writes ev1 = []
  | (Return (a, m0), w1, ev1) =>
      match recordedAnchor host s (loaded (file w)) w with
      | Some _ => writes ev1 = []
      | None =>
          exists shows now,
            ev1 = (shows ++ [EvBd (sessionIssueCmd host s now); EvWriteFile m0])%list
            /\ (shows = [] \/ exists recorded, shows = [EvBd (BdShow recorded)])
            /\ JsObject.get s (todos m0) = Some JsObject.empty
      end
      /\
      match syncTodosToBeads host s tl w with
      | (r, w', ev) =>
          exists rest,
            ev = (ev1 ++ rest)%list
            /\ match r with
               | Return _ =>
                   exists ops m,
                     rest = (ops ++ [EvWriteFile m])%list /\ writes ops = [] /\
                     file w' = FileHolds (MappingJson m)
               | Throw _ => writes rest = []
               end
      end
  end.
Proof.
  rewrite sync_unfold.
  assert (Hres :
    match getOrCreateSessionIssue host s (loaded (file w)) w with
    | (Return (a, m0), _, ev1) =>
        match recordedAnchor host s (loaded (file w)) w with
        | Some _ => writes ev1 = []
        | None =>
            exists shows now,
              ev1 = (shows ++ [EvBd (sessionIssueCmd host s now); EvWriteFile m0])%list
              /\ (shows = [] \/ exists recorded, shows = [EvBd (BdShow recorded)])
              /\ JsObject.get s (todos m0) = Some JsObject.empty
        end
    | (Throw _, _, ev1) => writes ev1 = []
    end).
  { destruct (recordedAnchor host s (loaded (file w)) w) as [a|] eqn:Ha.
    - rewrite (resolve_found host _ _ _ _ Ha). reflexivity.
    - pose proof (resolve_missing_events host _ _ _ Ha) as R.
      destruct (getOrCreateSessionIssue host s (loaded (file w)) w)
        as [[[[a m']|e] w1] ev1]; exact R. }
  destruct (getOrCreateSessionIssue host s (loaded (file w)) w)
    as [[[[a m0]|e] w1] ev1].
  2:{ split; [reflexivity|exact Hres]. }
  split; [exact Hres|]. cbv zeta.
  pose proof (syncLoop_spec host a tl [] (todoMapOf s (ensureTodoMap s m0)) w1) as L.
  destruct (syncLoop host a tl [] _ w1) as [[[[seen tm]|e] w2] ev2].
  2:{ exists ev2. destruct L as (_ & Hw & _). auto. }
  destruct L as (_ & Hw2 & _).
  match goal with |- context [closeIfAllComplete host a tl ?x] =>
    pose proof (closeIfAllComplete_spec host a tl x) as C;
    destruct (closeIfAllComplete host a tl x) as [[r4 w4] ev4]
  end.
  destruct C as (-> & _ & Hw4 & _).
  rewrite saveMapping_cases. cbv zeta.
  destruct (fst (fs_write host _)).
  - eexists. split; [reflexivity|].
    eexists (ev2 ++ map EvBd _ ++ ev4)%list, _.
    split; [rewrite <- !app_assoc; reflexivity|].
    split; [|reflexivity].
    rewrite !writes_app, Hw2, Hw4, writes_bd. reflexivity.
  - eexists. split; [reflexivity|].
    rewrite !writes_app, Hw2, Hw4, writes_bd. reflexivity.
Qed.

(** C2 as the specification states it fails: the first sync of a session
    writes the document twice, the first time before any task has been
    looked at. *)
Lemma persisted_twice_counterexample :
  match syncTodosToBeads Ref.host Scenario.session [Scenario.t_a]
          Scenario.w_fresh with
  | (r, w', ev) =>
      r = Return tt /\
      writes ev
      = [ mkMapping [(Scenario.session, "bd-1")] [(Scenario.session, [])] 1001;
          mkMapping [(Scenario.session, "bd-1")]
                    [(Scenario.session, [("a", "bd-2")])] 1002 ]
  end.
Proof. vm_compute. split; reflexivity. Qed.

(* ------------------------------------------------------------------------- *)
(** ** The correlation map across a sync *)
(* ------------------------------------------------------------------------- *)

Section MapFacts.

Variable host : Host.
Implicit Types (w : World host) (tm : TodoMap).

Import JsObject JsObjectFacts.

Lemma todoMapOf_ensure s m : todoMapOf s (ensureTodoMap s m) = todoMapOf s m.
Proof.
  unfold todoMapOf, ensureTodoMap.
  destruct (get s (todos m)) eqn:E; [rewrite E; reflexivity|].
  cbn [todos]. rewrite get_set_same. reflexivity.
Qed.

Lemma todoMapOf_saved s ss tm tds t :
  todoMapOf s (mkMapping ss (set s tm tds) t) = tm.
Proof. unfold todoMapOf. cbn [todos]. rewrite get_set_same. reflexivity. Qed.

Lemma set_has_keys k tm : set_has k (map fst (entries tm)) = true <-> get k tm <> None.
Proof. rewrite set_has_In. apply keys_get. Qed.

(** The map after the two loops: the entries of the todos of the list,
    and nothing else. *)
Lemma pruned_keys a tl tm0 w1 seen tm w2 ev2 :
  syncLoop host a tl [] tm0 w1 = (Return (seen, tm), w2, ev2) ->
  forall k,
    get k (prune (removedEntries (entries tm) seen) tm)
    = if set_has k (ids tl) then get k tm else None.
Proof.
  intros Hloop k.
  pose proof (syncLoop_spec host a tl [] tm0 w1) as L. rewrite Hloop in L.
  destruct L as (_ & _ & Hseen & _).
  rewrite get_prune, set_has_removed, Hseen. cbn [set_has existsb orb].
  destruct (set_has k (ids tl)); cbn [negb]; [rewrite andb_false_r; reflexivity|].
  rewrite andb_true_r.
  destruct (set_has k (map fst (entries tm))) eqn:E; [reflexivity|].
  destruct (get k tm) eqn:G; [|reflexivity].
  assert (set_has k (map fst (entries tm)) = true) as E'
    by (apply set_has_keys; rewrite G; discriminate).
  congruence.
Qed.

(** A sync that returns after finding the recorded anchor: the loop it ran,
    the map it saved and the closes it issued. *)
Lemma sync_found_returns s tl w a w' ev :
  recordedAnchor host s (loaded (file w)) w = Some a ->
  syncTodosToBeads host s tl w = (Return tt, w', ev) ->
  exists seen tm w2 ev2,
    syncLoop host a tl [] (todoMapOf s (loaded (file w)))
             (mkWorld (snd (bd host (BdShow a) (env w))) (file w))
    = (Return (seen, tm), w2, ev2)
    /\ (forall k, get k (todoMapOf s (loaded (file w')))
                  = if set_has k (ids tl) then get k tm else None)
    /\ (forall k b, In (k, b) (removedEntries (entries tm) seen) ->
                    In (removedCmd b) (commands ev))
    /\ creates ev = creates ev2.
Proof.
  intros Ha Hsync.
  destruct (sync_returns host s tl w w' ev Hsync)
    as (a' & m0 & w1 & ev1 & seen & tm & w2 & ev2 & w4 & ev4 & t
        & Hres & Hloop & Hclose & Hfile & Hev).
  cbv zeta in *. rewrite (resolve_found host _ _ _ _ Ha) in Hres.
  injection Hres as <- <- <- <-. rewrite todoMapOf_ensure in Hloop.
  exists seen, tm, w2, ev2. split; [exact Hloop|].
  split; [|split].
  - intros k. rewrite Hfile. cbn [loaded]. rewrite todoMapOf_saved.
    apply (pruned_keys _ _ _ _ _ _ _ _ Hloop).
  - intros k b Hin. rewrite Hev, !commands_app, commands_bd.
    apply in_or_app. right. apply in_or_app. right. apply in_or_app. left.
    apply (in_map (fun kv => removedCmd (snd kv)) _ (k, b)). exact Hin.
  - pose proof (closeIfAllComplete_spec host a tl
                  (mkWorld (run_tolerated host
                     (map (fun kv => removedCmd (snd kv))
                          (removedEntries (entries tm) seen)) (env w2)) (file w2))) as C.
    rewrite Hclose in C. destruct C as (_ & _ & _ & Hc4).
    rewrite Hev, !creates_app, Hc4. unfold creates at 1 3 4.
    rewrite commands_bd. cbn [commands flat_map filter is_create app].
    rewrite app_nil_r.
    assert (Hnone : forall l : list (string * string),
              filter is_create (map (fun kv => removedCmd (snd kv)) l) = []).
    { induction l as [|kv l IH]; [reflexivity|exact IH]. }
    rewrite Hnone, app_nil_r. reflexivity.
Qed.

End MapFacts.

(** C7 (as the code has it).  Take a sync that returns.  Afterwards every
    key of the session's persisted todo map is the id of an incoming todo,
    and every incoming todo whose id does not name a member of
    [Object.prototype] has an entry.  If moreover the recorded anchor was
    found, then every entry of the map the sync started from whose todo is
    not in the list has had its issue closed with the reason "Todo removed
    from OpenCode" (whatever the outcome of that command) and is gone, and
    every entry with a usable issue id whose todo is in the list is still
    there. *)
Theorem removed_todos_closed_and_deleted (host : Host) (s : string)
        (tl : list TodoItem) (w w' : World host) (ev : list Event) :
  syncTodosToBeads host s tl w = (Return tt, w', ev) ->
  let before := todoMapOf s (loaded (file w)) in
  let after := todoMapOf s (loaded (file w')) in
  (forall k, JsObject.get k after <> None -> In k (ids tl))
  /\
  (forall k, In k (ids tl) -> inherited k = false -> JsObject.get k after <> None)
  /\
  (forall a, recordedAnchor host s (loaded (file w)) w = Some a ->
     (forall k b, JsObject.get k before = Some b -> ~ In k (ids tl) ->
                  In (removedCmd b) (commands ev) /\ JsObject.get k after = None)
     /\
     (forall k b, JsObject.get k before = Some b -> b <> "" -> In k (ids tl) ->
                  JsObject.get k after = Some b)).
Proof.
  intros Hsync. cbv zeta.
  assert (Hkeys :
    (forall k, JsObject.get k (todoMapOf s (loaded (file w'))) <> None -> In k (ids tl))
    /\ (forall k, In k (ids tl) -> inherited k = false ->
                  JsObject.get k (todoMapOf s (loaded (file w'))) <> None)).
  { destruct (sync_returns host s tl w w' ev Hsync)
      as (a & m0 & w1 & ev1 & seen & tm & w2 & ev2 & w4 & ev4 & t
          & Hres & Hloop & Hclose & Hfile & Hev).
    cbv zeta in *. rewrite Hfile. cbn [loaded]. rewrite todoMapOf_saved.
    pose proof (syncLoop_spec host a tl [] (todoMapOf s (ensureTodoMap s m0)) w1) as L.
    rewrite Hloop in L. destruct L as (_ & _ & _ & _ & _ & _ & Hin).
    split; intros k; rewrite (pruned_keys host _ _ _ _ _ _ _ _ Hloop).
    - destruct (set_has k (ids tl)) eqn:E; [|congruence].
      intros _. apply set_has_In. exact E.
    - intros Hk Hinh. pose proof Hk as Hk'. apply set_has_In in Hk'.
      rewrite Hk'. apply Hin; assumption. }
  split; [apply Hkeys|]. split; [apply Hkeys|].
  intros a Ha.
  destruct (sync_found_returns host s tl w a w' ev Ha Hsync)
    as (seen & tm & w2 & ev2 & Hloop & Hafter & Hclosed & _).
  pose proof (syncLoop_spec host a tl [] (todoMapOf s (loaded (file w)))
                (mkWorld (snd (bd host (BdShow a) (env w))) (file w))) as L.
  rewrite Hloop in L. destruct L as (_ & _ & Hseen & Hkeep & Hout & _).
  split.
  - intros k b Hb Hk.
    assert (E : set_has k (ids tl) = false).
    { destruct (set_has k (ids tl)) eqn:E; [|reflexivity].
      apply set_has_In in E. contradiction. }
    split.
    + apply (Hclosed k b). apply removedEntries_In. split.
      * apply JsObjectFacts.get_In. rewrite Hout; assumption.
      * rewrite Hseen, E. reflexivity.
    + rewrite Hafter, E. reflexivity.
  - intros k b Hb Hne Hk. rewrite Hafter.
    apply set_has_In in Hk. rewrite Hk. apply Hkeep.
    rewrite Hb. apply truthy_value_intro. assumption.
Qed.

Lemma removed_todos_closed_and_deleted_witness :
  let run := syncTodosToBeads Ref.host Scenario.session [Scenario.t_c] Scenario.w_ok in
  In (removedCmd "bd-2") (commands (snd run))
  /\ JsObject.get "a" (todoMapOf Scenario.session (loaded (file (snd (fst run))))) = None.
Proof.
  intros run.
  assert (H : syncTodosToBeads Ref.host Scenario.session [Scenario.t_c] Scenario.w_ok
              = (Return tt, snd (fst run), snd run)) by reflexivity.
  destruct (removed_todos_closed_and_deleted _ _ _ _ _ _ H) as (_ & _ & Hfound).
  destruct (Hfound "bd-1" eq_refl) as [Hremoved _].
  apply (Hremoved "a" "bd-2"); [reflexivity|].
  simpl. intros [E|[]]. discriminate E.
Defined.

(** C7 as the specification states it fails.  With the tracker of
    [Scenario.w_flaky], the sync of [x] throws on the creation for [x]: the
    entry of the removed task [a] stays in the document and its issue [bd-2]
    is not closed.  With the anchor gone ([Scenario.w_lost_anchor]), the
    sync of [c] returns: the entry of [a] is gone, but its issue [bd-2] has
    not been closed. *)
Lemma removed_todos_counterexample :
  (match syncTodosToBeads Ref.host Scenario.session [Scenario.t_x] Scenario.w_flaky with
   | (r, w', ev) =>
       (exists e, r = Throw e)
       /\ correlation Scenario.session "a" (loaded (file w')) = Some "bd-2"
       /\ commands ev = [BdShow "bd-1"; createBeadsCmd "bd-1" Scenario.t_x]
   end)
  /\
  (match syncTodosToBeads Ref.host Scenario.session [Scenario.t_c]
           Scenario.w_lost_anchor with
   | (r, w', ev) =>
       r = Return tt
       /\ correlation Scenario.session "a" (loaded (file w')) = None
       /\ commands ev
          = [BdShow "bd-1";
             sessionIssueCmd Ref.host Scenario.session 2000;
             createBeadsCmd "bd-3" Scenario.t_c;
             BdUpdateStatus "bd-4" "in_progress"]
   end).
Proof. vm_compute. repeat split. eexists. reflexivity. Qed.

(* ------------------------------------------------------------------------- *)
(** ** The lifetime of a correlation *)
(* ------------------------------------------------------------------------- *)

Section LifetimeFacts.

Variable host : Host.
Implicit Types (w : World host) (tm : TodoMap).

Import JsObject JsObjectFacts.

Lemma readTodosFromBeads_keeps_file s w :
  match readTodosFromBeads host s w with
  | (_, w', _) => file w' = file w
  end.
Proof.
  unfold readTodosFromBeads, bind. rewrite loadMapping_eq.
  destruct (truthy_value _); [|reflexivity].
  destruct (readLoop_spec host (entries (todoMapOf s (loaded (file w)))) [] w)
    as (w' & ev & -> & Hf & _).
  exact Hf.
Qed.

(** A sync for a session leaves the todo maps of the other sessions
    alone. *)
Lemma sync_keeps_other_sessions s tl w :
  match syncTodosToBeads host s tl w with
  | (_, w', _) =>
      forall s', s' <> s ->
        get s' (todos (loaded (file w'))) = get s' (todos (loaded (file w)))
  end.
Proof.
  rewrite sync_unfold.
  assert (Hres :
    match getOrCreateSessionIssue host s (loaded (file w)) w with
    | (r1, w1, _) =>
        (forall s', s' <> s ->
           get s' (todos (loaded (file w1))) = get s' (todos (loaded (file w))))
        /\ match r1 with
           | Return (_, m0) =>
               forall s', s' <> s ->
                 get s' (todos m0) = get s' (todos (loaded (file w)))
           | Throw _ => True
           end
    end).
  { destruct (recordedAnchor host s (loaded (file w)) w) as [a|] eqn:Ha.
    - rewrite (resolve_found host _ _ _ _ Ha). cbn [file]. auto.
    - pose proof (resolve_missing host _ _ _ Ha) as R.
      destruct (getOrCreateSessionIssue host s (loaded (file w)) w)
        as [[[[a m']|e] w1] ev1].
      + destruct R as (_ & Ht & Hf & _). rewrite Hf. cbn [loaded]. rewrite Ht.
        split; intros s' Hs'; apply get_set_other; assumption.
      + destruct R as (_ & Hf & _). rewrite Hf. auto. }
  destruct (getOrCreateSessionIssue host s (loaded (file w)) w)
    as [[[[a m0]|e] w1] ev1]; [|tauto].
  destruct Hres as (Hw1 & Hm0). cbv zeta.
  pose proof (syncLoop_spec host a tl [] (todoMapOf s (ensureTodoMap s m0)) w1) as L.
  destruct (syncLoop host a tl [] _ w1) as [[[[seen tm]|e] w2] ev2];
    destruct L as (Hf2 & _); [|rewrite Hf2; exact Hw1].
  match goal with |- context [closeIfAllComplete host a tl ?x] =>
    pose proof (closeIfAllComplete_spec host a tl x) as C;
    destruct (closeIfAllComplete host a tl x) as [[r4 w4] ev4]
  end.
  destruct C as (-> & Hf4 & _). cbn [file] in Hf4.
  rewrite saveMapping_cases. cbv zeta.
  destruct (fst (fs_write host _)).
  - cbn [file loaded todos withTodoMap]. intros s' Hs'.
    rewrite get_set_other by assumption.
    unfold ensureTodoMap. destruct (get s (todos m0)); cbn [todos].
    + apply Hm0; assumption.
    + rewrite get_set_other by assumption. apply Hm0; assumption.
  - cbn [file]. rewrite Hf4, Hf2. exact Hw1.
Qed.

(** A sync that has found its anchor and throws has not written the
    file. *)
Lemma sync_found_throws s tl w a :
  recordedAnchor host s (loaded (file w)) w = Some a ->
  match syncTodosToBeads host s tl w with
  | (Throw _, w', _) => file w' = file w
  | (Return _, _, _) => True
  end.
Proof.
  intros Ha. rewrite sync_unfold, (resolve_found host _ _ _ _ Ha). cbv zeta.
  match goal with |- context [syncLoop host a tl [] ?m ?x] =>
    pose proof (syncLoop_spec host a tl [] m x) as L;
    destruct (syncLoop host a tl [] m x) as [[[[seen tm]|e] w2] ev2]
  end; destruct L as (Hf2 & _); [|exact Hf2].
  match goal with |- context [closeIfAllComplete host a tl ?x] =>
    pose proof (closeIfAllComplete_spec host a tl x) as C;
    destruct (closeIfAllComplete host a tl x) as [[r4 w4] ev4]
  end.
  destruct C as (-> & Hf4 & _). cbn [file] in Hf4, Hf2.
  rewrite saveMapping_cases. cbv zeta.
  destruct (fst (fs_write host _)); [exact I|].
  cbn [file]. rewrite Hf4, Hf2. reflexivity.
Qed.

End LifetimeFacts.

(** C3 (as the code has it).  A persisted correlation of task [k] of session
    [s] to a usable issue id [b]
    - is left in place by [readTodosFromBeads] (which never writes) and by a
      sync of another session;
    - survives a sync of [s] that finds the recorded anchor, as long as [k]
      is in the incoming list, or the sync throws;
    - is deleted, after the [bd close] of [b], by a sync of [s] that finds
      the anchor, returns, and whose list does not contain [k];
    - is dropped by the session resolution when the recorded anchor is not
      found and a new one is created. *)
Theorem correlation_lifetime (host : Host) (s k b : string) (w : World host) :
  correlation s k (loaded (file w)) = Some b ->
  b <> "" ->
  (forall s',
     match readTodosFromBeads host s' w with
     | (_, w', _) => file w' = file w
     end)
  /\
  (forall s' tl, s' <> s ->
     match syncTodosToBeads host s' tl w with
     | (_, w', _) => correlation s k (loaded (file w')) = Some b
     end)
  /\
  (forall tl a, recordedAnchor host s (loaded (file w)) w = Some a ->
     match syncTodosToBeads host s tl w with
     | (r, w', ev) =>
         (In k (ids tl) -> correlation s k (loaded (file w')) = Some b)
         /\
         (~ In k (ids tl) ->
          match r with
          | Return _ =>
              correlation s k (loaded (file w')) = None
              /\ In (removedCmd b) (commands ev)
          | Throw _ => correlation s k (loaded (file w')) = Some b
          end)
     end)
  /\
  (recordedAnchor host s (loaded (file w)) w = None ->
   match getOrCreateSessionIssue host s (loaded (file w)) w with
   | (Return (_, m'), w', _) =>
       correlation s k m' = None /\ file w' = FileHolds (MappingJson m')
   | (Throw _, w', _) => file w' = file w
   end).
Proof.
  intros Hcorr Hb. split; [|split; [|split]].
  - intros s'. apply readTodosFromBeads_keeps_file.
  - intros s' tl Hne.
    pose proof (sync_keeps_other_sessions host s' tl w) as K.
    destruct (syncTodosToBeads host s' tl w) as [[r w'] ev].
    unfold correlation in *. rewrite K by congruence. exact Hcorr.
  - intros tl a Ha.
    pose proof (sync_found_throws host s tl w a Ha) as T.
    destruct (syncTodosToBeads host s tl w) as [[[[]|e] w'] ev] eqn:Hsync.
    + destruct (sync_found_returns host s tl w a w' ev Ha Hsync)
        as (seen & tm & w2 & ev2 & Hloop & Hafter & Hclosed & _).
      pose proof (syncLoop_spec host a tl [] (todoMapOf s (loaded (file w)))
                    (mkWorld (snd (bd host (BdShow a) (env w))) (file w))) as L.
      rewrite Hloop in L. destruct L as (_ & _ & Hseen & Hkeep & Hout & _).
      change (correlation s k (loaded (file w')))
        with (JsObject.get k (todoMapOf s (loaded (file w')))).
      change (JsObject.get k (todoMapOf s (loaded (file w))) = Some b) in Hcorr.
      rewrite Hafter. split.
      * intros Hk. apply set_has_In in Hk. rewrite Hk. apply Hkeep.
        rewrite Hcorr. apply truthy_value_intro. assumption.
      * intros Hk.
        assert (E : set_has k (ids tl) = false).
        { destruct (set_has k (ids tl)) eqn:E; [|reflexivity].
          apply set_has_In in E. contradiction. }
        rewrite E. split; [reflexivity|].
        apply (Hclosed k b). apply removedEntries_In. split.
        -- apply JsObjectFacts.get_In. rewrite Hout; assumption.
        -- rewrite Hseen, E. reflexivity.
    + rewrite T. split; intros _; exact Hcorr.
  - intros Ha. pose proof (resolve_missing host _ _ _ Ha) as R.
    destruct (getOrCreateSessionIssue host s (loaded (file w)) w)
      as [[[[a m']|e] w'] ev].
    + destruct R as (_ & Ht & Hf & _). split; [|exact Hf].
      unfold correlation. rewrite Ht, JsObjectFacts.get_set_same. reflexivity.
    + tauto.
Qed.

Lemma correlation_lifetime_witness :
  match syncTodosToBeads Ref.host Scenario.session [Scenario.t_a; Scenario.t_c]
          Scenario.w_ok with
  | (_, w', _) => correlation Scenario.session "a" (loaded (file w')) = Some "bd-2"
  end.
Proof.
  assert (Hcorr : correlation Scenario.session "a" (loaded (file Scenario.w_ok))
                  = Some "bd-2") by reflexivity.
  assert (Hb : "bd-2" <> "") by discriminate.
  destruct (correlation_lifetime Ref.host Scenario.session "a" "bd-2" Scenario.w_ok
              Hcorr Hb) as (_ & _ & Hsame & _).
  specialize (Hsame [Scenario.t_a; Scenario.t_c] "bd-1" eq_refl).
  destruct (syncTodosToBeads Ref.host Scenario.session [Scenario.t_a; Scenario.t_c]
              Scenario.w_ok) as [[r w'] ev].
  apply Hsame. left. reflexivity.
Defined.

(** C3 as the specification states it fails: the anchor [bd-1] is gone from
    the tracker, task [a] is still in the list, and yet the sync replaces the
    correlation of [a] to [bd-2] by one to a new issue, without closing
    [bd-2]. *)
Lemma correlation_lifetime_counterexample :
  match syncTodosToBeads Ref.host Scenario.session [Scenario.t_a]
          Scenario.w_lost_anchor with
  | (r, w', ev) =>
      correlation Scenario.session "a" (loaded (file Scenario.w_lost_anchor))
      = Some "bd-2"
      /\ r = Return tt
      /\ correlation Scenario.session "a" (loaded (file w')) = Some "bd-4"
      /\ commands ev
         = [BdShow "bd-1";
            sessionIssueCmd Ref.host Scenario.session 2000;
            createBeadsCmd "bd-3" Scenario.t_a]
  end.
Proof. vm_compute. repeat split. Qed.

(* ------------------------------------------------------------------------- *)
(** ** Two syncs in a row *)
(* ------------------------------------------------------------------------- *)

Lemma is_create_updateBeadsCmd b t : is_create (updateBeadsCmd b t) = false.
Proof.
  unfold updateBeadsCmd. destruct (isText "closed" _); reflexivity.
Qed.

Lemma creates_updates tm tl : creates (map EvBd (map (updateCmdFor tm) tl)) = [].
Proof.
  unfold creates. rewrite commands_bd.
  induction tl as [|t tl IH]; [reflexivity|].
  cbn [map filter]. unfold updateCmdFor at 1.
  rewrite is_create_updateBeadsCmd. exact IH.
Qed.

(** C4 (with what it takes for granted).  When a sync returns, and the next
    sync of the same session with the same list finds the recorded anchor,
    and the issue ids in the session's todo map are not empty, then this next
    sync runs no [bd create] and leaves [sessions] and [todos] of the
    persisted document as they were (whether it returns or throws). *)
Theorem sync_twice_idempotent (host : Host) (s : string) (tl : list TodoItem)
        (w w1 : World host) (ev1 : list Event) (a : string) :
  syncTodosToBeads host s tl w = (Return tt, w1, ev1) ->
  recordedAnchor host s (loaded (file w1)) w1 = Some a ->
  (forall k b, JsObject.get k (todoMapOf s (loaded (file w1))) = Some b -> b <> "") ->
  match syncTodosToBeads host s tl w1 with
  | (r, w2, ev2) =>
      creates ev2 = []
      /\ sessions (loaded (file w2)) = sessions (loaded (file w1))
      /\ todos (loaded (file w2)) = todos (loaded (file w1))
  end.
Proof.
  intros Hfirst Ha Hids.
  (* what the first sync has left *)
  destruct (sync_returns host s tl w w1 ev1 Hfirst)
    as (a0 & m0 & w0 & ev0 & seen0 & tm0 & w0' & ev0' & w4 & ev4 & t
        & _ & Hloop0 & _ & Hfile & _).
  cbv zeta in Hfile.
  set (after := prune (removedEntries (JsObject.entries tm0) seen0) tm0) in *.
  assert (Hmap : todoMapOf s (loaded (file w1)) = after).
  { rewrite Hfile. cbn [loaded]. apply todoMapOf_saved. }
  assert (Hkeys : forall k, JsObject.get k after
                            = if set_has k (ids tl) then JsObject.get k tm0 else None).
  { apply (pruned_keys host _ _ _ _ _ _ _ _ Hloop0). }
  pose proof (syncLoop_spec host a0 tl [] (todoMapOf s (ensureTodoMap s m0)) w0) as L0.
  rewrite Hloop0 in L0. destruct L0 as (_ & _ & _ & _ & _ & _ & Hin0).
  assert (Hall : forall t', In t' tl ->
                   truthyOperand (read (todo_id t') after) = true).
  { intros t' Ht'.
    assert (Hid : In (todo_id t') (ids tl)) by (apply in_map; assumption).
    specialize (Hin0 _ Hid). specialize (Hkeys (todo_id t')).
    apply set_has_In in Hid. rewrite Hid in Hkeys.
    unfold read, member.
    destruct (JsObject.get (todo_id t') after) as [b|] eqn:G.
    - cbn [truthyOperand]. unfold truthy. apply negb_true_iff, String.eqb_neq.
      apply (Hids (todo_id t')). rewrite Hmap. exact G.
    - destruct (inherited (todo_id t')); [reflexivity|].
      exfalso. apply Hin0; [reflexivity|]. rewrite <- Hkeys. reflexivity. }
  (* the second sync *)
  rewrite sync_unfold, (resolve_found host _ _ _ _ Ha). cbv zeta.
  rewrite todoMapOf_ensure, Hmap.
  match goal with |- context [syncLoop host a tl [] after ?x] =>
    destruct (syncLoop_correlated host a tl [] after x Hall) as [seen Hloop];
    pose proof (syncLoop_spec host a tl [] after x) as L
  end.
  rewrite Hloop in L |- *. destruct L as (_ & _ & Hseen & _).
  rewrite removedEntries_none.
  2:{ intros k Hk. rewrite Hseen. cbn [set_has existsb orb].
      apply set_has_In in Hk. apply set_has_keys in Hk.
      rewrite Hkeys in Hk. destruct (set_has k (ids tl)); congruence. }
  cbn [map prune fold_left run_tolerated app].
  match goal with |- context [closeIfAllComplete host a tl ?x] =>
    pose proof (closeIfAllComplete_spec host a tl x) as C;
    destruct (closeIfAllComplete host a tl x) as [[r4 w5] ev5]
  end.
  destruct C as (-> & Hf5 & _ & Hc5). cbn [file] in Hf5.
  assert (Hcreates : forall ev6, creates ev6 = [] ->
            creates ([EvBd (BdShow a)]
                     ++ map EvBd (map (updateCmdFor after) tl) ++ ev5 ++ ev6) = []).
  { intros ev6 H6. rewrite !creates_app, creates_updates, Hc5, H6. reflexivity. }
  rewrite saveMapping_cases. cbv zeta.
  destruct (fst (fs_write host _)).
  - split; [apply Hcreates; reflexivity|].
    cbn [file loaded sessions todos withTodoMap].
    unfold ensureTodoMap. rewrite Hfile. cbn [loaded todos sessions].
    rewrite JsObjectFacts.get_set_same. cbn [todos sessions].
    split; [reflexivity|].
    apply JsObjectFacts.set_get_id. apply JsObjectFacts.get_set_same.
  - split; [apply Hcreates; reflexivity|].
    cbn [file]. rewrite Hf5. auto.
Qed.

Lemma sync_twice_idempotent_witness :
  let first := syncTodosToBeads Ref.host Scenario.session
                 [Scenario.t_a; Scenario.t_b] Scenario.w_fresh in
  match syncTodosToBeads Ref.host Scenario.session
          [Scenario.t_a; Scenario.t_b] (snd (fst first)) with
  | (_, w2, ev2) =>
      creates ev2 = []
      /\ todos (loaded (file w2)) = todos (loaded (file (snd (fst first))))
  end.
Proof.
  intros first.
  assert (H1 : syncTodosToBeads Ref.host Scenario.session
                 [Scenario.t_a; Scenario.t_b] Scenario.w_fresh
               = (Return tt, snd (fst first), snd first)) by reflexivity.
  assert (H2 : recordedAnchor Ref.host Scenario.session
                 (loaded (file (snd (fst first)))) (snd (fst first)) = Some "bd-1")
    by reflexivity.
  assert (H3 : forall k b,
             JsObject.get k (todoMapOf Scenario.session
                               (loaded (file (snd (fst first))))) = Some b ->
             b <> "").
  { intros k b. change (todoMapOf Scenario.session (loaded (file (snd (fst first)))))
      with [("a", "bd-2"); ("b", "bd-3")].
    cbn [JsObject.get].
    destruct (k =? "a"); [intros H; injection H as <-; discriminate|].
    destruct (k =? "b"); [intros H; injection H as <-; discriminate|].
    discriminate. }
  pose proof (sync_twice_idempotent Ref.host _ _ _ _ _ _ H1 H2 H3) as T.
  destruct (syncTodosToBeads Ref.host Scenario.session
              [Scenario.t_a; Scenario.t_b] (snd (fst first))) as [[r w2] ev2].
  tauto.
Defined.

(** C4 as the specification states it fails, three times over.
    - The tracker refuses to create "flaky": the first sync of [c; x] creates
      an issue for [c] and throws on [x]; nothing is saved, and the second
      sync of [c; x] creates a second issue for [c].
    - [bd show] never works: the first sync returns, and the second one,
      unable to see the anchor, creates a new anchor and a new issue for [a].
    - The tracker hands out an empty id to the issue of [a]: the first sync
      returns, and the second one creates an issue for [a] again. *)
Lemma sync_twice_counterexample :
  (let first := syncTodosToBeads Ref.host Scenario.session
                  [Scenario.t_c; Scenario.t_x] Scenario.w_flaky in
   let second := syncTodosToBeads Ref.host Scenario.session
                   [Scenario.t_c; Scenario.t_x] (snd (fst first)) in
   creates (snd first)
   = [createBeadsCmd "bd-1" Scenario.t_c; createBeadsCmd "bd-1" Scenario.t_x]
   /\ creates (snd second)
      = [createBeadsCmd "bd-1" Scenario.t_c; createBeadsCmd "bd-1" Scenario.t_x])
  /\
  (let first := syncTodosToBeads Ref.host Scenario.session [Scenario.t_a]
                  Scenario.w_no_show in
   let second := syncTodosToBeads Ref.host Scenario.session [Scenario.t_a]
                   (snd (fst first)) in
   fst (fst first) = Return tt
   /\ creates (snd second)
      = [sessionIssueCmd Ref.host Scenario.session 1003;
         createBeadsCmd "bd-3" Scenario.t_a]
   /\ sessions (loaded (file (snd (fst second)))) = [(Scenario.session, "bd-3")])
  /\
  (let first := syncTodosToBeads Blank.host Scenario.session [Scenario.t_a]
                  Blank.w_fresh in
   let second := syncTodosToBeads Blank.host Scenario.session [Scenario.t_a]
                   (snd (fst first)) in
   fst (fst first) = Return tt
   /\ recordedAnchor Blank.host Scenario.session
        (loaded (file (snd (fst first)))) (snd (fst first)) = Some "E-1"
   /\ creates (snd second) = [createBeadsCmd "E-1" Scenario.t_a]).
Proof. vm_compute. repeat split. Qed.

(* ------------------------------------------------------------------------- *)
(** ** Closing the session issue *)
(* ------------------------------------------------------------------------- *)

Lemma notes_app ev1 ev2 : notes (ev1 ++ ev2) = (notes ev1 ++ notes ev2)%list.
Proof. unfold notes. rewrite commands_app. apply filter_app. Qed.

Lemma is_notes_updateBeadsCmd b t : is_notes (updateBeadsCmd b t) = false.
Proof.
  unfold updateBeadsCmd. destruct (isText "closed" _); reflexivity.
Qed.

Lemma notes_removed (l : list (string * string)) :
  notes (map EvBd (map (fun kv => removedCmd (snd kv)) l)) = [].
Proof.
  unfold notes. rewrite commands_bd.
  induction l as [|kv l IH]; [reflexivity|exact IH].
Qed.

Lemma sessions_ensure s m : sessions (ensureTodoMap s m) = sessions m.
Proof. unfold ensureTodoMap. destruct (JsObject.get s (todos m)); reflexivity. Qed.

Section CloseFacts.

Variable host : Host.
Implicit Types (w : World host) (tm : TodoMap).

Lemma createBeadsIssue_no_notes a t w :
  match createBeadsIssue host a t w with
  | (_, _, ev) => notes ev = []
  end.
Proof.
  unfold createBeadsIssue, try_catch, bind, sh_json, json_id, throw, ret.
  destruct (bd host (createBeadsCmd _ _) (env w)) as [[|[[|i]|]] e]; simpl;
    try reflexivity.
  destruct (todo_status t =? "in_progress").
  - unfold sh_quiet; simpl.
    destruct (bd host (BdUpdateStatus _ _) e) as [[|out] e']; reflexivity.
  - destruct (isTerminal t); simpl; [|reflexivity].
    unfold sh_quiet; simpl.
    destruct (bd host (BdClose _ _) e) as [[|out] e']; reflexivity.
Qed.

Lemma syncLoop_no_notes a tl : forall seen tm w,
  match syncLoop host a tl seen tm w with
  | (_, _, ev) => notes ev = []
  end.
Proof.
  induction tl as [|t rest IH]; intros seen tm w; [reflexivity|].
  cbn [syncLoop].
  destruct (truthyOperand (read (todo_id t) tm)).
  - unfold bind. rewrite updateBeadsIssue_eq.
    match goal with |- context [syncLoop host a rest ?s ?m ?x] =>
      specialize (IH s m x); destruct (syncLoop host a rest s m x) as [[r w'] ev]
    end.
    rewrite notes_app, IH. unfold notes. cbn [commands flat_map app filter].
    rewrite is_notes_updateBeadsCmd. reflexivity.
  - unfold bind. pose proof (createBeadsIssue_no_notes a t w) as C.
    destruct (createBeadsIssue host a t w) as [[[newid|e] w1] ev1]; [|exact C].
    match goal with |- context [syncLoop host a rest ?s ?m ?x] =>
      specialize (IH s m x); destruct (syncLoop host a rest s m x) as [[r w'] ev]
    end.
    rewrite notes_app, C, IH. reflexivity.
Qed.

Lemma showSessionIssue_no_notes s m w :
  match showSessionIssue host s m w with
  | (_, _, ev) => notes ev = []
  end.
Proof.
  unfold showSessionIssue.
  destruct (truthy_value _) as [recorded|]; [|reflexivity].
  unfold try_catch, bind, sh_json, ret.
  destruct (bd host (BdShow recorded) (env w)) as [[|[[|i]|]] e]; reflexivity.
Qed.

Lemma createSessionIssue_no_notes s m w :
  match createSessionIssue host s m w with
  | (_, _, ev) => notes ev = []
  end.
Proof.
  pose proof (createSessionIssue_spec host s m w) as C.
  unfold createSessionIssue, bind, Date_now in *.
  destruct (date_now host (env w)) as [now e0]; simpl in *.
  unfold try_catch, bind, sh_json, json_id, throw, ret in *.
  destruct (bd host (sessionIssueCmd host s now) _) as [[|[[|i]|]] e];
    simpl in *; try reflexivity.
  rewrite saveMapping_cases in *; simpl in *.
  destruct (fst (fs_write host _)); reflexivity.
Qed.

(** The session resolution runs no notes update and, when it returns, the
    anchor it returns is the one its document records. *)
Lemma resolve_anchor s m w :
  match getOrCreateSessionIssue host s m w with
  | (r, _, ev) =>
      notes ev = [] /\
      match r with
      | Return (a, m') => JsObject.get s (sessions m') = Some a
      | Throw _ => True
      end
  end.
Proof.
  unfold getOrCreateSessionIssue, bind.
  pose proof (showSessionIssue_eq host s m w) as S.
  pose proof (showSessionIssue_no_notes s m w) as N.
  destruct (showSessionIssue host s m w) as [[r1 w1] ev1].
  destruct S as (-> & _).
  destruct (recordedAnchor host s m w) as [a|] eqn:Ha.
  - unfold ret. rewrite app_nil_r. split; [exact N|].
    unfold recordedAnchor in Ha.
    destruct (truthy_value (JsObject.get s (sessions m))) as [a'|] eqn:E;
      [|discriminate].
    apply truthy_value_Some in E. destruct E as [E _].
    destruct (shown _); [|discriminate]. injection Ha as <-. exact E.
  - pose proof (createSessionIssue_spec host s m w1) as C.
    pose proof (createSessionIssue_no_notes s m w1) as N2.
    destruct (createSessionIssue host s m w1) as [[[[a m']|e] w'] ev].
    + rewrite notes_app, N, N2. split; [reflexivity|].
      destruct C as (Hs & _). rewrite Hs. apply JsObjectFacts.get_set_same.
    + rewrite notes_app, N, N2. auto.
Qed.

End CloseFacts.

Example sessionSummary_counts :
  sessionSummary [mkTodo "1" "x" "completed" "low"; mkTodo "2" "y" "cancelled" "low"]
  = "Session complete: 1 completed, 1 cancelled".
Proof. reflexivity. Qed.

(** C8 (as the code has it).  When the incoming list is empty or has a todo
    that is neither completed nor cancelled, a sync runs no notes update at
    all: [closeSessionIssue] is not called.  When the list is not empty and
    every todo is completed or cancelled, a sync that returns has gone
    through the session resolution, the loop over the todos and the closes
    of the removed todos, none of which is a notes update, and ends its
    commands with the notes update that writes the summary on the session's
    anchor, followed by the close of the anchor with the summary as reason
    if and only if the tracker, in the state those earlier commands left it
    in, lets that notes update through.  [closeSessionIssue] itself always
    returns: it runs the notes update and, only when it went through, the
    close, and the failure of either is swallowed. *)
Theorem anchor_closed_when_all_terminal (host : Host) (s : string)
        (tl : list TodoItem) (w : World host) :
  let closes := (allComplete tl && negb (length tl =? 0)%nat)%bool in
  let summary := sessionSummary tl in
  match syncTodosToBeads host s tl w with
  | (r, w', ev) =>
      (closes = false -> notes ev = [])
      /\
      (closes = true -> r = Return tt ->
       exists a m0 w1 ev1 seen tm w2 ev2,
         getOrCreateSessionIssue host s (loaded (file w)) w
         = (Return (a, m0), w1, ev1)
         /\ syncLoop host a tl [] (todoMapOf s (ensureTodoMap s m0)) w1
            = (Return (seen, tm), w2, ev2)
         /\ JsObject.get s (sessions (loaded (file w'))) = Some a
         /\ let removed := map (fun kv => removedCmd (snd kv))
                               (removedEntries (JsObject.entries tm) seen) in
            let before := (commands ev1 ++ commands ev2 ++ removed)%list in
            let reply := bd host (BdUpdateNotes a summary)
                            (run_tolerated host removed (env w2)) in
            filter is_notes before = []
            /\ commands ev
               = (before ++
                  if quiet_ok (fst reply)
                  then [BdUpdateNotes a summary; BdClose a summary]
                  else [BdUpdateNotes a summary])%list)
      /\
      (forall a w0,
         match closeSessionIssue host a tl w0 with
         | (r0, _, ev0) =>
             r0 = Return tt
             /\ commands ev0
                = if quiet_ok (fst (bd host (BdUpdateNotes a summary) (env w0)))
                  then [BdUpdateNotes a summary; BdClose a summary]
                  else [BdUpdateNotes a summary]
         end)
  end.
Proof.
  cbv zeta.
  assert (Hswallow : forall a w0,
    match closeSessionIssue host a tl w0 with
    | (r0, _, ev0) =>
        r0 = Return tt
        /\ commands ev0
           = if quiet_ok (fst (bd host (BdUpdateNotes a (sessionSummary tl)) (env w0)))
             then [BdUpdateNotes a (sessionSummary tl); BdClose a (sessionSummary tl)]
             else [BdUpdateNotes a (sessionSummary tl)]
    end).
  { intros a w0. rewrite closeSessionIssue_eq. cbv zeta.
    destruct (quiet_ok _); split; reflexivity. }
  rewrite sync_unfold.
  pose proof (resolve_anchor host s (loaded (file w)) w) as R.
  destruct (getOrCreateSessionIssue host s (loaded (file w)) w)
    as [[[[a m0]|e] w1] ev1]; destruct R as (N1 & Hanchor).
  2:{ split; [auto|]. split; [discriminate|exact Hswallow]. }
  cbv zeta.
  pose proof (syncLoop_no_notes host a tl [] (todoMapOf s (ensureTodoMap s m0)) w1) as N2.
  destruct (syncLoop host a tl [] (todoMapOf s (ensureTodoMap s m0)) w1)
    as [[[[seen tm]|e] w2] ev2] eqn:Hloop.
  2:{ split; [intros _; rewrite notes_app, N1, N2; reflexivity|].
      split; [discriminate|exact Hswallow]. }
  unfold closeIfAllComplete.
  destruct (allComplete tl && negb (length tl =? 0)%nat)%bool.
  - (* the session issue is closed *)
    rewrite closeSessionIssue_eq. cbv zeta. cbn [env file].
    set (cs := map (fun kv => removedCmd (snd kv)) (removedEntries _ seen)).
    set (e3 := run_tolerated host cs (env w2)).
    set (r1 := bd host (BdUpdateNotes a (sessionSummary tl)) e3).
    assert (Hbefore : filter is_notes (commands ev1 ++ commands ev2 ++ cs)%list = []).
    { rewrite !filter_app. fold (notes ev1). fold (notes ev2).
      rewrite N1, N2. cbn [app].
      pose proof (notes_removed (removedEntries (JsObject.entries tm) seen)) as N3.
      unfold notes in N3. rewrite commands_bd in N3. exact N3. }
    destruct (quiet_ok (fst r1)) eqn:Hq;
      rewrite saveMapping_cases; cbv zeta;
      destruct (fst (fs_write host _));
      (split; [discriminate|]); (split; [|exact Hswallow]);
      try discriminate; intros _ _;
      exists a, m0, w1, ev1, seen, tm, w2, ev2;
      (split; [reflexivity|]); (split; [exact Hloop|]);
      (split; [cbn [file loaded sessions withTodoMap];
               rewrite sessions_ensure; exact Hanchor|]);
      (split; [exact Hbefore|]);
      fold cs; fold e3; fold r1; rewrite Hq;
      rewrite !commands_app, commands_bd; cbn [commands flat_map app];
      rewrite <- !app_assoc; reflexivity.
  - (* it is not *)
    unfold ret. rewrite saveMapping_cases. cbv zeta.
    destruct (fst (fs_write host _));
      (split; [|split; [discriminate|exact Hswallow]]); intros _;
      rewrite !notes_app, N1, N2, notes_removed; reflexivity.
Qed.

Lemma anchor_closed_when_all_terminal_witness :
  let run := syncTodosToBeads Ref.host Scenario.session [Scenario.t_b] Scenario.w_ok in
  let summary := sessionSummary [Scenario.t_b] in
  exists a m0 w1 ev1 seen tm w2 ev2,
    getOrCreateSessionIssue Ref.host Scenario.session (loaded (file Scenario.w_ok))
                            Scenario.w_ok
    = (Return (a, m0), w1, ev1)
    /\ syncLoop Ref.host a [Scenario.t_b] []
                (todoMapOf Scenario.session (ensureTodoMap Scenario.session m0)) w1
       = (Return (seen, tm), w2, ev2)
    /\ JsObject.get Scenario.session (sessions (loaded (file (snd (fst run))))) = Some a
    /\ let removed := map (fun kv => removedCmd (snd kv))
                          (removedEntries (JsObject.entries tm) seen) in
       let before := (commands ev1 ++ commands ev2 ++ removed)%list in
       let reply := bd Ref.host (BdUpdateNotes a summary)
                       (run_tolerated Ref.host removed (env w2)) in
       filter is_notes before = []
       /\ commands (snd run)
          = (before ++
             if quiet_ok (fst reply)
             then [BdUpdateNotes a summary; BdClose a summary]
             else [BdUpdateNotes a summary])%list.
Proof.
  intros run summary.
  pose proof (anchor_closed_when_all_terminal Ref.host Scenario.session
                [Scenario.t_b] Scenario.w_ok) as T.
  cbv zeta in T.
  assert (E : syncTodosToBeads Ref.host Scenario.session [Scenario.t_b] Scenario.w_ok
              = (Return tt, snd (fst run), snd run)) by reflexivity.
  rewrite E in T. destruct T as (_ & T & _).
  exact (T eq_refl eq_refl).
Defined.

(** C8 as the specification states it fails: the list is not empty and its
    only todo is completed, but the tracker refuses the notes update, and
    the sync returns without having tried to close the anchor [bd-1]. *)
Lemma anchor_not_closed_counterexample :
  match syncTodosToBeads Ref.host Scenario.session [Scenario.t_b]
          Scenario.w_no_notes with
  | (r, w', ev) =>
      r = Return tt
      /\ allComplete [Scenario.t_b] = true
      /\ commands ev
         = [BdShow "bd-1"; createBeadsCmd "bd-1" Scenario.t_b;
            BdClose "bd-3" "Completed"; removedCmd "bd-2";
            BdUpdateNotes "bd-1" "Session complete: 1 completed, 0 cancelled"]
  end.
Proof. vm_compute. repeat split. Qed.

(* ------------------------------------------------------------------------- *)
(** ** Todos that already have an issue *)
(* ------------------------------------------------------------------------- *)

Lemma refContents_change id st l :
  map (fun i => (issue_id i, issue_title i, issue_description i, issue_priority i))
      (Ref.change_issue id (Ref.set_status st) l)
  = map (fun i => (issue_id i, issue_title i, issue_description i, issue_priority i)) l.
Proof.
  induction l as [|i l IH]; [reflexivity|].
  cbn [Ref.change_issue]. destruct (issue_id i =? id); cbn [map].
  - reflexivity.
  - rewrite IH. reflexivity.
Qed.

Lemma refContents_on_issue id st s :
  refContents (snd (Ref.on_issue id (Ref.set_status st) s)) = refContents s.
Proof.
  unfold Ref.on_issue. destruct (Ref.find_issue id (Ref.issues s)); [|reflexivity].
  unfold refContents. cbn [snd Ref.with_issues Ref.issues].
  apply refContents_change.
Qed.

(** The reference tracker keeps titles, descriptions and priorities through
    status updates and closes. *)
Lemma refContents_status e id st :
  refContents (snd (Ref.run (BdUpdateStatus id st) e)) = refContents e.
Proof.
  unfold Ref.run. destruct (Ref.fault e _); [reflexivity|].
  destruct id as [id| | |]; try reflexivity.
  destruct st as [st| | |]; try reflexivity. apply refContents_on_issue.
Qed.

Lemma refContents_close e id reason :
  refContents (snd (Ref.run (BdClose id reason) e)) = refContents e.
Proof.
  unfold Ref.run. destruct (Ref.fault e _); [reflexivity|].
  destruct id as [id| | |]; try reflexivity.
  destruct (Ref.find_issue id (Ref.issues e)) as [i|] eqn:F; [|reflexivity].
  destruct (issue_status i =? "closed"); [reflexivity|].
  apply refContents_on_issue.
Qed.

Section CorrelatedFacts.

Variable host : Host.
Implicit Types (w : World host) (tm : TodoMap).

(** Every [bd create] of the loop makes a child of the session issue, for a
    todo of the list whose id the loop found nothing usable for in the map
    it started from. *)
Lemma syncLoop_creates_uncorrelated a tl : forall seen tm w,
  match syncLoop host a tl seen tm w with
  | (_, _, ev) =>
      forall c, In c (creates ev) ->
        exists t, In t tl /\ c = createBeadsCmd a t
                  /\ truthyOperand (read (todo_id t) tm) = false
  end.
Proof.
  induction tl as [|t rest IH]; intros seen tm w.
  - simpl. intros c [].
  - cbn [syncLoop].
    destruct (truthyOperand (read (todo_id t) tm)) eqn:Hb.
    + unfold bind. rewrite updateBeadsIssue_eq.
      match goal with |- context [syncLoop host a rest ?s ?m ?x] =>
        specialize (IH s m x); destruct (syncLoop host a rest s m x) as [[r w'] ev]
      end.
      intros c Hc.
      change (EvBd (updateBeadsCmd (read (todo_id t) tm) t) :: ev)
        with ([EvBd (updateBeadsCmd (read (todo_id t) tm) t)] ++ ev)%list in Hc.
      rewrite creates_app in Hc. unfold creates at 1 in Hc.
      cbn [commands flat_map app filter] in Hc.
      rewrite is_create_updateBeadsCmd in Hc. cbn [app] in Hc.
      destruct (IH c Hc) as (t' & Ht' & -> & Hf). exists t'. auto using in_cons.
    + unfold bind. pose proof (createBeadsIssue_spec host a t w) as C.
      destruct (createBeadsIssue host a t w) as [[[newid|e] w1] ev1].
      * destruct C as (_ & _ & Cc & _).
        match goal with |- context [syncLoop host a rest ?s ?m ?x] =>
          specialize (IH s m x); destruct (syncLoop host a rest s m x) as [[r w'] ev]
        end.
        intros c Hc. rewrite creates_app, Cc in Hc. destruct Hc as [<-|Hc].
        -- exists t. split; [left; reflexivity|]. auto.
        -- destruct (IH c Hc) as (t' & Ht' & -> & Hf). exists t'.
           split; [right; assumption|]. split; [reflexivity|].
           destruct (String.eqb_spec (todo_id t') (todo_id t)) as [E|Hne].
           ++ rewrite E. exact Hb.
           ++ rewrite read_set_other in Hf by assumption. exact Hf.
      * destruct C as (_ & _ & Cc & _). intros c Hc. rewrite Cc in Hc.
        destruct Hc as [<-|[]]. exists t. split; [left; reflexivity|]. auto.
Qed.


End CorrelatedFacts.




(* ------------------------------------------------------------------------- *)
(** ** A backward sync on the reference tracker *)
(* ------------------------------------------------------------------------- *)

Lemma readTodosFromBeads_reads_back_witness :
  readTodosFromBeads Ref.host Scenario.session Scenario.w_fresh
  = (Return [], Scenario.w_fresh, [])
  /\ exists w' ev,
       readTodosFromBeads Ref.host Scenario.session Scenario.w_ok
       = (Return [mkTodo "a" "write tests" "pending" "high"], w', ev).
Proof.
  split.
  - apply (readTodosFromBeads_reads_back Ref.host Scenario.session Scenario.w_fresh).
    reflexivity.
  - destruct (readTodosFromBeads_reads_back Ref.host Scenario.session Scenario.w_ok)
      as (_ & Hsome & _).
    destruct (Hsome "bd-1" eq_refl) as (w' & ev & H & _); [discriminate|].
    exists w', ev. exact H.
Defined.

(* ------------------------------------------------------------------------- *)
(** ** Translating there and back *)
(* ------------------------------------------------------------------------- *)

(** X1.  A task priority that does not name a member of [Object.prototype]
    is sent to the tracker as a number, and that number read back is the
    priority itself when it is high, medium or low, and medium for any other
    string.  A priority that names such a member ([constructor],
    [toString], ...) is not sent as a number at all: the command gets the
    inherited member.  A tracker priority read as a task priority and sent
    again comes back as 1 for 0 and 1, as 3 for 3 and 4, and as 2 for every
    other number. *)
Theorem priority_round_trip :
  (forall p, inherited p = false ->
     exists n,
       priorityToBeads p = Number n
       /\ priorityFromBeads n
          = if p =? "high" then "high" else if p =? "low" then "low" else "medium")
  /\
  (forall p, inherited p = true -> priorityToBeads p = Member p)
  /\
  (forall n,
     priorityToBeads (priorityFromBeads n)
     = Number (if ((n =? 0) || (n =? 1))%Z then 1%Z
               else if ((n =? 3) || (n =? 4))%Z then 3%Z else 2%Z)).
Proof.
  split; [|split].
  - intros p Hi. unfold priorityToBeads, readNumber, member, PRIORITY_TO_BEADS.
    cbn [JsObject.get]. rewrite Hi.
    destruct (p =? "high"); [exists 1%Z; split; reflexivity|].
    destruct (p =? "medium") eqn:Em.
    + apply String.eqb_eq in Em. subst p. exists 2%Z. split; reflexivity.
    + destruct (p =? "low"); [exists 3%Z|exists 2%Z]; split; reflexivity.
  - exact priorityToBeads_inherited.
  - intros n. rewrite priorityFromBeads_table. unfold spec_priority_back.
    destruct ((n =? 0) || (n =? 1))%Z; [reflexivity|].
    destruct (n =? 2)%Z eqn:E2.
    + apply Z.eqb_eq in E2. subst n. reflexivity.
    + destruct ((n =? 3) || (n =? 4))%Z; reflexivity.
Qed.

Lemma priority_round_trip_witness :
  (exists n, priorityToBeads "low" = Number n /\ priorityFromBeads n = "low")
  /\ priorityToBeads "toString" = Member "toString".
Proof.
  destruct priority_round_trip as (Hback & Hmember & _). split.
  - apply (Hback "low"). reflexivity.
  - apply Hmember. reflexivity.
Defined.

(** X2.  If the tracker shows an issue in the status a todo was translated
    to, with the close reason the sync gave as its notes, then the todo read
    back has the status of the original todo, cancelled included.  A closed
    issue without notes is read back as completed, whatever it was. *)
Theorem status_round_trip (todoID : string) (todo : TodoItem) (issue : BeadsIssue) :
  (statusToBeads (todo_status todo) = Text (issue_status issue) ->
   issue_notes issue = Some (closeReason todo) ->
   todo_status (beadsIssueToTodo todoID issue) = todo_status todo)
  /\
  (issue_status issue = "closed" -> issue_notes issue = None ->
   todo_status (beadsIssueToTodo todoID issue) = "completed").
Proof.
  split.
  - unfold statusToBeads, read, STATUS_TO_BEADS, beadsIssueToTodo, closeReason.
    cbn [JsObject.get todo_status].
    destruct (String.eqb_spec (todo_status todo) "pending") as [E|_].
    { rewrite E. intros H _. injection H as <-. reflexivity. }
    destruct (String.eqb_spec (todo_status todo) "in_progress") as [E|_].
    { rewrite E. intros H _. injection H as <-. reflexivity. }
    destruct (String.eqb_spec (todo_status todo) "completed") as [E|_].
    { rewrite E. intros H ->. injection H as <-. reflexivity. }
    destruct (String.eqb_spec (todo_status todo) "cancelled") as [E|_].
    { rewrite E. intros H ->. injection H as <-. reflexivity. }
    unfold member. destruct (inherited (todo_status todo)); discriminate.
  - intros Hs Hn. unfold beadsIssueToTodo. cbn [todo_status].
    rewrite Hs, Hn. reflexivity.
Qed.

Lemma status_round_trip_witness :
  todo_status
    (beadsIssueToTodo "t"
       (mkIssue "bd-9" "title" None "closed" 2 "task" (Some "Cancelled in OpenCode")))
  = "cancelled"
  /\
  todo_status (beadsIssueToTodo "t" (mkIssue "bd-9" "title" None "closed" 2 "task" None))
  = "completed".
Proof.
  split.
  - apply (status_round_trip "t" (mkTodo "t" "title" "cancelled" "low")
             (mkIssue "bd-9" "title" None "closed" 2 "task"
                      (Some "Cancelled in OpenCode"))); reflexivity.
  - apply (status_round_trip "t" (mkTodo "t" "title" "cancelled" "low")
             (mkIssue "bd-9" "title" None "closed" 2 "task" None)); reflexivity.
Defined.

(** X3.  Whatever the tracker shows (any status string, any priority
    number, notes or not), the todo rebuilt from it is well formed: its
    status is one of the four task statuses and its priority one of the
    three task priorities. *)
Theorem beadsIssueToTodo_well_formed (todoID : string) (issue : BeadsIssue) :
  let todo := beadsIssueToTodo todoID issue in
  In (todo_status todo) ["pending"; "in_progress"; "completed"; "cancelled"]
  /\ In (todo_priority todo) ["high"; "medium"; "low"].
Proof.
  cbv zeta. split.
  - unfold beadsIssueToTodo. cbn [todo_status].
    destruct (issue_status issue =? "in_progress"); [simpl; tauto|].
    destruct (issue_status issue =? "closed"); [|simpl; tauto].
    destruct (issue_notes issue) as [n|]; [|simpl; tauto].
    destruct (includes "Cancelled" n); simpl; tauto.
  - unfold beadsIssueToTodo. cbn [todo_priority].
    rewrite priorityFromBeads_table. unfold spec_priority_back.
    destruct ((issue_priority issue =? 0) || (issue_priority issue =? 1))%Z;
      [simpl; tauto|].
    destruct (issue_priority issue =? 2)%Z; [simpl; tauto|].
    destruct ((issue_priority issue =? 3) || (issue_priority issue =? 4))%Z;
      simpl; tauto.
Qed.

(* ------------------------------------------------------------------------- *)
(** ** Creating the issue of a todo *)
(* ------------------------------------------------------------------------- *)

(** X4.  When the [bd create] of a todo's issue works, [createBeadsIssue]
    runs that command (a task under the session issue, with the translated
    priority and the todo id in the description) and then at most one more,
    on the new issue: the move to in_progress for a todo in progress, the
    close with its reason for a completed or cancelled todo, nothing for any
    other status.  It returns the new id when there is no second command or
    the tracker lets it through, and throws the error naming the todo, with
    the failed command as its cause, when the tracker refuses it. *)
Theorem createBeadsIssue_commands (host : Host) (a : string) (todo : TodoItem)
        (w : World host) (i : BeadsIssue) :
  fst (bd host (createBeadsCmd a todo) (env w)) = Stdout (Some (JIssue i)) ->
  let rid := issue_id i in
  let e1 := snd (bd host (createBeadsCmd a todo) (env w)) in
  let followUp :=
    if todo_status todo =? "in_progress" then [BdUpdateStatus rid "in_progress"]
    else if todo_status todo =? "completed" then [BdClose rid "Completed"]
    else if todo_status todo =? "cancelled" then [BdClose rid "Cancelled in OpenCode"]
    else [] in
  match createBeadsIssue host a todo w with
  | (r, w', ev) =>
      commands ev
      = (BdCreate (todo_content todo) "task" (priorityToBeads (todo_priority todo))
                  (Some a) ("OpenCode todo ID: " ++ todo_id todo) :: followUp)%list
      /\ writes ev = []
      /\ file w' = file w
      /\ r = match followUp with
             | [] => Return rid
             | c :: _ =>
                 if quiet_ok (fst (bd host c e1)) then Return rid
                 else Throw (FailedToCreateBeadsIssue (todo_id todo) (ShellError c))
             end
  end.
Proof.
  intros Hreply rid e1 followUp. subst rid e1 followUp.
  unfold createBeadsIssue, try_catch, bind, sh_json, json_id, throw, ret.
  destruct (bd host (createBeadsCmd a todo) (env w)) as [reply e] eqn:E.
  cbn [fst] in Hreply. subst reply. cbn [fst snd].
  unfold isTerminal, closeReason.
  destruct (todo_status todo =? "in_progress").
  - unfold sh_quiet; cbn [env file].
    destruct (bd host (BdUpdateStatus _ _) e) as [[|out] e']; cbn;
      repeat split.
  - destruct (String.eqb_spec (todo_status todo) "completed") as [Ec|Ec].
    + cbn [orb]. rewrite Ec. cbn [String.eqb Ascii.eqb Bool.eqb].
      unfold sh_quiet; cbn [env file].
      destruct (bd host (BdClose _ _) e) as [[|out] e']; cbn; repeat split.
    + cbn [orb].
      destruct (todo_status todo =? "cancelled").
      * unfold sh_quiet; cbn [env file].
        destruct (bd host (BdClose _ _) e) as [[|out] e']; cbn; repeat split.
      * cbn. repeat split.
Qed.

Lemma createBeadsIssue_commands_witness :
  match createBeadsIssue Ref.host "bd-1" Scenario.t_b Scenario.w_ok with
  | (r, _, ev) =>
      commands ev
      = [BdCreate "ship" "task" 3%Z (Some "bd-1") "OpenCode todo ID: b";
         BdClose "bd-3" "Completed"]
      /\ r = Return "bd-3"
  end.
Proof.
  pose proof (createBeadsIssue_commands Ref.host "bd-1" Scenario.t_b Scenario.w_ok
                (mkIssue "bd-3" "ship" (Some "OpenCode todo ID: b") "open" 3 "task" None)
                eq_refl) as H.
  cbv zeta in H.
  destruct (createBeadsIssue Ref.host "bd-1" Scenario.t_b Scenario.w_ok)
    as [[r w'] ev].
  destruct H as (H & _ & _ & Hr). split; [exact H|exact Hr].
Defined.

(** X5.  An issue can be created and lost: when the [bd create] of a
    completed or cancelled todo works but the close that follows fails, the
    sync loop throws at that todo, so the id of the issue the tracker now
    holds is never recorded in the todo map. *)
Theorem created_then_lost (host : Host) (a : string) (todo : TodoItem)
        (rest : list TodoItem) (seen : StringSet) (tm : TodoMap)
        (w : World host) (i : BeadsIssue) :
  truthyOperand (read (todo_id todo) tm) = false ->
  isTerminal todo = true ->
  todo_status todo <> "in_progress" ->
  let reply := bd host (createBeadsCmd a todo) (env w) in
  let close := BdClose (issue_id i) (closeReason todo) in
  fst reply = Stdout (Some (JIssue i)) ->
  fst (bd host close (snd reply)) = ExitError ->
  syncLoop host a (todo :: rest) seen tm w
  = (Throw (FailedToCreateBeadsIssue (todo_id todo) (ShellError close)),
     mkWorld (snd (bd host close (snd reply))) (file w),
     [EvBd (createBeadsCmd a todo); EvBd close]).
Proof.
  intros Hnone Hterm Hnot reply close Hreply Hclose. subst reply close.
  cbn [syncLoop]. rewrite Hnone. unfold bind at 1.
  unfold createBeadsIssue, try_catch, bind, sh_json, json_id, throw, ret.
  destruct (bd host (createBeadsCmd a todo) (env w)) as [r e].
  cbn [fst snd] in *. subst r. cbn [env file].
  apply String.eqb_neq in Hnot. rewrite Hnot, Hterm.
  unfold sh_quiet. cbn [env file].
  destruct (bd host (BdClose _ _) e) as [r' e']. cbn [fst snd] in *. subst r'.
  reflexivity.
Qed.

Lemma created_then_lost_witness :
  exists w',
    syncLoop Ref.host "bd-1" [Scenario.t_b; Scenario.t_c] [] [("a", "bd-2")] w_no_close
    = (Throw (FailedToCreateBeadsIssue "b" (ShellError (BdClose "bd-3" "Completed"))),
       w', [EvBd (createBeadsCmd "bd-1" Scenario.t_b); EvBd (BdClose "bd-3" "Completed")]).
Proof.
  eexists.
  apply (created_then_lost Ref.host "bd-1" Scenario.t_b [Scenario.t_c] []
           [("a", "bd-2")] w_no_close
           (mkIssue "bd-3" "ship" (Some "OpenCode todo ID: b") "open" 3 "task" None)).
  - reflexivity.
  - reflexivity.
  - discriminate.
  - reflexivity.
  - reflexivity.
Defined.

(* ------------------------------------------------------------------------- *)
(** ** The session issue: failure and repair *)
(* ------------------------------------------------------------------------- *)

Section AnchorFacts.

Variable host : Host.
Implicit Types (w : World host) (tm : TodoMap).

(** Every [bd create] of the loop makes a child of the session issue, for a
    todo of the list. *)
Lemma syncLoop_creates a tl : forall seen tm w,
  match syncLoop host a tl seen tm w with
  | (_, _, ev) =>
      forall c, In c (creates ev) -> exists t, In t tl /\ c = createBeadsCmd a t
  end.
Proof.
  intros seen tm w.
  pose proof (syncLoop_creates_uncorrelated host a tl seen tm w) as H.
  destruct (syncLoop host a tl seen tm w) as [[r w'] ev].
  intros c Hc. destruct (H c Hc) as (t & Ht & -> & _). exists t. auto.
Qed.

(** When [createSessionIssue] returns, the anchor it returns and records is
    the id the tracker gave to the issue it has just created. *)
Lemma createSessionIssue_returns s m w now e2 a m' w' ev :
  date_now host (env w) = (now, e2) ->
  createSessionIssue host s m w = (Return (a, m'), w', ev) ->
  created (fst (bd host (sessionIssueCmd host s now) e2)) = Some a
  /\ sessions m' = JsObject.set s a (sessions m)
  /\ ev = [EvBd (sessionIssueCmd host s now); EvWriteFile m'].
Proof.
  intros Hnow. unfold createSessionIssue, bind, Date_now. rewrite Hnow.
  unfold try_catch, bind, sh_json, json_id, throw, ret. cbn [env file].
  destruct (bd host (sessionIssueCmd host s now) e2) as [[|[[|i]|]] e];
    cbn [fst snd]; try discriminate.
  rewrite saveMapping_cases. cbv zeta. cbn [env file sessions todos].
  destruct (fst (fs_write host _)); [|discriminate].
  intros H. injection H as <- <- <- <-. repeat split.
Qed.

(** On a disk that refuses every write, creating a session issue fails,
    after the tracker has been asked. *)
Lemma createSessionIssue_readonly s m w :
  (forall e, fst (fs_write host e) = false) ->
  match createSessionIssue host s m w with
  | (r, w', ev) =>
      (exists cause, r = Throw (FailedToCreateSessionIssue cause))
      /\ file w' = file w /\ writes ev = []
      /\ forall now e1 id,
           date_now host (env w) = (now, e1) ->
           created (fst (bd host (sessionIssueCmd host s now) e1)) = Some id ->
           r = Throw (FailedToCreateSessionIssue FsError)
           /\ ev = [EvBd (sessionIssueCmd host s now)]
  end.
Proof.
  intros Hro. unfold createSessionIssue, bind, Date_now.
  destruct (date_now host (env w)) as [now e0]; simpl.
  unfold try_catch, bind, sh_json, json_id, throw, ret.
  destruct (bd host (sessionIssueCmd host s now) _) as [[|[[|i]|]] e] eqn:E;
    simpl in *;
    try (split; [eexists; reflexivity|]; split; [reflexivity|];
         split; [reflexivity|];
         intros now' e1 id H; injection H as <- <-; rewrite E; discriminate).
  rewrite saveMapping_cases. simpl. rewrite Hro. simpl.
  split; [eexists; reflexivity|]. split; [reflexivity|]. split; [reflexivity|].
  intros now' e1 id H _. injection H as <- <-. split; reflexivity.
Qed.

End AnchorFacts.

(** X6.  When no recorded anchor is found and the [bd create] of a new
    session issue fails, the sync throws [FailedToCreateSessionIssue] at
    once: whatever the todo list, no command is run for any todo and nothing
    is written. *)
Theorem anchor_failure_is_fatal (host : Host) (s : string) (tl : list TodoItem)
        (w w1 : World host) (ev1 : list Event) (now : Z) (e2 : Env host) :
  showSessionIssue host s (loaded (file w)) w = (Return None, w1, ev1) ->
  date_now host (env w1) = (now, e2) ->
  created (fst (bd host (sessionIssueCmd host s now) e2)) = None ->
  exists cause,
    syncTodosToBeads host s tl w
    = (Throw (FailedToCreateSessionIssue cause),
       mkWorld (snd (bd host (sessionIssueCmd host s now) e2)) (file w),
       (ev1 ++ [EvBd (sessionIssueCmd host s now)])%list).
Proof.
  intros Hshow Hnow Hfail.
  pose proof (showSessionIssue_eq host s (loaded (file w)) w) as S.
  rewrite Hshow in S. destruct S as (_ & Hf1 & _).
  rewrite sync_unfold. unfold getOrCreateSessionIssue, bind. rewrite Hshow.
  unfold createSessionIssue, bind, Date_now. rewrite Hnow.
  unfold try_catch, bind, sh_json, json_id, throw, ret. cbn [env file].
  destruct (bd host (sessionIssueCmd host s now) e2) as [[|[[|i]|]] e];
    cbn [fst snd env file created] in *; try discriminate;
    rewrite Hf1; eexists; reflexivity.
Qed.

Lemma anchor_failure_is_fatal_witness :
  exists cause w' ev,
    syncTodosToBeads Ref.host Scenario.session [Scenario.t_a; Scenario.t_c] w_no_epic
    = (Throw (FailedToCreateSessionIssue cause), w', ev)
    /\ commands ev = [BdShow "bd-1"; sessionIssueCmd Ref.host Scenario.session 2000].
Proof.
  destruct (anchor_failure_is_fatal Ref.host Scenario.session
              [Scenario.t_a; Scenario.t_c] w_no_epic
              (snd (fst (showSessionIssue Ref.host Scenario.session Scenario.doc
                           w_no_epic)))
              [EvBd (BdShow "bd-1")] 2000
              (snd (Ref.tick (Ref.mkState [Scenario.issue_a] 3 fails_on_epic 2000 true)))
              eq_refl eq_refl eq_refl) as [cause H].
  eexists cause, _, _. split; [exact H|reflexivity].
Defined.

(** X7.  When the recorded anchor is not found, a sync that returns has
    created a new session issue, has recorded the id the tracker gave to
    that issue as the anchor of the session in the persisted document, and
    has made every issue it then created for a todo a child of that new
    anchor; it has created nothing else. *)
Theorem anchor_self_healing (host : Host) (s : string) (tl : list TodoItem)
        (w w1 w' : World host) (ev1 ev : list Event) (now : Z) (e2 : Env host) :
  showSessionIssue host s (loaded (file w)) w = (Return None, w1, ev1) ->
  date_now host (env w1) = (now, e2) ->
  syncTodosToBeads host s tl w = (Return tt, w', ev) ->
  exists a loopCreates,
    created (fst (bd host (sessionIssueCmd host s now) e2)) = Some a
    /\ JsObject.get s (sessions (loaded (file w'))) = Some a
    /\ creates ev = (sessionIssueCmd host s now :: loopCreates)%list
    /\ forall c, In c loopCreates -> exists t, In t tl /\ c = createBeadsCmd a t.
Proof.
  intros Hshow Hnow Hsync.
  destruct (sync_returns host s tl w w' ev Hsync)
    as (a & m0 & w1' & ev1' & seen & tm & w2 & ev2 & w4 & ev4 & t
        & Hres & Hloop & Hclose & Hfile & Hev).
  cbv zeta in *.
  pose proof (showSessionIssue_eq host s (loaded (file w)) w) as S.
  rewrite Hshow in S. destruct S as (_ & _ & _ & Hcs & _).
  unfold getOrCreateSessionIssue, bind in Hres. rewrite Hshow in Hres.
  destruct (createSessionIssue host s (loaded (file w)) w1)
    as [[[[a' m']|e] w''] ev''] eqn:Hcreate; [|discriminate].
  injection Hres as -> -> -> <-.
  destruct (createSessionIssue_returns host s _ w1 now e2 a m0 w1' ev'' Hnow Hcreate)
    as (Hid & Hs & ->).
  pose proof (syncLoop_creates host a tl [] (todoMapOf s (ensureTodoMap s m0)) w1') as L.
  rewrite Hloop in L.
  pose proof (closeIfAllComplete_spec host a tl
                (mkWorld (run_tolerated host
                   (map (fun kv => removedCmd (snd kv))
                        (removedEntries (JsObject.entries tm) seen)) (env w2))
                   (file w2))) as C.
  rewrite Hclose in C. destruct C as (_ & _ & _ & Hc4).
  assert (Hcreates : creates ev
                     = (sessionIssueCmd host s now :: creates ev2)%list).
  { rewrite Hev, !creates_app, Hcs, Hc4.
    assert (Hnone' : forall l : list (string * string),
              creates (map EvBd (map (fun kv => removedCmd (snd kv)) l)) = []).
    { intros l. unfold creates. rewrite commands_bd.
      induction l as [|kv l IH]; [reflexivity|exact IH]. }
    rewrite Hnone'. cbn. rewrite app_nil_r. reflexivity. }
  exists a, (creates ev2). split; [exact Hid|]. split; [|split].
  - rewrite Hfile. cbn [loaded sessions]. rewrite sessions_ensure, Hs.
    apply JsObjectFacts.get_set_same.
  - exact Hcreates.
  - exact L.
Qed.

Lemma anchor_self_healing_witness :
  let run := syncTodosToBeads Ref.host Scenario.session [Scenario.t_a]
               Scenario.w_lost_anchor in
  exists a loopCreates,
    created (fst (bd Ref.host (sessionIssueCmd Ref.host Scenario.session 2000)
                     (snd (Ref.tick (Ref.mkState [Scenario.issue_a] 3 Ref.no_fault
                                                 2000 true)))))
    = Some a
    /\ JsObject.get Scenario.session (sessions (loaded (file (snd (fst run))))) = Some a
    /\ creates (snd run)
       = (sessionIssueCmd Ref.host Scenario.session 2000 :: loopCreates)%list
    /\ forall c, In c loopCreates ->
         exists t, In t [Scenario.t_a] /\ c = createBeadsCmd a t.
Proof.
  intros run.
  apply (anchor_self_healing Ref.host Scenario.session [Scenario.t_a]
           Scenario.w_lost_anchor
           (snd (fst (showSessionIssue Ref.host Scenario.session Scenario.doc
                        Scenario.w_lost_anchor)))
           (snd (fst run)) [EvBd (BdShow "bd-1")] (snd run) 2000
           (snd (Ref.tick (Ref.mkState [Scenario.issue_a] 3 Ref.no_fault 2000 true))));
    reflexivity.
Defined.

(** X8.  When the tracker has created the new session issue but the
    document cannot be written, [createSessionIssue] reports a failed
    creation with the write error as its cause, and the issue the tracker
    now holds is recorded nowhere. *)
Theorem anchor_created_but_not_recorded (host : Host) (s : string)
        (m : TodoBeadsMapping) (w : World host) (now : Z) (e1 : Env host)
        (id : string) :
  (forall e, fst (fs_write host e) = false) ->
  date_now host (env w) = (now, e1) ->
  created (fst (bd host (sessionIssueCmd host s now) e1)) = Some id ->
  exists w',
    createSessionIssue host s m w
    = (Throw (FailedToCreateSessionIssue FsError), w',
       [EvBd (sessionIssueCmd host s now)])
    /\ file w' = file w.
Proof.
  intros Hro Hnow Hid.
  pose proof (createSessionIssue_readonly host s m w Hro) as C.
  destruct (createSessionIssue host s m w) as [[r w'] ev].
  destruct C as (_ & Hf & _ & Hcase).
  destruct (Hcase now e1 id Hnow Hid) as (-> & ->).
  exists w'. split; [reflexivity|exact Hf].
Qed.

Lemma anchor_created_but_not_recorded_witness :
  exists w',
    createSessionIssue ReadOnly.host Scenario.session emptyMapping ReadOnly.w_fresh
    = (Throw (FailedToCreateSessionIssue FsError), w',
       [EvBd (sessionIssueCmd ReadOnly.host Scenario.session 1000)])
    /\ file w' = FileAbsent.
Proof.
  apply (anchor_created_but_not_recorded ReadOnly.host Scenario.session emptyMapping
           ReadOnly.w_fresh 1000 (snd (Ref.tick Ref.fresh)) "bd-1").
  - intros e. reflexivity.
  - reflexivity.
  - reflexivity.
Defined.

(** X9.  On a disk that refuses every write, every sync throws and leaves
    the mapping file as it was, whatever it has done to the tracker. *)
Theorem readonly_disk_sync_throws (host : Host) (s : string) (tl : list TodoItem)
        (w : World host) :
  (forall e, fst (fs_write host e) = false) ->
  match syncTodosToBeads host s tl w with
  | (r, w', ev) => (exists e, r = Throw e) /\ file w' = file w /\ writes ev = []
  end.
Proof.
  intros Hro. rewrite sync_unfold.
  assert (Hres :
    match getOrCreateSessionIssue host s (loaded (file w)) w with
    | (r1, w1, ev1) =>
        file w1 = file w /\ writes ev1 = []
        /\ match r1 with Return _ => True | Throw _ => True end
    end).
  { unfold getOrCreateSessionIssue, bind.
    pose proof (showSessionIssue_eq host s (loaded (file w)) w) as S.
    destruct (showSessionIssue host s (loaded (file w)) w) as [[r1 w1] ev1].
    destruct S as (-> & Hf & Hw & _).
    destruct (recordedAnchor host s (loaded (file w)) w).
    - unfold ret. rewrite app_nil_r. auto.
    - pose proof (createSessionIssue_readonly host s (loaded (file w)) w1 Hro) as C.
      destruct (createSessionIssue host s (loaded (file w)) w1) as [[r w'] ev].
      destruct C as ((cause & ->) & Hf' & Hw' & _).
      rewrite writes_app, Hw, Hw', Hf', Hf. auto. }
  destruct (getOrCreateSessionIssue host s (loaded (file w)) w)
    as [[[[a m0]|e] w1] ev1]; destruct Hres as (Hf1 & Hw1 & _).
  2:{ split; [eexists; reflexivity|]. auto. }
  cbv zeta.
  pose proof (syncLoop_spec host a tl [] (todoMapOf s (ensureTodoMap s m0)) w1) as L.
  destruct (syncLoop host a tl [] _ w1) as [[[[seen tm]|e] w2] ev2];
    destruct L as (Hf2 & Hw2 & _).
  2:{ split; [eexists; reflexivity|]. rewrite writes_app, Hw1, Hw2, Hf2. auto. }
  match goal with |- context [closeIfAllComplete host a tl ?x] =>
    pose proof (closeIfAllComplete_spec host a tl x) as C;
    destruct (closeIfAllComplete host a tl x) as [[r4 w4] ev4]
  end.
  destruct C as (-> & Hf4 & Hw4 & _). cbn [file] in Hf4.
  rewrite saveMapping_cases. cbv zeta. rewrite Hro.
  split; [eexists; reflexivity|]. cbn [file].
  rewrite !writes_app, Hw1, Hw2, Hw4, writes_bd, Hf4, Hf2. auto.
Qed.

Lemma readonly_disk_sync_throws_witness :
  match syncTodosToBeads ReadOnly.host Scenario.session [Scenario.t_c] ReadOnly.w_ok with
  | (r, w', ev) =>
      (exists e, r = Throw e) /\ file w' = file ReadOnly.w_ok /\ writes ev = []
  end.
Proof.
  apply (readonly_disk_sync_throws ReadOnly.host Scenario.session [Scenario.t_c]
           ReadOnly.w_ok).
  intros e. reflexivity.
Defined.

(* ------------------------------------------------------------------------- *)
(** ** A sync in the steady state *)
(* ------------------------------------------------------------------------- *)

Lemma removedEntries_ext es s1 s2 :
  (forall x, set_has x s1 = set_has x s2) ->
  removedEntries es s1 = removedEntries es s2.
Proof.
  intros H. unfold removedEntries. apply filter_ext. intros kv. rewrite H. reflexivity.
Qed.

Lemma run_tolerated_app (host : Host) cs1 : forall cs2 (e : Env host),
  run_tolerated host (cs1 ++ cs2)%list e
  = run_tolerated host cs2 (run_tolerated host cs1 e).
Proof.
  induction cs1 as [|c cs1 IH]; intros cs2 e; [reflexivity|].
  cbn [app run_tolerated]. apply IH.
Qed.

(** X10.  When the recorded anchor is found and every incoming todo already
    has a usable correlation, the commands of a sync are exactly: the show
    of the anchor; for each todo in order, its one status update or close;
    the close of each recorded issue whose todo is not in the list, in the
    order of the map; and, for a non-empty list of completed or cancelled
    todos only, the notes update of the anchor, followed by the close of the
    anchor if and only if the tracker, after all the commands before, lets
    the notes update through.  Nothing is created, and the sync can only
    fail on the final write. *)
Theorem steady_state_sync (host : Host) (s : string) (tl : list TodoItem)
        (w : World host) (a : string) :
  recordedAnchor host s (loaded (file w)) w = Some a ->
  (forall t, In t tl ->
     truthy_value (JsObject.get (todo_id t) (todoMapOf s (loaded (file w)))) <> None) ->
  let before := todoMapOf s (loaded (file w)) in
  let summary := sessionSummary tl in
  let updates := map (updateCmdFor before) tl in
  let removed := map (fun kv => removedCmd (snd kv))
                     (removedEntries (JsObject.entries before) (ids tl)) in
  let e3 := run_tolerated host (BdShow a :: updates ++ removed)%list (env w) in
  let closing :=
    if (allComplete tl && negb (length tl =? 0)%nat)%bool then
      if quiet_ok (fst (bd host (BdUpdateNotes a summary) e3))
      then [BdUpdateNotes a summary; BdClose a summary]
      else [BdUpdateNotes a summary]
    else [] in
  match syncTodosToBeads host s tl w with
  | (r, w', ev) =>
      commands ev = (BdShow a :: updates ++ removed ++ closing)%list
      /\ creates ev = []
      /\ (r = Return tt \/ r = Throw FsError)
  end.
Proof.
  intros Ha Hall before summary updates removed e3 closing.
  assert (Hall' : forall t, In t tl -> truthyOperand (read (todo_id t) before) = true).
  { intros t Ht. specialize (Hall t Ht). fold before in Hall.
    destruct (truthy_value (JsObject.get (todo_id t) before)) as [b|] eqn:Hb;
      [|congruence].
    apply (read_usable _ _ _ Hb). }
  assert (Hcreates : forall ev, commands ev
                                = (BdShow a :: updates ++ removed ++ closing)%list ->
                                creates ev = []).
  { intros ev Hev. unfold creates. rewrite Hev. cbn [filter is_create].
    rewrite !filter_app.
    assert (H1 : filter is_create updates = []).
    { unfold updates. clear. induction tl as [|t tl IH]; [reflexivity|].
      cbn [map filter]. unfold updateCmdFor at 1.
      rewrite is_create_updateBeadsCmd. exact IH. }
    assert (H2 : filter is_create removed = []).
    { unfold removed. generalize (removedEntries (JsObject.entries before) (ids tl)).
      intros l. induction l as [|kv l IH]; [reflexivity|exact IH]. }
    assert (H3 : filter is_create closing = []).
    { unfold closing. destruct (allComplete tl && _)%bool; [|reflexivity].
      destruct (quiet_ok _); reflexivity. }
    rewrite H1, H2, H3. reflexivity. }
  assert (Hgoal :
    match syncTodosToBeads host s tl w with
    | (r, w', ev) =>
        commands ev = (BdShow a :: updates ++ removed ++ closing)%list
        /\ (r = Return tt \/ r = Throw FsError)
    end).
  2:{ destruct (syncTodosToBeads host s tl w) as [[r w'] ev].
      destruct Hgoal as [Hc Hr].
      split; [exact Hc|]. split; [apply Hcreates; exact Hc|exact Hr]. }
  clear Hcreates. subst closing e3.
  rewrite sync_unfold, (resolve_found host _ _ _ _ Ha). cbv zeta.
  rewrite todoMapOf_ensure. fold before.
  match goal with |- context [syncLoop host a tl [] before ?x] =>
    destruct (syncLoop_correlated host a tl [] before x Hall') as [seen Hloop];
    pose proof (syncLoop_spec host a tl [] before x) as L
  end.
  rewrite Hloop in L |- *. destruct L as (_ & _ & Hseen & _).
  rewrite (removedEntries_ext (JsObject.entries before) seen (ids tl))
    by (intros x; rewrite Hseen; reflexivity).
  fold updates. fold removed.
  cbn [run_tolerated]. rewrite run_tolerated_app.
  unfold closeIfAllComplete.
  destruct (allComplete tl && negb (length tl =? 0)%nat)%bool.
  - rewrite closeSessionIssue_eq. cbv zeta. cbn [env file]. fold summary.
    destruct (quiet_ok _);
      rewrite saveMapping_cases; cbv zeta;
      destruct (fst (fs_write host _));
      (split; [rewrite !commands_app, !commands_bd; cbn [commands flat_map app];
               rewrite ?app_nil_r; reflexivity|auto]).
  - unfold ret. rewrite saveMapping_cases. cbv zeta.
    destruct (fst (fs_write host _));
      (split; [rewrite !commands_app, !commands_bd; cbn [commands flat_map app];
               rewrite ?app_nil_r; reflexivity|auto]).
Qed.

Lemma steady_state_sync_witness :
  match syncTodosToBeads Ref.host Scenario.session
          [mkTodo "a" "write tests" "completed" "high"] Scenario.w_ok with
  | (r, w', ev) =>
      commands ev
      = [BdShow "bd-1"; BdClose "bd-2" "Completed";
         BdUpdateNotes "bd-1" "Session complete: 1 completed, 0 cancelled";
         BdClose "bd-1" "Session complete: 1 completed, 0 cancelled"]
      /\ creates ev = []
      /\ (r = Return tt \/ r = Throw FsError)
  end.
Proof.
  pose proof (steady_state_sync Ref.host Scenario.session
                [mkTodo "a" "write tests" "completed" "high"] Scenario.w_ok "bd-1"
                eq_refl) as H.
  cbv zeta in H.
  assert (Hall : forall t, In t [mkTodo "a" "write tests" "completed" "high"] ->
            truthy_value (JsObject.get (todo_id t)
                            (todoMapOf Scenario.session (loaded (file Scenario.w_ok))))
            <> None).
  { intros t [<-|[]]. discriminate. }
  exact (H Hall).
Defined.

(* ------------------------------------------------------------------------- *)
(** ** What a backward sync can return *)
(* ------------------------------------------------------------------------- *)

Lemma subseq_nil_l {A : Type} (l : list A) : subseq [] l.
Proof. induction l; constructor; assumption. Qed.

Lemma spec_readBack_subseq (host : Host) es : forall e : Env host,
  subseq (map todo_id (spec_readBack host es e)) (map fst es).
Proof.
  induction es as [|[k b] es IH]; intros e; cbn [spec_readBack map fst].
  - constructor.
  - destruct (shown (fst (bd host (BdShow b) e))).
    + cbn [map spec_task todo_id]. apply subseq_keep. apply IH.
    + apply subseq_skip. apply IH.
Qed.

(** X11.  [readTodosFromBeads] invents nothing: the ids of the todos it
    returns are ids recorded in the session's todo map, in the order of the
    map, each entry giving at most one todo. *)
Theorem readTodosFromBeads_ids (host : Host) (s : string) (w : World host) :
  match readTodosFromBeads host s w with
  | (r, _, _) =>
      exists l,
        r = Return l
        /\ subseq (map todo_id l)
                  (map fst (JsObject.entries (todoMapOf s (loaded (file w)))))
  end.
Proof.
  unfold readTodosFromBeads, bind. rewrite loadMapping_eq.
  destruct (truthy_value _).
  - destruct (readLoop_spec host (JsObject.entries (todoMapOf s (loaded (file w))))
                [] w) as (w' & ev & -> & _).
    eexists. split; [reflexivity|]. apply spec_readBack_subseq.
  - exists []. split; [reflexivity|]. apply subseq_nil_l.
Qed.

(* ------------------------------------------------------------------------- *)
(** ** Sessions do not interfere *)
(* ------------------------------------------------------------------------- *)

Lemma sync_keeps_other_anchors (host : Host) s tl (w : World host) :
  match syncTodosToBeads host s tl w with
  | (_, w', _) =>
      forall s', s' <> s ->
        JsObject.get s' (sessions (loaded (file w')))
        = JsObject.get s' (sessions (loaded (file w)))
  end.
Proof.
  rewrite sync_unfold.
  assert (Hres :
    match getOrCreateSessionIssue host s (loaded (file w)) w with
    | (r1, w1, _) =>
        (forall s', s' <> s ->
           JsObject.get s' (sessions (loaded (file w1)))
           = JsObject.get s' (sessions (loaded (file w))))
        /\ match r1 with
           | Return (_, m0) =>
               forall s', s' <> s ->
                 JsObject.get s' (sessions m0)
                 = JsObject.get s' (sessions (loaded (file w)))
           | Throw _ => True
           end
    end).
  { destruct (recordedAnchor host s (loaded (file w)) w) as [a|] eqn:Ha.
    - rewrite (resolve_found host _ _ _ _ Ha). cbn [file]. auto.
    - pose proof (resolve_missing host _ _ _ Ha) as R.
      destruct (getOrCreateSessionIssue host s (loaded (file w)) w)
        as [[[[a m']|e] w1] ev1].
      + destruct R as (Hs & _ & Hf & _). rewrite Hf. cbn [loaded]. rewrite Hs.
        split; intros s' Hs'; apply JsObjectFacts.get_set_other; assumption.
      + destruct R as (_ & Hf & _). rewrite Hf. auto. }
  destruct (getOrCreateSessionIssue host s (loaded (file w)) w)
    as [[[[a m0]|e] w1] ev1]; [|tauto].
  destruct Hres as (Hw1 & Hm0). cbv zeta.
  pose proof (syncLoop_spec host a tl [] (todoMapOf s (ensureTodoMap s m0)) w1) as L.
  destruct (syncLoop host a tl [] _ w1) as [[[[seen tm]|e] w2] ev2];
    destruct L as (Hf2 & _); [|rewrite Hf2; exact Hw1].
  match goal with |- context [closeIfAllComplete host a tl ?x] =>
    pose proof (closeIfAllComplete_spec host a tl x) as C;
    destruct (closeIfAllComplete host a tl x) as [[r4 w4] ev4]
  end.
  destruct C as (-> & Hf4 & _). cbn [file] in Hf4.
  rewrite saveMapping_cases. cbv zeta.
  destruct (fst (fs_write host _)).
  - cbn [file loaded sessions withTodoMap]. rewrite sessions_ensure. exact Hm0.
  - cbn [file]. rewrite Hf4, Hf2. exact Hw1.
Qed.

(** X12.  A sync of one session changes, in the persisted document, neither
    the anchor nor the todo map of any other session, whether it returns or
    throws. *)
Theorem sync_leaves_other_sessions (host : Host) (s : string) (tl : list TodoItem)
        (w : World host) :
  match syncTodosToBeads host s tl w with
  | (_, w', _) =>
      forall s', s' <> s ->
        JsObject.get s' (sessions (loaded (file w')))
        = JsObject.get s' (sessions (loaded (file w)))
        /\ JsObject.get s' (todos (loaded (file w')))
           = JsObject.get s' (todos (loaded (file w)))
  end.
Proof.
  pose proof (sync_keeps_other_anchors host s tl w) as A.
  pose proof (sync_keeps_other_sessions host s tl w) as T.
  destruct (syncTodosToBeads host s tl w) as [[r w'] ev].
  intros s' Hne. split; [apply A|apply T]; assumption.
Qed.

Lemma sync_leaves_other_sessions_witness :
  match syncTodosToBeads Ref.host "another session" [Scenario.t_c] Scenario.w_ok with
  | (_, w', _) =>
      JsObject.get Scenario.session (sessions (loaded (file w'))) = Some "bd-1"
      /\ JsObject.get Scenario.session (todos (loaded (file w')))
         = Some [("a", "bd-2")]
  end.
Proof.
  pose proof (sync_leaves_other_sessions Ref.host "another session" [Scenario.t_c]
                Scenario.w_ok) as H.
  destruct (syncTodosToBeads Ref.host "another session" [Scenario.t_c] Scenario.w_ok)
    as [[r w'] ev].
  apply (H Scenario.session). discriminate.
Defined.

(* ------------------------------------------------------------------------- *)
(** ** Todos that share an id *)
(* ------------------------------------------------------------------------- *)

Lemma createBeadsIssue_returns (host : Host) a t (w : World host) :
  match createBeadsIssue host a t w with
  | (Return rid, _, _) =>
      created (fst (bd host (createBeadsCmd a t) (env w))) = Some rid
  | (Throw _, _, _) => True
  end.
Proof.
  unfold createBeadsIssue, try_catch, bind, sh_json, json_id, throw, ret.
  destruct (bd host (createBeadsCmd _ _) (env w)) as [[|[[|i]|]] e]; simpl;
    try exact I.
  destruct (todo_status t =? "in_progress").
  - unfold sh_quiet; simpl.
    destruct (bd host (BdUpdateStatus _ _) e) as [[|out] e']; simpl; auto.
  - destruct (isTerminal t); simpl; [|reflexivity].
    unfold sh_quiet; simpl.
    destruct (bd host (BdClose _ _) e) as [[|out] e']; simpl; auto.
Qed.

(** The loop creates an issue for a todo exactly when the id is new to the
    map it started from and has not been created earlier in the list. *)
Lemma syncLoop_creates_new (host : Host) (a : string) (tm0 : TodoMap)
      (tl : list TodoItem) :
  (forall title type priority parent description e id,
     created (fst (bd host (BdCreate title type priority parent description) e))
     = Some id -> id <> "") ->
  forall (met : StringSet) (seen : StringSet) (tm : TodoMap) (w : World host),
    (forall k, uncorrelated tm k
               = (uncorrelated tm0 k && negb (set_has k met))%bool) ->
    match syncLoop host a tl seen tm w with
    | (Return _, _, ev) => creates ev = map (createBeadsCmd a) (newTodos tm0 met tl)
    | (Throw _, _, ev) =>
        exists n, creates ev = map (createBeadsCmd a) (firstn n (newTodos tm0 met tl))
    end.
Proof.
  intros Hids. induction tl as [|t rest IH]; intros met seen tm w Hinv;
    [reflexivity|].
  cbn [syncLoop newTodos]. rewrite <- Hinv.
  change (uncorrelated tm (todo_id t))
    with (negb (truthyOperand (read (todo_id t) tm))).
  destruct (truthyOperand (read (todo_id t) tm)) eqn:Hb; cbn [negb].
  - unfold bind. rewrite updateBeadsIssue_eq.
    match goal with |- context [syncLoop host a rest ?s ?m ?x] =>
      specialize (IH met s m x Hinv);
      destruct (syncLoop host a rest s m x) as [[r w'] ev]
    end.
    assert (E : creates (EvBd (updateBeadsCmd (read (todo_id t) tm) t) :: ev)
                = creates ev).
    { change (EvBd ?c :: ev) with ([EvBd c] ++ ev)%list. rewrite creates_app.
      unfold creates at 1. cbn [commands flat_map app filter].
      rewrite is_create_updateBeadsCmd. reflexivity. }
    destruct r; cbn [app]; cbv beta iota; rewrite E; exact IH.
  - unfold bind. pose proof (createBeadsIssue_spec host a t w) as C.
    pose proof (createBeadsIssue_returns host a t w) as R.
    destruct (createBeadsIssue host a t w) as [[[newid|e] w1] ev1].
    + destruct C as (_ & _ & Cc & _).
      assert (Hne : newid <> "") by (apply Hids in R; exact R).
      match goal with |- context [syncLoop host a rest ?s ?m ?x] =>
        specialize (IH (todo_id t :: met) s m x);
        destruct (syncLoop host a rest s m x) as [[r w'] ev]
      end.
      assert (Hinv' : forall k,
                uncorrelated (JsObject.set (todo_id t) newid tm) k
                = (uncorrelated tm0 k && negb (set_has k (todo_id t :: met)))%bool).
      { intros k. cbn [set_has existsb]. fold (set_has k met).
        destruct (String.eqb_spec k (todo_id t)) as [->|Hk].
        - unfold uncorrelated at 1. rewrite read_set_same. cbn [truthyOperand].
          unfold truthy. apply String.eqb_neq in Hne. rewrite Hne.
          cbn [negb orb]. rewrite andb_false_r. reflexivity.
        - unfold uncorrelated at 1. rewrite read_set_other by assumption.
          cbn [orb]. apply Hinv. }
      specialize (IH Hinv'). rewrite creates_app, Cc. cbn [app map].
      destruct r as [res|e].
      * rewrite IH. reflexivity.
      * destruct IH as [n IH]. exists (S n). rewrite IH. reflexivity.
    + destruct C as (_ & _ & Cc & _). exists 1. rewrite Cc. reflexivity.
Qed.

(** X13.  With a tracker that never hands out an empty id, the loop of a
    sync that returns has run exactly one [bd create] for each distinct todo
    id it found nothing usable for in the map it started from: the create of
    the first todo with that id, in the order of the list; a todo whose id
    occurred earlier in the list is not created again.  A loop that throws
    has run the first of those creates. *)
Theorem one_create_per_new_id (host : Host) (a : string) (tl : list TodoItem)
        (seen : StringSet) (tm : TodoMap) (w : World host) :
  (forall title type priority parent description e id,
     created (fst (bd host (BdCreate title type priority parent description) e))
     = Some id -> id <> "") ->
  match syncLoop host a tl seen tm w with
  | (Return _, _, ev) => creates ev = map (createBeadsCmd a) (newTodos tm [] tl)
  | (Throw _, _, ev) =>
      exists n, creates ev = map (createBeadsCmd a) (firstn n (newTodos tm [] tl))
  end.
Proof.
  intros Hids. apply (syncLoop_creates_new host a tm tl Hids [] seen tm w).
  intros k. cbn [set_has existsb negb]. rewrite andb_true_r. reflexivity.
Qed.

Lemma ref_ids_not_empty :
  forall title type priority parent description (e : Env Ref.host) id,
    created (fst (bd Ref.host (BdCreate title type priority parent description) e))
    = Some id -> id <> "".
Proof.
  intros title type priority parent description e id.
  cbn [bd Ref.host]. unfold Ref.run. destruct (Ref.fault e _); [discriminate|].
  destruct priority; try discriminate.
  cbn [fst created issue_id]. intros H. injection H as <-. discriminate.
Qed.

Lemma one_create_per_new_id_witness :
  match syncLoop Ref.host "bd-1"
          [Scenario.t_c; mkTodo "c" "deploy again" "completed" "low"; Scenario.t_a]
          [] [("a", "bd-2")] Scenario.w_ok with
  | (Return _, _, ev) =>
      creates ev
      = map (createBeadsCmd "bd-1")
            (newTodos [("a", "bd-2")] []
               [Scenario.t_c; mkTodo "c" "deploy again" "completed" "low";
                Scenario.t_a])
  | (Throw _, _, ev) =>
      exists n,
        creates ev
        = map (createBeadsCmd "bd-1")
              (firstn n
                 (newTodos [("a", "bd-2")] []
                    [Scenario.t_c; mkTodo "c" "deploy again" "completed" "low";
                     Scenario.t_a]))
  end.
Proof.
  exact (one_create_per_new_id Ref.host "bd-1"
           [Scenario.t_c; mkTodo "c" "deploy again" "completed" "low"; Scenario.t_a]
           [] [("a", "bd-2")] Scenario.w_ok ref_ids_not_empty).
Defined.

(** X24.  A todo whose id names a member of [Object.prototype] and has no
    entry in the todo map is taken for a todo that has an issue: the loop
    runs one update for it, with the inherited member where the issue id
    goes, creates nothing for it and records nothing; the rest of the loop
    goes on with the same map. *)
Theorem inherited_id_is_never_created (host : Host) (a : string) (todo : TodoItem)
        (rest : list TodoItem) (seen : StringSet) (tm : TodoMap) (w : World host) :
  inherited (todo_id todo) = true ->
  JsObject.get (todo_id todo) tm = None ->
  let c := updateBeadsCmd (Member (todo_id todo)) todo in
  is_create c = false
  /\ syncLoop host a (todo :: rest) seen tm w
     = match syncLoop host a rest (set_add (todo_id todo) seen) tm
               (mkWorld (snd (bd host c (env w))) (file w)) with
       | (r, w', ev) => (r, w', EvBd c :: ev)
       end.
Proof.
  intros Hi Hnone c. subst c. split; [apply is_create_updateBeadsCmd|].
  cbn [syncLoop]. unfold read, member. rewrite Hnone, Hi. cbn [truthyOperand].
  unfold bind. rewrite updateBeadsIssue_eq.
  destruct (syncLoop host a rest _ tm _) as [[r w'] ev]. reflexivity.
Qed.

Lemma inherited_id_is_never_created_witness :
  syncLoop Ref.host "bd-1" [mkTodo "constructor" "build" "pending" "high"] []
           [("a", "bd-2")] Scenario.w_ok
  = (Return (["constructor"], [("a", "bd-2")]), Scenario.w_ok,
     [EvBd (BdUpdateStatus (Member "constructor") "open")]).
Proof.
  destruct (inherited_id_is_never_created Ref.host "bd-1"
              (mkTodo "constructor" "build" "pending" "high") [] []
              [("a", "bd-2")] Scenario.w_ok eq_refl eq_refl) as [_ H].
  rewrite H. reflexivity.
Defined.

(* ------------------------------------------------------------------------- *)
(** ** Facts about the string functions of the loaders *)
(* ------------------------------------------------------------------------- *)

Module VendorFacts.

Import Vendor.

Lemma trimStart_idem s : trimStart (trimStart s) = trimStart s.
Proof.
  induction s as [|c s IH]; [reflexivity|].
  cbn [trimStart]. destruct (isWhiteSpace c) eqn:E; [exact IH|].
  cbn [trimStart]. rewrite E. reflexivity.
Qed.

Lemma trimEnd_cons_nonws c s :
  isWhiteSpace c = false -> trimEnd (String c s) = String c (trimEnd s).
Proof.
  intros E. cbn [trimEnd]. destruct (trimEnd s); [rewrite E|]; reflexivity.
Qed.

Lemma trimEnd_idem s : trimEnd (trimEnd s) = trimEnd s.
Proof.
  induction s as [|c s IH]; [reflexivity|].
  cbn [trimEnd]. destruct (trimEnd s) as [|c' r] eqn:E.
  - destruct (isWhiteSpace c) eqn:Ec; [reflexivity|].
    cbn [trimEnd]. rewrite Ec. reflexivity.
  - cbn [trimEnd] in IH |- *. rewrite IH. reflexivity.
Qed.

(** Trimming at one end does not undo the trimming at the other. *)
Lemma trimStart_trimEnd s : trimStart (trimEnd s) = trimEnd (trimStart s).
Proof.
  induction s as [|c s IH]; [reflexivity|].
  destruct (isWhiteSpace c) eqn:E.
  - cbn [trimStart]. rewrite E, <- IH. cbn [trimEnd].
    destruct (trimEnd s) as [|c' r]; [rewrite E; reflexivity|].
    cbn [trimStart]. rewrite E. reflexivity.
  - rewrite (trimEnd_cons_nonws _ _ E). cbn [trimStart]. rewrite E.
    rewrite (trimEnd_cons_nonws _ _ E). reflexivity.
Qed.

Lemma trim_trimStart s : trimStart (trim s) = trim s.
Proof. unfold trim. rewrite trimStart_trimEnd, trimStart_idem. reflexivity. Qed.

Lemma trim_trimEnd s : trimEnd (trim s) = trim s.
Proof. unfold trim. apply trimEnd_idem. Qed.

Lemma trim_idem s : trim (trim s) = trim s.
Proof. unfold trim at 1. rewrite trim_trimStart. apply trim_trimEnd. Qed.

Lemma trim_fixed s : trimStart s = s -> trimEnd s = s -> trim s = s.
Proof. intros H1 H2. unfold trim. rewrite H1. exact H2. Qed.

Lemma length_trimStart s : String.length (trimStart s) <= String.length s.
Proof.
  induction s as [|c s IH]; [reflexivity|].
  cbn [trimStart]. destruct (isWhiteSpace c); cbn [String.length]; lia.
Qed.

Lemma trimStart_fixed_head c s :
  trimStart (String c s) = String c s -> isWhiteSpace c = false.
Proof.
  cbn [trimStart]. destruct (isWhiteSpace c); [|reflexivity].
  intros H. pose proof (length_trimStart s) as L. rewrite H in L.
  cbn [String.length] in L. lia.
Qed.

Lemma trimEnd_app_nonws a c b :
  isWhiteSpace c = false ->
  trimEnd (a ++ String c b) = a ++ String c (trimEnd b).
Proof.
  intros E. induction a as [|x a IH].
  - apply trimEnd_cons_nonws. exact E.
  - change (String x a ++ String c b) with (String x (a ++ String c b)).
    cbn [trimEnd]. rewrite IH.
    destruct a; reflexivity.
Qed.

(** One-character needles. *)
Lemma prefix_char ch c s :
  String.prefix (String ch "") (String c s) = Ascii.eqb ch c.
Proof.
  cbn [String.prefix]. destruct (Ascii.ascii_dec ch c) as [->|Hne].
  - rewrite Ascii.eqb_refl. destruct s; reflexivity.
  - symmetry. apply Ascii.eqb_neq. exact Hne.
Qed.

Lemma includes_cons needle c s :
  includes needle (String c s)
  = (String.prefix needle (String c s) || includes needle s)%bool.
Proof. cbn [includes]. destruct (String.prefix needle (String c s)); reflexivity. Qed.

Lemma includes_trimStart needle s :
  includes needle s = false -> includes needle (trimStart s) = false.
Proof.
  induction s as [|c s IH]; [auto|].
  intros H. cbn [trimStart]. destruct (isWhiteSpace c); [|exact H].
  apply IH. rewrite includes_cons in H. apply orb_false_iff in H. tauto.
Qed.

Lemma includes_char_trimEnd ch s :
  includes (String ch "") s = false -> includes (String ch "") (trimEnd s) = false.
Proof.
  induction s as [|c s IH]; [auto|].
  rewrite includes_cons, prefix_char. intros H. apply orb_false_iff in H.
  destruct H as [Hc Hs]. specialize (IH Hs).
  cbn [trimEnd]. destruct (trimEnd s) as [|c' r] eqn:E.
  - destruct (isWhiteSpace c); [reflexivity|].
    rewrite includes_cons, prefix_char, Hc. reflexivity.
  - rewrite includes_cons, prefix_char, Hc, IH. reflexivity.
Qed.

Lemma indexOf_char_before ch s i :
  indexOf (String ch "") s = Some i ->
  includes (String ch "") (sliceTo i s) = false.
Proof.
  revert i. induction s as [|c s IH]; intros i.
  - cbn. discriminate.
  - cbn [indexOf]. rewrite prefix_char.
    destruct (Ascii.eqb ch c) eqn:E.
    + intros H. injection H as <-. reflexivity.
    + destruct (indexOf (String ch "") s) as [j|]; [|discriminate].
      cbn [option_map]. intros H. injection H as <-.
      unfold sliceTo. cbn [String.substring].
      rewrite includes_cons, prefix_char, E. apply (IH j). reflexivity.
Qed.

Lemma indexOf_char_app ch k x :
  includes (String ch "") k = false ->
  indexOf (String ch "") (k ++ String ch x) = Some (String.length k).
Proof.
  induction k as [|c k IH]; intros H.
  - cbn [append indexOf]. rewrite prefix_char, Ascii.eqb_refl. reflexivity.
  - rewrite includes_cons, prefix_char in H. apply orb_false_iff in H.
    destruct H as [Hc Hk].
    change (String c k ++ String ch x) with (String c (k ++ String ch x)).
    cbn [indexOf]. rewrite prefix_char, Hc, (IH Hk). reflexivity.
Qed.

Lemma sliceTo_app k y : sliceTo (String.length k) (k ++ y) = k.
Proof.
  unfold sliceTo. induction k as [|c k IH].
  - destruct y; reflexivity.
  - cbn. rewrite IH. reflexivity.
Qed.

Lemma sliceFrom_app k y : sliceFrom (String.length k) (k ++ y) = y.
Proof. induction k as [|c k IH]; [reflexivity|exact IH]. Qed.

Lemma endsWith_app p a : endsWith p (a ++ p) = true.
Proof.
  induction a as [|c a IH].
  - cbn [append]. destruct p; cbn [endsWith]; rewrite String.eqb_refl; reflexivity.
  - change (String c a ++ p) with (String c (a ++ p)). cbn [endsWith].
    destruct (String c (a ++ p) =? p); [reflexivity|exact IH].
Qed.

Lemma endsWith_tail p c s : endsWith p (String c s) = false -> endsWith p s = false.
Proof.
  cbn [endsWith]. destruct (String c s =? p); [discriminate|auto].
Qed.

Lemma length_append a b : String.length (a ++ b) = String.length a + String.length b.
Proof. induction a as [|c a IH]; [reflexivity|]. cbn. rewrite IH. reflexivity. Qed.

(* ------------------------------------------------------------------------- *)
(** *** Front matter lines *)

Lemma frontmatterValue_not_brackets v : frontmatterValue v <> "[]".
Proof.
  unfold frontmatterValue.
  match goal with |- (if ?x =? "[]" then _ else _) <> _ =>
    destruct (String.eqb_spec x "[]") as [E|E]; [discriminate|exact E]
  end.
Qed.

Lemma frontmatterEntry_key line k v :
  frontmatterEntry line = Some (k, v) ->
  includes ":" k = false /\ trim k = k /\ v <> "[]".
Proof.
  unfold frontmatterEntry.
  destruct ((trim line =? "") || startsWith "#" (trim line))%bool; [discriminate|].
  destruct (indexOf ":" (trim line)) as [i|] eqn:E; [|discriminate].
  intros H. injection H as <- <-. split; [|split].
  - unfold trim at 1. apply includes_char_trimEnd, includes_trimStart.
    apply indexOf_char_before. exact E.
  - apply trim_idem.
  - apply frontmatterValue_not_brackets.
Qed.

Lemma get_assign k key value (o : JsObject.t string) v :
  JsObject.get k (assign key value o) = Some v ->
  (k = key /\ v = value /\ key <> "__proto__") \/ JsObject.get k o = Some v.
Proof.
  unfold assign. destruct (String.eqb_spec key "__proto__") as [E|E]; [auto|].
  destruct (String.eqb_spec k key) as [->|Hne].
  - rewrite JsObjectFacts.get_set_same. intros H. injection H as <-. auto.
  - rewrite JsObjectFacts.get_set_other by assumption. auto.
Qed.

Lemma frontmatterLoop_keys lines : forall fm k v,
  JsObject.get k (frontmatterLoop lines fm) = Some v ->
  JsObject.get k fm = Some v
  \/ (k <> "__proto__" /\ exists line, In line lines /\ frontmatterEntry line = Some (k, v)).
Proof.
  induction lines as [|line lines IH]; intros fm k v H; [left; exact H|].
  cbn [frontmatterLoop] in H.
  destruct (frontmatterEntry line) as [[key value]|] eqn:E.
  - destruct (IH _ _ _ H) as [H'|(Hk & l & Hl & Hentry)].
    + destruct (get_assign _ _ _ _ _ H') as [(-> & -> & Hk)|H'']; [|left; exact H''].
      right. split; [exact Hk|]. exists line. split; [left; reflexivity|exact E].
    + right. split; [exact Hk|]. exists l. split; [right; exact Hl|exact Hentry].
  - destruct (IH _ _ _ H) as [H'|(Hk & l & Hl & Hentry)]; [left; exact H'|].
    right. split; [exact Hk|]. exists l. split; [right; exact Hl|exact Hentry].
Qed.

Lemma frontmatterLoop_app l1 l2 fm :
  frontmatterLoop (l1 ++ l2)%list fm = frontmatterLoop l2 (frontmatterLoop l1 fm).
Proof.
  revert fm. induction l1 as [|line l1 IH]; intros fm; [reflexivity|].
  cbn [app frontmatterLoop].
  destruct (frontmatterEntry line) as [[key value]|]; apply IH.
Qed.

(** X14.  What [parseMarkdownWithFrontmatter] returns is tidy: the body has
    no white space at either end, and every key of the front matter is free
    of colons and of surrounding white space, is not [__proto__], and has a
    value other than the two characters of an empty array. *)
Theorem parsed_is_tidy (content : string) (parsed : ParsedMarkdown) :
  parseMarkdownWithFrontmatter content = Some parsed ->
  trimStart (body parsed) = body parsed
  /\ trimEnd (body parsed) = body parsed
  /\ forall k v,
       JsObject.get k (frontmatter parsed) = Some v ->
       includes ":" k = false /\ trim k = k /\ k <> "__proto__" /\ v <> "[]".
Proof.
  unfold parseMarkdownWithFrontmatter.
  destruct (matchFrontmatter content) as [[fmStr b]|]; [|discriminate].
  intros H. injection H as <-. cbn [body frontmatter].
  split; [apply trim_trimStart|]. split; [apply trim_trimEnd|].
  intros k v Hk.
  destruct (frontmatterLoop_keys _ _ _ _ Hk) as [H|(Hp & line & _ & Hentry)].
  - discriminate H.
  - destruct (frontmatterEntry_key _ _ _ Hentry) as (H1 & H2 & H3). auto.
Qed.

Lemma parsed_is_tidy_witness :
  parseMarkdownWithFrontmatter
    ("---" ++ String nl (" title : a: b " ++ String nl ("---" ++ String nl "  text  ")))
  = Some (mkParsed [("title", "a: b")] "text")
  /\ trimEnd "text" = "text".
Proof.
  split; [reflexivity|].
  apply (parsed_is_tidy
           ("---" ++ String nl (" title : a: b " ++ String nl ("---" ++ String nl "  text  ")))
           (mkParsed [("title", "a: b")] "text")).
  reflexivity.
Defined.

(** X15.  A line [key: value] of the front matter is split at its first
    colon: for a key without colon, surrounding white space or leading [#],
    the entry has that key, and as its value what follows the colon, trimmed
    and stripped of its quotes; so a value may itself contain colons. *)
Theorem frontmatterEntry_splits_at_first_colon (k rest : string) :
  k <> "" ->
  trimStart k = k ->
  trimEnd k = k ->
  includes ":" k = false ->
  startsWith "#" k = false ->
  frontmatterEntry (k ++ ":" ++ rest) = Some (k, frontmatterValue (trim rest)).
Proof.
  intros Hne Hs He Hcolon Hhash.
  destruct k as [|c k']; [congruence|].
  pose proof (trimStart_fixed_head _ _ Hs) as Hc.
  assert (Htrim : trim (String c k' ++ ":" ++ rest) = String c k' ++ ":" ++ trimEnd rest).
  { unfold trim. change (String c k' ++ ":" ++ rest)
      with (String c (k' ++ ":" ++ rest)).
    cbn [trimStart]. rewrite Hc.
    change (String c (k' ++ ":" ++ rest)) with (String c k' ++ String ":" rest).
    rewrite trimEnd_app_nonws by reflexivity. reflexivity. }
  assert (Hfrom : forall k0 r, sliceFrom (String.length k0 + 1) (k0 ++ String ":" r) = r).
  { clear. induction k0 as [|x k0 IH]; intros r; [reflexivity|apply IH]. }
  unfold frontmatterEntry. rewrite Htrim.
  change (":" ++ trimEnd rest) with (String ":" (trimEnd rest)).
  rewrite (indexOf_char_app _ _ _ Hcolon), sliceTo_app, Hfrom.
  change (String c k' ++ String ":" (trimEnd rest))
    with (String c (k' ++ String ":" (trimEnd rest))).
  unfold startsWith in *. rewrite prefix_char in *. rewrite Hhash.
  cbn [String.eqb orb].
  rewrite (trim_fixed _ Hs He).
  unfold trim at 1. rewrite trimStart_trimEnd, trimEnd_idem. reflexivity.
Qed.

Lemma frontmatterEntry_splits_at_first_colon_witness :
  frontmatterEntry ("url" ++ ":" ++ " http://host:80 ") = Some ("url", "http://host:80").
Proof.
  apply (frontmatterEntry_splits_at_first_colon "url" " http://host:80 ");
    solve [discriminate | reflexivity].
Defined.

(** X16.  A value between two double quotes, or between two single quotes,
    stands for what is between them, and a value that starts with neither
    quote stands for itself; except that the empty-array text, between
    quotes or not, stands for the empty string. *)
Theorem frontmatterValue_unquotes (x : string) :
  frontmatterValue (dquote ++ x ++ dquote) = (if x =? "[]" then "" else x)
  /\ frontmatterValue (squote ++ x ++ squote) = (if x =? "[]" then "" else x)
  /\ (startsWith dquote x = false -> startsWith squote x = false ->
      frontmatterValue x = (if x =? "[]" then "" else x)).
Proof.
  assert (Hinner : forall q : ascii,
            sliceInner (String q (x ++ String q "")) = x).
  { intros q. unfold sliceInner.
    cbn [String.length]. rewrite length_append. cbn [String.length].
    replace (S (String.length x + 1) - 2) with (String.length x) by lia.
    cbn [String.substring]. apply (sliceTo_app x (String q "")). }
  assert (Hquoted : forall q : ascii,
            (startsWith (String q "") (String q (x ++ String q ""))
             && endsWith (String q "") (String q (x ++ String q "")))%bool = true).
  { intros q. unfold startsWith. rewrite prefix_char, Ascii.eqb_refl.
    apply (endsWith_app (String q "") (String q x)). }
  split; [|split].
  - unfold frontmatterValue.
    change (dquote ++ x ++ dquote) with (String (ascii_of_nat 34) (x ++ dquote)).
    unfold dquote. rewrite (Hquoted (ascii_of_nat 34)).
    cbn [orb]. rewrite Hinner. reflexivity.
  - unfold frontmatterValue.
    change (squote ++ x ++ squote) with (String "'" (x ++ squote)).
    unfold squote. rewrite (Hquoted "'"%char), orb_true_r. rewrite Hinner.
    reflexivity.
  - intros Hd Hs. unfold frontmatterValue. rewrite Hd, Hs. reflexivity.
Qed.

Lemma frontmatterValue_unquotes_witness :
  frontmatterValue "[]" = "" /\ frontmatterValue "a 'b'" = "a 'b'".
Proof.
  split.
  - apply (frontmatterValue_unquotes "[]"); reflexivity.
  - apply (frontmatterValue_unquotes "a 'b'"); reflexivity.
Defined.

(** X17.  A key other than [__proto__] that is given on several lines keeps
    the value of its last line: whatever comes before, after a line that
    gives such a key [k] the value [v] the front matter has [v] for [k].  A
    line whose key is [__proto__] sets nothing: the front matter is what the
    lines before it made. *)
Theorem frontmatter_last_line_wins (lines : list string) (line k v : string)
        (fm : JsObject.t string) :
  frontmatterEntry line = Some (k, v) ->
  (k <> "__proto__" ->
   JsObject.get k (frontmatterLoop (lines ++ [line])%list fm) = Some v)
  /\
  (k = "__proto__" ->
   frontmatterLoop (lines ++ [line])%list fm = frontmatterLoop lines fm).
Proof.
  intros Hentry. rewrite frontmatterLoop_app. cbn [frontmatterLoop].
  rewrite Hentry. unfold assign. split.
  - intros Hk. apply String.eqb_neq in Hk. rewrite Hk.
    apply JsObjectFacts.get_set_same.
  - intros ->. reflexivity.
Qed.

Lemma frontmatter_last_line_wins_witness :
  JsObject.get "name"
    (frontmatterLoop (["name: first"; "other: x"] ++ ["name: second"])%list [])
  = Some "second"
  /\ frontmatterLoop (["name: first"] ++ ["__proto__: x"])%list []
     = frontmatterLoop ["name: first"] [].
Proof.
  split.
  - apply (frontmatter_last_line_wins ["name: first"; "other: x"] "name: second"
             "name" "second" []); [reflexivity|discriminate].
  - apply (frontmatter_last_line_wins ["name: first"] "__proto__: x"
             "__proto__" "x" []); reflexivity.
Defined.

(* ------------------------------------------------------------------------- *)
(** *** The front matter fences *)

Lemma prefix_nil s : String.prefix "" s = true.
Proof. destruct s; reflexivity. Qed.

Lemma prefix_cons a p c s :
  String.prefix (String a p) (String c s) = (Ascii.eqb a c && String.prefix p s)%bool.
Proof.
  cbn [String.prefix]. destruct (Ascii.ascii_dec a c) as [->|Hne].
  - rewrite Ascii.eqb_refl. reflexivity.
  - apply Ascii.eqb_neq in Hne. rewrite Hne. reflexivity.
Qed.

Lemma prefix_app p s : String.prefix p (p ++ s) = true.
Proof.
  induction p as [|a p IH]; [apply prefix_nil|].
  change (String a p ++ s) with (String a (p ++ s)).
  rewrite prefix_cons, Ascii.eqb_refl. exact IH.
Qed.

Lemma prefix_inv p : forall s,
  String.prefix p s = true -> s = p ++ sliceFrom (String.length p) s.
Proof.
  induction p as [|a p IH]; intros s H; [reflexivity|].
  destruct s as [|c s]; [discriminate|].
  rewrite prefix_cons in H. apply andb_true_iff in H. destruct H as [Hc Hp].
  apply Ascii.eqb_eq in Hc. subst c.
  cbn [String.length sliceFrom append]. f_equal. apply IH. exact Hp.
Qed.

Lemma eol_inv s s' :
  eol s = Some s' -> exists e, isLineEnd e = true /\ s = e ++ s'.
Proof.
  destruct s as [|c s]; [discriminate|]. cbn [eol].
  destruct (Ascii.eqb_spec c nl) as [->|_].
  - intros H. injection H as <-. exists (String nl ""). split; reflexivity.
  - destruct (Ascii.eqb_spec c cr) as [->|_]; [|discriminate].
    destruct s as [|c' s]; [discriminate|].
    destruct (Ascii.eqb_spec c' nl) as [->|_]; [|discriminate].
    intros H. injection H as <-. exists (String cr (String nl "")).
    split; reflexivity.
Qed.

Lemma eol_app e s : isLineEnd e = true -> eol (e ++ s) = Some s.
Proof.
  unfold isLineEnd. intros H. apply orb_true_iff in H.
  destruct H as [H|H]; apply String.eqb_eq in H; subst e; reflexivity.
Qed.

Lemma isLineEnd_head e s :
  isLineEnd e = true -> startsWith "-" (e ++ s) = false.
Proof.
  unfold isLineEnd. intros H. apply orb_true_iff in H.
  destruct H as [H|H]; apply String.eqb_eq in H; subst e; reflexivity.
Qed.

Lemma dashes_inv s s' : dashes s = Some s' -> s = "---" ++ s'.
Proof.
  unfold dashes. destruct (String.prefix "---" s) eqn:E; [|discriminate].
  intros H. injection H as <-. apply (prefix_inv "---"). exact E.
Qed.

Lemma dashes_app s : dashes ("---" ++ s) = Some s.
Proof. unfold dashes. rewrite prefix_app. reflexivity. Qed.

Lemma closeHere_inv s rest :
  closeHere s = Some rest ->
  exists e2 e3, isLineEnd e2 = true /\ isLineEnd e3 = true
                /\ s = e2 ++ "---" ++ e3 ++ rest.
Proof.
  unfold closeHere.
  destruct (eol s) as [s1|] eqn:E1; [|discriminate].
  destruct (dashes s1) as [s2|] eqn:E2; [|discriminate].
  intros E3.
  destruct (eol_inv _ _ E1) as (e2 & H2 & ->).
  apply dashes_inv in E2. subst s1.
  destruct (eol_inv _ _ E3) as (e3 & H3 & ->).
  exists e2, e3. auto.
Qed.

Lemma closeHere_app e2 e3 rest :
  isLineEnd e2 = true -> isLineEnd e3 = true ->
  closeHere (e2 ++ "---" ++ e3 ++ rest) = Some rest.
Proof.
  intros H2 H3. unfold closeHere.
  rewrite (eol_app _ _ H2), dashes_app. apply eol_app. exact H3.
Qed.

Lemma append_assoc (a b c : string) : (a ++ b) ++ c = a ++ b ++ c.
Proof. induction a as [|x a IH]; [reflexivity|]. cbn. rewrite IH. reflexivity. Qed.

Lemma findClose_inv s : forall group1 group2,
  findClose s = Some (group1, group2) ->
  exists e2 e3, isLineEnd e2 = true /\ isLineEnd e3 = true
                /\ s = group1 ++ e2 ++ "---" ++ e3 ++ group2.
Proof.
  induction s as [|c s IH]; intros group1 group2.
  - cbn. discriminate.
  - cbn [findClose]. destruct (closeHere (String c s)) as [rest|] eqn:E.
    + intros H. injection H as <- <-. apply closeHere_inv. exact E.
    + destruct (findClose s) as [[g1 g2]|]; [|discriminate].
      intros H. injection H as <- <-.
      destruct (IH _ _ eq_refl) as (e2 & e3 & H2 & H3 & ->).
      exists e2, e3. auto.
Qed.

Lemma dashes_app_none x tail :
  String.prefix "---" x = false ->
  startsWith "-" tail = false ->
  dashes (x ++ tail) = None.
Proof.
  unfold dashes, startsWith. intros Hx Ht.
  assert (E : String.prefix "---" (x ++ tail) = false); [|rewrite E; reflexivity].
  assert (Hdash : forall n, String.prefix (String "-" n) tail = false).
  { intros n. destruct tail as [|t tail]; [reflexivity|].
    rewrite prefix_cons in *. rewrite prefix_nil, andb_true_r in Ht.
    rewrite Ht. reflexivity. }
  destruct x as [|a [|b [|c x]]]; cbn [append].
  - apply Hdash.
  - rewrite prefix_cons, Hdash. apply andb_false_r.
  - rewrite !prefix_cons, Hdash, !andb_false_r. reflexivity.
  - rewrite !prefix_cons, prefix_nil in *. exact Hx.
Qed.

Lemma closeHere_inside c fm tail :
  includes (String nl "---") (String c fm) = false ->
  endsWith (String cr "") (String c fm) = false ->
  startsWith "-" tail = false ->
  closeHere (String c (fm ++ tail)) = None.
Proof.
  intros Hinc Hend Ht.
  rewrite includes_cons in Hinc. apply orb_false_iff in Hinc.
  destruct Hinc as [Hhere Hlater].
  unfold closeHere. cbn [eol].
  destruct (Ascii.eqb_spec c nl) as [->|_].
  - rewrite prefix_cons, Ascii.eqb_refl in Hhere.
    rewrite (dashes_app_none _ _ Hhere Ht). reflexivity.
  - destruct (Ascii.eqb_spec c cr) as [->|_]; [|reflexivity].
    destruct fm as [|c' fm]; [discriminate Hend|].
    change (String c' fm ++ tail) with (String c' (fm ++ tail)). cbv beta iota.
    destruct (Ascii.eqb_spec c' nl) as [->|_]; [|reflexivity].
    rewrite includes_cons in Hlater. apply orb_false_iff in Hlater.
    destruct Hlater as [Hhere' _].
    rewrite prefix_cons, Ascii.eqb_refl in Hhere'.
    rewrite (dashes_app_none _ _ Hhere' Ht). reflexivity.
Qed.

Lemma findClose_first fm : forall tail rest,
  includes (String nl "---") fm = false ->
  endsWith (String cr "") fm = false ->
  startsWith "-" tail = false ->
  closeHere tail = Some rest ->
  findClose (fm ++ tail) = Some (fm, rest).
Proof.
  induction fm as [|c fm IH]; intros tail rest Hinc Hend Ht Hclose.
  - cbn [append]. destruct tail as [|t tail]; [discriminate Hclose|].
    cbn [findClose]. rewrite Hclose. reflexivity.
  - change (String c fm ++ tail) with (String c (fm ++ tail)).
    cbn [findClose]. rewrite (closeHere_inside _ _ _ Hinc Hend Ht).
    rewrite (IH tail rest); [reflexivity| |apply (endsWith_tail _ _ _ Hend)|exact Ht|exact Hclose].
    rewrite includes_cons in Hinc. apply orb_false_iff in Hinc. tauto.
Qed.

(** X18.  [parseMarkdownWithFrontmatter] accepts only a text that opens with
    a line of three dashes and has, further on, a second such line: whenever
    it returns a result, the text is an opening fence, a front matter, a
    closing fence and a rest, each fence ended by LF or CR LF, and the result
    is the front matter read line by line with the trimmed rest as body. *)
Theorem parse_needs_both_fences (content : string) (parsed : ParsedMarkdown) :
  parseMarkdownWithFrontmatter content = Some parsed ->
  exists e1 fm e2 e3 rest,
    isLineEnd e1 = true /\ isLineEnd e2 = true /\ isLineEnd e3 = true
    /\ content = "---" ++ e1 ++ fm ++ e2 ++ "---" ++ e3 ++ rest
    /\ parsed = {| frontmatter := frontmatterLoop (splitLines fm) JsObject.empty;
                   body := trim rest |}.
Proof.
  unfold parseMarkdownWithFrontmatter, matchFrontmatter.
  destruct (dashes content) as [s1|] eqn:E1; [|discriminate].
  destruct (eol s1) as [s2|] eqn:E2; [|discriminate].
  destruct (findClose s2) as [[fm rest]|] eqn:E3; [|discriminate].
  intros H. injection H as <-.
  apply dashes_inv in E1. subst content.
  destruct (eol_inv _ _ E2) as (e1 & H1 & ->).
  destruct (findClose_inv _ _ _ E3) as (e2 & e3 & H2 & H3 & ->).
  exists e1, fm, e2, e3, rest. auto.
Qed.

Lemma parse_needs_both_fences_witness :
  exists e1 fm e2 e3 rest,
    isLineEnd e1 = true /\ isLineEnd e2 = true /\ isLineEnd e3 = true
    /\ "---" ++ String cr (String nl ("a: b" ++ String nl ("---" ++ String nl "text")))
       = "---" ++ e1 ++ fm ++ e2 ++ "---" ++ e3 ++ rest
    /\ mkParsed [("a", "b")] "text"
       = {| frontmatter := frontmatterLoop (splitLines fm) JsObject.empty;
            body := trim rest |}.
Proof.
  apply (parse_needs_both_fences
           ("---" ++ String cr (String nl ("a: b" ++ String nl ("---" ++ String nl "text"))))
           (mkParsed [("a", "b")] "text")).
  reflexivity.
Defined.

(** X19.  The front matter ends at the first closing fence.  For a front
    matter that holds no line starting with three dashes and does not end in
    a carriage return, the text made of an opening fence, that front matter,
    a closing fence and any rest is parsed into exactly that front matter
    and the trimmed rest: fences further down belong to the body. *)
Theorem parse_stops_at_first_fence (e1 fm e2 e3 rest : string) :
  isLineEnd e1 = true -> isLineEnd e2 = true -> isLineEnd e3 = true ->
  includes (String nl "---") fm = false ->
  endsWith (String cr "") fm = false ->
  parseMarkdownWithFrontmatter ("---" ++ e1 ++ fm ++ e2 ++ "---" ++ e3 ++ rest)
  = Some {| frontmatter := frontmatterLoop (splitLines fm) JsObject.empty;
            body := trim rest |}.
Proof.
  intros H1 H2 H3 Hinc Hend.
  unfold parseMarkdownWithFrontmatter, matchFrontmatter.
  rewrite dashes_app, (eol_app _ _ H1).
  rewrite (findClose_first fm (e2 ++ "---" ++ e3 ++ rest) rest Hinc Hend
             (isLineEnd_head _ _ H2) (closeHere_app _ _ _ H2 H3)).
  reflexivity.
Qed.

Lemma parse_stops_at_first_fence_witness :
  parseMarkdownWithFrontmatter
    ("---" ++ String nl "" ++ "a: b" ++ String nl "" ++ "---" ++ String nl ""
     ++ ("x" ++ String nl ("---" ++ String nl "y")))
  = Some {| frontmatter := frontmatterLoop (splitLines "a: b") JsObject.empty;
            body := trim ("x" ++ String nl ("---" ++ String nl "y")) |}.
Proof.
  apply (parse_stops_at_first_fence (String nl "") "a: b" (String nl "") (String nl "")
           ("x" ++ String nl ("---" ++ String nl "y"))); reflexivity.
Defined.

(* ------------------------------------------------------------------------- *)
(** *** Commands and the agent *)

Lemma parse_inv content parsed :
  parseMarkdownWithFrontmatter content = Some parsed ->
  exists fm rest,
    matchFrontmatter content = Some (fm, rest)
    /\ parsed = {| frontmatter := frontmatterLoop (splitLines fm) JsObject.empty;
                   body := trim rest |}.
Proof.
  unfold parseMarkdownWithFrontmatter.
  destruct (matchFrontmatter content) as [[fm rest]|]; [|discriminate].
  intros H. injection H as <-. exists fm, rest. auto.
Qed.

Lemma commandOf_inv dir file name c :
  commandOf dir file = Some (name, c) ->
  endsWith ".md" file = true
  /\ name = commandName file
  /\ exists content parsed,
       readVendorFile dir ("commands/" ++ file) = Some content
       /\ content <> ""
       /\ parseMarkdownWithFrontmatter content = Some parsed
       /\ cmd_template c = body parsed.
Proof.
  unfold commandOf.
  destruct (endsWith ".md" file); [|discriminate]. cbn [negb].
  destruct (readVendorFile dir ("commands/" ++ file)) as [content|]; [|discriminate].
  destruct (String.eqb_spec content "") as [|Hne]; [discriminate|].
  destruct (parseMarkdownWithFrontmatter content) as [parsed|] eqn:E; [|discriminate].
  intros H. injection H as <- <-.
  split; [reflexivity|]. split; [reflexivity|].
  exists content, parsed. auto.
Qed.

Lemma commandOf_some dir file content parsed :
  endsWith ".md" file = true ->
  readVendorFile dir ("commands/" ++ file) = Some content ->
  content <> "" ->
  parseMarkdownWithFrontmatter content = Some parsed ->
  exists c, commandOf dir file = Some (commandName file, c)
            /\ cmd_template c = body parsed.
Proof.
  intros Hmd Hread Hne Hparse. unfold commandOf.
  rewrite Hmd, Hread. cbn [negb].
  apply String.eqb_neq in Hne. rewrite Hne, Hparse.
  eexists. split; reflexivity.
Qed.

Lemma commandsLoop_keys dir files : forall commands name c,
  JsObject.get name (commandsLoop dir files commands) = Some c ->
  JsObject.get name commands = Some c
  \/ exists file, In file files /\ commandOf dir file = Some (name, c).
Proof.
  induction files as [|file files IH]; intros commands name c H; [left; exact H|].
  cbn [commandsLoop] in H.
  destruct (commandOf dir file) as [[n c0]|] eqn:E.
  - destruct (IH _ _ _ H) as [H'|(f & Hf & Hc)].
    + destruct (String.eqb_spec name n) as [->|Hne].
      * rewrite JsObjectFacts.get_set_same in H'. injection H' as <-.
        right. exists file. split; [left; reflexivity|exact E].
      * rewrite JsObjectFacts.get_set_other in H' by assumption. left. exact H'.
    + right. exists f. split; [right; exact Hf|exact Hc].
  - destruct (IH _ _ _ H) as [H'|(f & Hf & Hc)]; [left; exact H'|].
    right. exists f. split; [right; exact Hf|exact Hc].
Qed.

Lemma commandsLoop_keeps dir files : forall commands name,
  (exists c, JsObject.get name commands = Some c) ->
  exists c, JsObject.get name (commandsLoop dir files commands) = Some c.
Proof.
  induction files as [|file files IH]; intros commands name H; [exact H|].
  cbn [commandsLoop]. destruct (commandOf dir file) as [[n c0]|]; [|apply IH; exact H].
  apply IH. destruct (String.eqb_spec name n) as [->|Hne].
  - exists c0. apply JsObjectFacts.get_set_same.
  - destruct H as [c H]. exists c.
    rewrite JsObjectFacts.get_set_other by assumption. exact H.
Qed.

Lemma commandsLoop_has dir files : forall commands file name c0,
  In file files ->
  commandOf dir file = Some (name, c0) ->
  exists c, JsObject.get name (commandsLoop dir files commands) = Some c.
Proof.
  induction files as [|f files IH]; intros commands file name c0 Hin Hc; [destruct Hin|].
  cbn [commandsLoop]. destruct Hin as [->|Hin].
  - rewrite Hc. apply commandsLoop_keeps. exists c0. apply JsObjectFacts.get_set_same.
  - destruct (commandOf dir f) as [[n c1]|]; eapply IH; eassumption.
Qed.

Lemma removeFirst_md_inside c x rest :
  String.prefix ".md" (String c x) = false ->
  String.prefix ".md" (String c x ++ ".md" ++ rest) = false.
Proof.
  destruct x as [|d [|e x]]; cbn [append]; rewrite !prefix_cons; intros H.
  - cbn. apply andb_false_r.
  - cbn. rewrite !andb_false_r. reflexivity.
  - rewrite prefix_nil in *. exact H.
Qed.

(** X20.  Every command [loadCommands] registers comes from a file of the
    [commands] directory: a listed file whose name ends in [.md], that could
    be read, is not empty and has a front matter; the command is named [bd-]
    followed by the file name without its first [.md], and its template is
    the body of that file.  In particular an unreadable directory gives no
    command. *)
Theorem loadCommands_provenance (dir : VendorDir) (name : string) (c : Command) :
  JsObject.get name (loadCommands dir) = Some c ->
  exists file content parsed,
    In file (listVendorFiles dir "commands")
    /\ endsWith ".md" file = true
    /\ name = commandName file
    /\ readVendorFile dir ("commands/" ++ file) = Some content
    /\ content <> ""
    /\ parseMarkdownWithFrontmatter content = Some parsed
    /\ cmd_template c = body parsed.
Proof.
  unfold loadCommands. intros H.
  destruct (commandsLoop_keys _ _ _ _ _ H) as [H'|(file & Hin & Hc)]; [discriminate H'|].
  destruct (commandOf_inv _ _ _ _ Hc) as (Hmd & Hname & content & parsed & H1 & H2 & H3 & H4).
  exists file, content, parsed. auto 10.
Qed.

Lemma loadCommands_provenance_witness :
  exists file content parsed,
    In file (listVendorFiles exampleDir "commands")
    /\ endsWith ".md" file = true
    /\ "bd-ready" = commandName file
    /\ readVendorFile exampleDir ("commands/" ++ file) = Some content
    /\ content <> ""
    /\ parseMarkdownWithFrontmatter content = Some parsed
    /\ "Run bd ready." = body parsed.
Proof.
  apply (loadCommands_provenance exampleDir "bd-ready"
           {| cmd_description := "Show ready work ([limit])";
              cmd_template := "Run bd ready." |}).
  reflexivity.
Defined.

(** X21.  No command file is lost: a listed file whose name ends in [.md],
    that can be read, is not empty and has a front matter, gives a command
    under its name; and when no other listed file has the same command name,
    that command's template is the body of the file. *)
Theorem command_file_is_registered (dir : VendorDir) (file content : string)
        (parsed : ParsedMarkdown) :
  In file (listVendorFiles dir "commands") ->
  endsWith ".md" file = true ->
  readVendorFile dir ("commands/" ++ file) = Some content ->
  content <> "" ->
  parseMarkdownWithFrontmatter content = Some parsed ->
  exists c,
    JsObject.get (commandName file) (loadCommands dir) = Some c
    /\ ((forall other, In other (listVendorFiles dir "commands") ->
                       commandName other = commandName file -> other = file) ->
        cmd_template c = body parsed).
Proof.
  intros Hin Hmd Hread Hne Hparse.
  destruct (commandOf_some _ _ _ _ Hmd Hread Hne Hparse) as (c0 & Hc0 & Ht0).
  destruct (commandsLoop_has dir _ JsObject.empty _ _ _ Hin Hc0) as [c Hc].
  exists c. split; [exact Hc|].
  intros Hunique.
  destruct (commandsLoop_keys _ _ _ _ _ Hc) as [H'|(f & Hf & Hcf)]; [discriminate H'|].
  destruct (commandOf_inv _ _ _ _ Hcf) as (_ & Hname & _).
  assert (f = file) by (apply Hunique; [exact Hf|symmetry; exact Hname]).
  subst f. rewrite Hc0 in Hcf. injection Hcf as <-. exact Ht0.
Qed.

Lemma command_file_is_registered_witness :
  exists c,
    JsObject.get (commandName "ready.md") (loadCommands exampleDir) = Some c
    /\ ((forall other, In other (listVendorFiles exampleDir "commands") ->
                       commandName other = commandName "ready.md" -> other = "ready.md") ->
        cmd_template c = "Run bd ready.").
Proof.
  apply (command_file_is_registered exampleDir "ready.md"
           ("---" ++ String nl ("description: Show ready work"
             ++ String nl ("argument-hint: [limit]"
             ++ String nl ("---" ++ String nl ("Run bd ready." ++ String nl "")))))
           (mkParsed [("description", "Show ready work"); ("argument-hint", "[limit]")]
                     "Run bd ready."));
    solve [reflexivity | discriminate | left; reflexivity].
Defined.

(** X22.  The command name drops the first [.md] of the file name, wherever
    it stands: for a base name that holds no [.md], the file [base.md] gives
    [bd-base], and a file [base.md.rest] gives [bd-base.rest], keeping what
    follows the first [.md]. *)
Theorem commandName_drops_first_md (base rest : string) :
  includes ".md" base = false ->
  commandName (base ++ ".md" ++ rest) = "bd-" ++ base ++ rest.
Proof.
  intros H. unfold commandName. f_equal.
  induction base as [|c base IH].
  - cbn [append]. destruct rest; reflexivity.
  - rewrite includes_cons in H. apply orb_false_iff in H. destruct H as [Hhere Hlater].
    pose proof (removeFirst_md_inside _ _ rest Hhere) as E.
    change (String c base ++ ".md" ++ rest)
      with (String c (base ++ ".md" ++ rest)) in *.
    cbn [removeFirst]. rewrite E, (IH Hlater). reflexivity.
Qed.

Lemma commandName_drops_first_md_witness :
  commandName ("ready" ++ ".md" ++ ".md") = "bd-" ++ "ready" ++ ".md".
Proof.
  apply (commandName_drops_first_md "ready" ".md"). reflexivity.
Defined.

(** X23.  [loadAgent] registers at most one agent: whatever the agent file
    holds, an agent of the result is named [beads-task-agent], is a
    subagent, and its prompt is the guidance followed by a text without
    white space at either end, the body of a readable, non-empty agent file
    with a front matter. *)
Theorem loadAgent_shape (guidance : string) (dir : VendorDir) (name : string)
        (a : Agent) :
  JsObject.get name (loadAgent guidance dir) = Some a ->
  name = "beads-task-agent"
  /\ agent_mode a = "subagent"
  /\ exists content parsed,
       readVendorFile dir "agents/task-agent.md" = Some content
       /\ content <> ""
       /\ parseMarkdownWithFrontmatter content = Some parsed
       /\ agent_prompt a = guidance ++ body parsed
       /\ trim (body parsed) = body parsed
       /\ agent_description a
          = (JsObject.get "description" (frontmatter parsed)
             ?? "Beads task completion agent").
Proof.
  unfold loadAgent.
  destruct (readVendorFile dir "agents/task-agent.md") as [content|]; [|discriminate].
  destruct (String.eqb_spec content "") as [|Hne]; [discriminate|].
  destruct (parseMarkdownWithFrontmatter content) as [parsed|] eqn:E; [|discriminate].
  cbn [JsObject.get].
  destruct (String.eqb_spec name "beads-task-agent") as [->|Hn]; [|discriminate].
  intros H. injection H as <-. cbn [agent_mode agent_prompt agent_description].
  split; [reflexivity|]. split; [reflexivity|].
  exists content, parsed.
  destruct (parse_inv _ _ E) as (fm & rest & _ & ->). cbn [body frontmatter].
  repeat split; auto. apply trim_idem.
Qed.

Lemma loadAgent_shape_witness :
  agent_mode exampleAgent = "subagent"
  /\ exists content parsed,
       readVendorFile exampleDir "agents/task-agent.md" = Some content
       /\ content <> ""
       /\ parseMarkdownWithFrontmatter content = Some parsed
       /\ agent_prompt exampleAgent = "Use bd. " ++ body parsed
       /\ trim (body parsed) = body parsed
       /\ agent_description exampleAgent
          = (JsObject.get "description" (frontmatter parsed)
             ?? "Beads task completion agent").
Proof.
  apply (loadAgent_shape "Use bd. " exampleDir "beads-task-agent" exampleAgent).
  reflexivity.
Defined.

End VendorFacts.
